(** * fluent: the render pipeline and its two-tier buffer pool

    A shallow embedding of the Go packages [pool] (pool/pool.go), [fluent]
    (fluent.go), [node] (node/conditional.go, node/function.go, the
    FunctionsComponent file) and [text] (TextNode), together with the part of
    the Go runtime and standard library they rest on: byte arrays allocated by
    [make], [bytes.Buffer], [sync.Pool] and [reflect.Value.IsNil].

    Go pointers are modelled by indices into an explicit store, so that the
    aliasing between a [*bytes.Buffer], its backing array, the byte slices
    handed out by [Bytes()] and the pool registries is visible.  A panic is
    an explicit outcome.  The store is unbounded: exhaustion of memory is not
    modelled, only the panics that the language defines for an argument
    (a capacity that is negative or beyond [maxAlloc], a negative count, nil
    dereference, [IsNil] on a value that cannot be nil).  A Go [int] is a
    [Z]; that [Get] returns for a hint of the caller's choice is proved for
    hints within [maxAlloc] ([within_limit]), which are [int]s on which
    neither [make] nor the real [Grow] panics. *)

From Stdlib Require Import ZArith Lia Bool.
From Stdlib Require Import Strings.String Strings.Byte Strings.Ascii.
From stdpp Require Import base option list.

Set Default Proof Using "Type".
Local Open Scope Z_scope.

(** ** Outcomes and the state-and-panic monad *)

Inductive PanicReason : Type :=
| NilDereference        (* method or field access through a nil pointer *)
| NilInterfaceCall      (* method call on the nil interface value *)
| MakesliceCapOutOfRange (* make([]byte, len, cap): cap negative or too large *)
| GrowNegativeCount     (* bytes.Buffer.Grow: negative count *)
| IsNilOnNonNilableKind (* reflect: call of reflect.Value.IsNil on ... Value *)
| DanglingReference.    (* an index outside the store: no Go pointer is *)

Inductive Outcome (S A : Type) : Type :=
| Ok (a : A) (s : S)
| Panic (why : PanicReason).
Arguments Ok {S A} a s.
Arguments Panic {S A} why.

Definition M (S A : Type) : Type := S -> Outcome S A.

Definition ret {S A} (a : A) : M S A := fun s => Ok a s.
Definition bind {S A B} (m : M S A) (k : A -> M S B) : M S B :=
  fun s => match m s with
           | Ok a s' => k a s'
           | Panic why => Panic why
           end.
Definition panic {S A} (why : PanicReason) : M S A := fun _ => Panic why.
Definition get_state {S} : M S S := fun s => Ok s s.
Definition put_state {S} (s : S) : M S unit := fun _ => Ok tt s.

Declare Scope go_scope.
Delimit Scope go_scope with go.
Notation "'let*' x ':=' c 'in' k" := (bind c (fun x => k))
  (at level 10, x name, c at level 100, k at level 200) : go_scope.
Notation "'let*' ' p ':=' c 'in' k" := (bind c (fun p => k))
  (at level 10, p strict pattern, c at level 100, k at level 200) : go_scope.
Notation "c ';;;' k" := (bind c (fun _ => k))
  (at level 100, k at level 200, right associativity) : go_scope.
Local Open Scope go_scope.

(** ** The store: byte arrays, buffers, writers, and the pool package *)

Definition byte := Byte.byte.

(** A [*bytes.Buffer]: [None] is the nil pointer. *)
Definition BufPtr := option nat.

(** [bytes.Buffer].  Its slice [buf] always starts at the first cell of its
    array (every slice the buffer stores comes from [make], from a fresh
    array of its own, or from re-slicing [buf] at [0]); [buf_arr = None] is
    the nil slice of the zero value [&bytes.Buffer{}].  The read offset [off]
    is zero whenever control is in this repository: the only read is
    [WriteTo], which drains the buffer and resets it. *)
Record Buffer : Type := mkBuffer {
  buf_arr : option nat;   (* the array under [buf] *)
  buf_len : nat           (* len(buf) *)
}.

(** A byte slice [[]byte] as [Bytes()] hands it out. *)
Record Slice : Type := mkSlice {
  s_arr : option nat;
  s_off : nat;
  s_len : nat
}.

(** [sync.Pool] of [*bytes.Buffer]; both pools of the package are declared
    with [New: func() any { return &bytes.Buffer{} }]. *)
Record SyncPool : Type := mkSyncPool {
  idle : list nat
}.

Record State : Type := mkState {
  arrays : list (list byte);      (* each array has its capacity as length *)
  buffers : list Buffer;
  writers : list (list byte);     (* what each io.Writer has received *)
  (* package pool *)
  poolThreshold : Z;
  maxPoolSize : Z;
  discardOversized : bool;
  enabled : bool;
  smallPool : SyncPool;
  largePool : SyncPool
}.

Definition set_arrays (f : list (list byte) -> list (list byte)) (s : State) : State :=
  mkState (f (arrays s)) (buffers s) (writers s) (poolThreshold s)
          (maxPoolSize s) (discardOversized s) (enabled s) (smallPool s) (largePool s).
Definition set_buffers (f : list Buffer -> list Buffer) (s : State) : State :=
  mkState (arrays s) (f (buffers s)) (writers s) (poolThreshold s)
          (maxPoolSize s) (discardOversized s) (enabled s) (smallPool s) (largePool s).
Definition set_writers (f : list (list byte) -> list (list byte)) (s : State) : State :=
  mkState (arrays s) (buffers s) (f (writers s)) (poolThreshold s)
          (maxPoolSize s) (discardOversized s) (enabled s) (smallPool s) (largePool s).
Definition set_poolThreshold (v : Z) (s : State) : State :=
  mkState (arrays s) (buffers s) (writers s) v
          (maxPoolSize s) (discardOversized s) (enabled s) (smallPool s) (largePool s).
Definition set_maxPoolSize (v : Z) (d : bool) (s : State) : State :=
  mkState (arrays s) (buffers s) (writers s) (poolThreshold s)
          v d (enabled s) (smallPool s) (largePool s).
Definition set_enabled (v : bool) (s : State) : State :=
  mkState (arrays s) (buffers s) (writers s) (poolThreshold s)
          (maxPoolSize s) (discardOversized s) v (smallPool s) (largePool s).
Definition set_smallPool (f : SyncPool -> SyncPool) (s : State) : State :=
  mkState (arrays s) (buffers s) (writers s) (poolThreshold s)
          (maxPoolSize s) (discardOversized s) (enabled s) (f (smallPool s)) (largePool s).
Definition set_largePool (f : SyncPool -> SyncPool) (s : State) : State :=
  mkState (arrays s) (buffers s) (writers s) (poolThreshold s)
          (maxPoolSize s) (discardOversized s) (enabled s) (smallPool s) (f (largePool s)).

(** The package-level initialisers of pool.go and its [init()]. *)
Definition init_state : State :=
  mkState [] [] [] (4 * 1024) (256 * 1024) true true (mkSyncPool []) (mkSyncPool []).

Abbreviation Go := (M State).

(** ** The Go runtime: make and the size classes of the allocator *)

(** The allocator rounds the size of an array that [append] allocates up to
    a size class; which one is the runtime's business, never less than what
    was asked. *)
Record Runtime : Type := mkRuntime {
  roundupsize : nat -> nat;
  roundupsize_ge : forall n : nat, (n <= roundupsize n)%nat
}.

Definition exact_runtime : Runtime := mkRuntime (fun n => n) (fun n => le_n n).

Definition zero_cells (n : nat) : list byte := replicate n x00.

Definition new_array (cells : list byte) : Go nat :=
  fun s => Ok (length (arrays s)) (set_arrays (fun a => a ++ [cells]) s).

(** The largest [int]: 64 bits wide on the platforms modelled. *)
Definition maxInt : Z := 2 ^ 63 - 1.

(** The runtime's [maxAlloc], the number of bytes beyond which it does not
    attempt an allocation: [1 << heapAddrBits], with 48 address bits on
    linux/amd64 and the other 64-bit platforms of this model. *)
Definition maxAlloc : Z := 2 ^ 48.

(** [make([]byte, 0, cap)]: a fresh zeroed array of [cap] cells.  The
    runtime's [makeslice] panics, with the same message, on a [cap] that is
    negative and on one that is more than [maxAlloc] bytes. *)
Definition make (cap : Z) : Go nat :=
  if (cap <? 0) || (maxAlloc <? cap) then panic MakesliceCapOutOfRange
  else new_array (zero_cells (Z.to_nat cap)).

(** ** bytes.Buffer (Go standard library), on the store *)

Definition deref (p : BufPtr) : Go (nat * Buffer) :=
  fun s => match p with
           | None => Panic NilDereference
           | Some r => match buffers s !! r with
                       | Some b => Ok (r, b) s
                       | None => Panic DanglingReference
                       end
           end.

Definition store_buffer (r : nat) (b : Buffer) : Go unit :=
  fun s => Ok tt (set_buffers (fun bs => <[r:=b]> bs) s).

Definition new_buffer (b : Buffer) : Go BufPtr :=
  fun s => Ok (Some (length (buffers s))) (set_buffers (fun bs => bs ++ [b]) s).

(** The cells of the array under a slice; the nil slice has none. *)
Definition read_array (a : option nat) : Go (list byte) :=
  fun s => match a with
           | None => Ok [] s
           | Some i => match arrays s !! i with
                       | Some cells => Ok cells s
                       | None => Panic DanglingReference
                       end
           end.

(** [copy(arr[pos:], data)], with [pos + len(data) <= cap]. *)
Definition copy_into (a : option nat) (pos : nat) (data : list byte) : Go unit :=
  fun s => match a with
           | None => Ok tt s
           | Some i =>
               Ok tt (set_arrays
                        (fun arrs => match arrs !! i with
                                     | Some cells =>
                                         <[i := take pos cells ++ data
                                                  ++ drop (pos + length data) cells]> arrs
                                     | None => arrs
                                     end) s)
           end.

(** [bytes.NewBuffer(buf)] with [len(buf) = 0]. *)
Definition bytes_NewBuffer (a : nat) : Go BufPtr :=
  new_buffer (mkBuffer (Some a) 0).


Definition Buffer_Cap (p : BufPtr) : Go Z :=
  let* '(_, b) := deref p in
  let* cells := read_array (buf_arr b) in
  ret (Z.of_nat (length cells)).

(** [Reset]: [b.buf = b.buf[:0]]; the array is kept. *)
Definition Buffer_Reset (p : BufPtr) : Go unit :=
  let* '(r, b) := deref p in
  store_buffer r (mkBuffer (buf_arr b) 0).

(** [Bytes]: [b.buf[b.off:]], a slice of the buffer's own array. *)
Definition Buffer_Bytes (p : BufPtr) : Go Slice :=
  let* '(_, b) := deref p in
  ret (mkSlice (buf_arr b) 0 (buf_len b)).

Definition smallBufferSize : nat := 64.

(** [tryGrowByReslice(n)]: [if l := len(b.buf); n <= cap(b.buf)-l]. *)
Definition Buffer_tryGrowByReslice (p : BufPtr) (n : nat) : Go (nat * bool) :=
  let* '(r, b) := deref p in
  let* cells := read_array (buf_arr b) in
  let l := buf_len b in
  if Z.of_nat n <=? Z.of_nat (length cells) - Z.of_nat l then
    store_buffer r (mkBuffer (buf_arr b) (l + n)) ;;;
    ret (l, true)
  else ret (0%nat, false).

(** [growSlice(b.buf[b.off:], b.off+n)]: a fresh array of at least
    [max (len + n) (2 * cap)] cells that starts with the old contents.  The
    store being unbounded, the allocation is always served; the real one
    turns a request of more than [maxAlloc] bytes into
    [panic(ErrTooLarge)], which [within_limit] rules out. *)
Definition growSlice (rt : Runtime) (b : Buffer) (cells : list byte) (n : nat) : Go nat :=
  let l := buf_len b in
  let c := (l + n)%nat in
  let c := if (c <? 2 * length cells)%nat then (2 * length cells)%nat else c in
  let* a := new_array (zero_cells (roundupsize rt c)) in
  copy_into (Some a) 0 (take l cells) ;;;
  ret a.

(** [grow(n)]: make room for [n] more bytes, return the index to write at. *)
Definition Buffer_grow (rt : Runtime) (p : BufPtr) (n : nat) : Go nat :=
  let* '(r, b) := deref p in
  let m := buf_len b in
  let* '(i, ok) := Buffer_tryGrowByReslice p n in
  if ok : bool then ret i
  else
    let* cells := read_array (buf_arr b) in
    match buf_arr b with
    | None =>
        if (n <=? smallBufferSize)%nat then
          let* a := new_array (zero_cells smallBufferSize) in
          store_buffer r (mkBuffer (Some a) n) ;;;
          ret 0%nat
        else
          let* a := growSlice rt b cells n in
          store_buffer r (mkBuffer (Some a) (m + n)) ;;;
          ret m
    | Some a0 =>
        let c := length cells in
        if Z.of_nat n <=? Z.of_nat c / 2 - Z.of_nat m then
          (* copy(b.buf, b.buf[b.off:]) with off = 0 moves nothing *)
          store_buffer r (mkBuffer (Some a0) (m + n)) ;;;
          ret m
        else
          let* a := growSlice rt b cells n in
          store_buffer r (mkBuffer (Some a) (m + n)) ;;;
          ret m
    end.

(** [Grow(n)]: panics on a negative count, then [b.buf = b.buf[:m]].  In
    the unbounded store [grow] always finds room; see [within_limit] for the
    counts on which the real [Grow] does as well. *)
Definition Buffer_Grow (rt : Runtime) (p : BufPtr) (n : Z) : Go unit :=
  if n <? 0 then panic GrowNegativeCount
  else
    let* m := Buffer_grow rt p (Z.to_nat n) in
    let* '(r, b) := deref p in
    store_buffer r (mkBuffer (buf_arr b) m).

(** A Go string as the bytes it holds. *)
Definition bytes_of (str : string) : list byte := list_byte_of_string str.

(** [WriteString(s)]. *)
Definition Buffer_WriteString (rt : Runtime) (p : BufPtr) (str : string) : Go unit :=
  let data := bytes_of str in
  let* '(m, ok) := Buffer_tryGrowByReslice p (length data) in
  let* m := (if ok : bool then ret m else Buffer_grow rt p (length data)) in
  let* '(_, b) := deref p in
  copy_into (buf_arr b) m data.

(** [Write(p)] of a byte slice already read out of the store. *)
Definition Buffer_Write (rt : Runtime) (p : BufPtr) (data : list byte) : Go unit :=
  let* '(m, ok) := Buffer_tryGrowByReslice p (length data) in
  let* m := (if ok : bool then ret m else Buffer_grow rt p (length data)) in
  let* '(_, b) := deref p in
  copy_into (buf_arr b) m data.

(** What a slice reads as in a state. *)
Definition read_slice (s : State) (sl : Slice) : list byte :=
  match s_arr sl with
  | None => []
  | Some i => take (s_len sl) (drop (s_off sl) (default [] (arrays s !! i)))
  end.

(** An [io.Writer]: [None] is the nil interface value; the writers of the
    model keep every byte they are given. *)
Definition Writer := option nat.

Definition Writer_Write (w : nat) (data : list byte) : Go unit :=
  fun s => Ok tt (set_writers (fun ws => match ws !! w with
                                         | Some old => <[w := old ++ data]> ws
                                         | None => ws
                                         end) s).

(** [WriteTo(w)]: hand the unread bytes to [w], then [Reset]. *)
Definition Buffer_WriteTo (p : BufPtr) (w : nat) : Go unit :=
  let* '(_, b) := deref p in
  (if (0 <? buf_len b)%nat then
     let* sl := Buffer_Bytes p in
     let* s := get_state in
     Writer_Write w (read_slice s sl)
   else ret tt) ;;;
  Buffer_Reset p.

(** ** sync.Pool (Go standard library) *)

Inductive Tier : Type := Small | Large.

Definition tier_pool (t : Tier) (s : State) : SyncPool :=
  match t with Small => smallPool s | Large => largePool s end.

Definition set_tier_pool (t : Tier) (f : SyncPool -> SyncPool) : State -> State :=
  match t with Small => set_smallPool f | Large => set_largePool f end.

(** [p.Get()]: "selects an arbitrary item from the Pool, removes it and
    returns it; Get may choose to ignore the pool and treat it as empty";
    which item, if any, is the choice [pick].  With nothing selected the
    pool calls its [New], here [&bytes.Buffer{}], so the result is never
    nil for the two pools of the package. *)
Definition SyncPool_Get (t : Tier) (pick : option nat) : Go BufPtr :=
  fun s =>
    match pick ≫= (fun i => (fun r => (i, r)) <$> idle (tier_pool t s) !! i) with
    | Some (i, r) =>
        Ok (Some r) (set_tier_pool t (fun p => mkSyncPool (delete i (idle p))) s)
    | None => new_buffer (mkBuffer None 0) s
    end.

(** [p.Put(x)]. *)
Definition SyncPool_Put (t : Tier) (r : nat) : Go unit :=
  fun s => Ok tt (set_tier_pool t (fun p => mkSyncPool (r :: idle p)) s).

(** ** package pool (pool/pool.go) *)

Module pool.

Definition Enable : Go unit := fun s => Ok tt (set_enabled true s).
Definition Disable : Go unit := fun s => Ok tt (set_enabled false s).
Definition Enabled : Go bool := fun s => Ok (enabled s) s.

Definition SetPoolThreshold (size : Z) : Go unit :=
  fun s => Ok tt (set_poolThreshold size s).
Definition SetMaxPoolSize (size : Z) (discard : bool) : Go unit :=
  fun s => Ok tt (set_maxPoolSize size discard s).
Definition PoolThreshold : Go Z := fun s => Ok (poolThreshold s) s.
Definition MaxPoolSize : Go Z := fun s => Ok (maxPoolSize s) s.
Definition DiscardOversized : Go bool := fun s => Ok (discardOversized s) s.

(** [func Get(hint int) *bytes.Buffer]. *)
Definition Get (rt : Runtime) (pick : option nat) (hint : Z) : Go BufPtr :=
  let* en := Enabled in
  if negb en then
    let* a := make hint in bytes_NewBuffer a
  else
    let* th := PoolThreshold in
    let* pooled := (if hint <? th then SyncPool_Get Small pick
                    else SyncPool_Get Large pick) in
    match pooled with
    | Some _ =>
        Buffer_Reset pooled ;;;
        (if 0 <? hint then Buffer_Grow rt pooled hint else ret tt) ;;;
        ret pooled
    | None =>
        let* a := make hint in bytes_NewBuffer a
    end.

(** [func Put(buf *bytes.Buffer)]; [!Enabled() || buf == nil] is evaluated
    from the left, and either disjunct returns at once. *)
Definition Put (buf : BufPtr) : Go unit :=
  let* en := Enabled in
  match buf with
  | None => ret tt
  | Some r =>
      if negb en then ret tt
      else
        let* cap := Buffer_Cap buf in
        let* mx := MaxPoolSize in
        let* discard := DiscardOversized in
        if (mx <? cap) && discard then ret tt
        else
          Buffer_Reset buf ;;;
          let* th := PoolThreshold in
          if cap <? th then SyncPool_Put Small r
          else SyncPool_Put Large r
  end.

End pool.

(** ** package fluent (fluent.go) *)

(** [func NewBuffer(hint ...int) *bytes.Buffer]. *)
Definition NewBuffer (rt : Runtime) (pick : option nat) (hint : list Z) : Go BufPtr :=
  let h := match hint with
           | [] => 0
           | h0 :: _ => h0
           end in
  pool.Get rt pick h.

(** [func PutBuffer(buf *bytes.Buffer)]. *)
Definition PutBuffer (buf : BufPtr) : Go unit := pool.Put buf.

(** ** Nodes *)

(** [reflect.Kind]. *)
Inductive Kind : Type :=
| Invalid | KBool | KInt | KInt8 | KInt16 | KInt32 | KInt64
| KUint | KUint8 | KUint16 | KUint32 | KUint64 | KUintptr
| KFloat32 | KFloat64 | KComplex64 | KComplex128
| KArray | KChan | KFunc | KInterface | KMap | KPointer | KSlice
| KString | KStruct | KUnsafePointer.

(** The kinds on which [reflect.Value.IsNil] does not panic. *)
Definition nilable (k : Kind) : bool :=
  match k with
  | KChan | KFunc | KMap | KPointer | KUnsafePointer | KInterface | KSlice => true
  | _ => false
  end.

(** A value of the interface type [node.Node].
    - [Nil] is the nil interface value.
    - [TypedNil] is a non-nil interface value that holds a nil pointer to one
      of the node types of the repository, such as a nil [*text.TextNode].
    - [TextNodeV], [ConditionalBuilderV], [FunctionComponentV] and
      [FunctionsComponentV] hold a non-nil pointer to the struct of that name,
      given by its fields; a nil [fn] is [None].
    - [Foreign k out] is a non-nil value of a type declared outside these
      packages (the element types, a caller's own component) whose dynamic
      type has kind [k] and whose [RenderBuilder] writes [out]. *)
#[local] Unset Elimination Schemes.
Inductive Node : Type :=
| Nil
| TypedNil
| TextNodeV (content : string) (dynamic : bool)
| ConditionalBuilderV (condition : bool) (trueNode falseNode : Node)
| FunctionComponentV (fn : option (unit -> Node))
| FunctionsComponentV (fn : option (unit -> list Node))
| Foreign (k : Kind) (out : string).
#[local] Set Elimination Schemes.

(** [node != nil] on an interface value. *)
Definition is_nil (n : Node) : bool :=
  match n with Nil => true | _ => false end.

(** [reflect.ValueOf(node).Kind()]. *)
Definition kind_of (n : Node) : Kind :=
  match n with
  | Nil => Invalid
  | Foreign k _ => k
  | _ => KPointer
  end.

(** [reflect.ValueOf(node).IsNil()]. *)
Definition reflect_IsNil {S} (n : Node) : M S bool :=
  if nilable (kind_of n) then
    ret (match n with TypedNil => true | _ => false end)
  else panic IsNilOnNonNilableKind.

(** *** package text: the constructors of TextNode *)

(** [html.EscapeString]: ampersand, apostrophe, less-than, greater-than and
    the double quote (character 34) are replaced by their entities. *)
Fixpoint html_EscapeString (str : string) : string :=
  match str with
  | EmptyString => EmptyString
  | String c rest =>
      let tail := html_EscapeString rest in
      if Ascii.eqb c "&" then "&amp;" ++ tail
      else if Ascii.eqb c "'" then "&#39;" ++ tail
      else if Ascii.eqb c "<" then "&lt;" ++ tail
      else if Ascii.eqb c ">" then "&gt;" ++ tail
      else if Ascii.eqb c (ascii_of_nat 34) then "&#34;" ++ tail
      else String c tail
  end%string.

Module text.
Definition Static (str : string) : Node := TextNodeV str false.
Definition Text (str : string) : Node := TextNodeV (html_EscapeString str) true.
Definition RawText (str : string) : Node := TextNodeV str true.
End text.

(** *** package node: ConditionalBuilder (node/conditional.go) *)

Record ConditionalBuilder : Type := mkConditionalBuilder {
  condition : bool;
  trueNode : Node;
  falseNode : Node
}.

(** The interface value that holds a pointer to the builder. *)
Definition as_node (c : ConditionalBuilder) : Node :=
  ConditionalBuilderV (condition c) (trueNode c) (falseNode c).

Module node.

Definition Condition (condition : bool) : ConditionalBuilder :=
  mkConditionalBuilder condition Nil Nil.

(** [func (c *ConditionalBuilder) True(node Node) *ConditionalBuilder];
    the builder returned is the receiver after the call. *)
Definition True (c : ConditionalBuilder) (node : Node) : Go ConditionalBuilder :=
  if negb (is_nil node) then
    let* isnil := reflect_IsNil node in
    if negb isnil then ret (mkConditionalBuilder (condition c) node (falseNode c))
    else ret c
  else ret c.

(** [func (c *ConditionalBuilder) False(node Node) *ConditionalBuilder]. *)
Definition False (c : ConditionalBuilder) (node : Node) : Go ConditionalBuilder :=
  if negb (is_nil node) then
    let* isnil := reflect_IsNil node in
    if negb isnil then ret (mkConditionalBuilder (condition c) (trueNode c) node)
    else ret c
  else ret c.

Definition When (condition : bool) (node : Node) : Go ConditionalBuilder :=
  node.True (Condition condition) node.

Definition Unless (condition : bool) (node : Node) : Go ConditionalBuilder :=
  node.True (Condition (negb condition)) node.

(** [func (c *ConditionalBuilder) Nodes() []Node]. *)
Definition Nodes (c : ConditionalBuilder) : list Node :=
  let children := [] in
  let children := if negb (is_nil (trueNode c)) then children ++ [trueNode c]
                  else children in
  let children := if negb (is_nil (falseNode c)) then children ++ [falseNode c]
                  else children in
  children.

(** [Func] and [FuncNodes] (node/function.go and the FunctionsComponent
    file). *)
Definition Func (fn : option (unit -> Node)) : Node := FunctionComponentV fn.
Definition FuncNodes (fn : option (unit -> list Node)) : Node := FunctionsComponentV fn.

End node.

(** *** RenderBuilder, for every node type

    [TextNode.RenderBuilder], [ConditionalBuilder.RenderBuilder],
    [FunctionComponent.RenderBuilder] and [FunctionsComponent.RenderBuilder],
    dispatched on the dynamic type of the interface value. *)
Fixpoint RenderBuilder (rt : Runtime) (n : Node) (buf : BufPtr) {struct n} : Go unit :=
  match n with
  | Nil => panic NilInterfaceCall
  | TypedNil => panic NilDereference
  | TextNodeV content _ => Buffer_WriteString rt buf content
  | ConditionalBuilderV c t f =>
      if c && negb (is_nil t) then RenderBuilder rt t buf
      else if negb c && negb (is_nil f) then RenderBuilder rt f buf
      else ret tt
  | FunctionComponentV fn =>
      match fn with
      | Some fn =>
          let node := fn tt in
          if negb (is_nil node) then RenderBuilder rt node buf else ret tt
      | None => ret tt
      end
  | FunctionsComponentV fn =>
      match fn with
      | Some fn =>
          let nodes := fn tt in
          (fix range (nodes : list Node) : Go unit :=
             match nodes with
             | [] => ret tt
             | node :: rest =>
                 (if negb (is_nil node) then RenderBuilder rt node buf else ret tt) ;;;
                 range rest
             end) nodes
      | None => ret tt
      end
  | Foreign _ out => Buffer_WriteString rt buf out
  end.

Definition nil_slice : Slice := mkSlice None 0 0.

(** [Render(w ...io.Writer) []byte]: the same body in [TextNode],
    [ConditionalBuilder], [FunctionComponent] and [FunctionsComponent]. *)
Definition Render (rt : Runtime) (n : Node) (pick : option nat) (w : list Writer) : Go Slice :=
  match n with
  | Nil => panic NilInterfaceCall
  | _ =>
      let* buf := NewBuffer rt pick [] in
      RenderBuilder rt n buf ;;;
      match w with
      | Some w0 :: _ =>
          Buffer_WriteTo buf w0 ;;;
          PutBuffer buf ;;;
          ret nil_slice
      | _ => Buffer_Bytes buf
      end
  end.

(** ** What a pure node writes

    The strings a node hands to [WriteString], in order; [None] when the
    walk panics (a typed nil pointer is dereferenced). *)
Fixpoint chunks (n : Node) : option (list string) :=
  match n with
  | Nil => None
  | TypedNil => None
  | TextNodeV content _ => Some [content]
  | ConditionalBuilderV c t f =>
      if c && negb (is_nil t) then chunks t
      else if negb c && negb (is_nil f) then chunks f
      else Some []
  | FunctionComponentV fn =>
      match fn with
      | Some fn => if negb (is_nil (fn tt)) then chunks (fn tt) else Some []
      | None => Some []
      end
  | FunctionsComponentV fn =>
      match fn with
      | Some fn =>
          (fix range (nodes : list Node) : option (list string) :=
             match nodes with
             | [] => Some []
             | node :: rest =>
                 match (if negb (is_nil node) then chunks node else Some []), range rest with
                 | Some a, Some b => Some (a ++ b)
                 | _, _ => None
                 end
             end) (fn tt)
      | None => Some []
      end
  | Foreign _ out => Some [out]
  end.

(** The bytes of the rendering. *)
Definition rendering (ws : list string) : list byte :=
  concat (map bytes_of ws).

Fixpoint WriteStrings (rt : Runtime) (buf : BufPtr) (ws : list string) : Go unit :=
  match ws with
  | [] => ret tt
  | w :: rest => Buffer_WriteString rt buf w ;;; WriteStrings rt buf rest
  end.

(** ** Invariants of the store *)

(** The cells under a slice header, [[]] for the nil slice. *)
Definition cells_of (s : State) (a : option nat) : list byte :=
  match a with
  | None => []
  | Some i => default [] (arrays s !! i)
  end.

(** [len(buf) <= cap(buf)] and the array exists. *)
Definition buffer_ok (s : State) (b : Buffer) : Prop :=
  (buf_len b <= length (cells_of s (buf_arr b)))%nat /\
  match buf_arr b with
  | None => Logic.True
  | Some a => (a < length (arrays s))%nat
  end.

(** Every buffer is well formed and no array lies under two buffers. *)
Definition heap_ok (s : State) : Prop :=
  (forall r b, buffers s !! r = Some b -> buffer_ok s b) /\
  (forall r1 r2 b1 b2 a,
      buffers s !! r1 = Some b1 -> buffers s !! r2 = Some b2 ->
      buf_arr b1 = Some a -> buf_arr b2 = Some a -> r1 = r2).

(** The registries hold pointers to buffers, each at most once. *)
Definition pool_ok (s : State) : Prop :=
  (forall r, r ∈ idle (smallPool s) ++ idle (largePool s) ->
             (r < length (buffers s))%nat) /\
  NoDup (idle (smallPool s) ++ idle (largePool s)).

Definition wf (s : State) : Prop := heap_ok s /\ pool_ok s.

(** The bytes a buffer holds, and its capacity. *)
Definition contents (s : State) (r : nat) : list byte :=
  match buffers s !! r with
  | Some b => take (buf_len b) (cells_of s (buf_arr b))
  | None => []
  end.

Definition capacity (s : State) (r : nat) : nat :=
  match buffers s !! r with
  | Some b => length (cells_of s (buf_arr b))
  | None => 0
  end.

Definition length_of (s : State) (r : nat) : nat :=
  match buffers s !! r with
  | Some b => buf_len b
  | None => 0
  end.

(** Everything but the arrays and the buffers. *)
Definition rest_of (s : State) :=
  (writers s, poolThreshold s, maxPoolSize s, discardOversized s, enabled s,
   smallPool s, largePool s).

(** [mutates r s s']: from [s] to [s'] only buffer [r] was written to. *)
Record mutates (r : nat) (s s' : State) : Prop := mkMutates {
  mut_rest : rest_of s' = rest_of s;
  mut_buffers : length (buffers s') = length (buffers s);
  mut_others : forall r', r' <> r -> buffers s' !! r' = buffers s !! r';
  mut_arrays : (length (arrays s) <= length (arrays s'))%nat;
  mut_sizes : forall a cells, arrays s !! a = Some cells ->
      exists cells', arrays s' !! a = Some cells' /\ length cells' = length cells;
  mut_frame : forall a, (a < length (arrays s))%nat ->
      (forall b, buffers s !! r = Some b -> buf_arr b <> Some a) ->
      arrays s' !! a = arrays s !! a;
  mut_arr : forall b b', buffers s !! r = Some b -> buffers s' !! r = Some b' ->
      buf_arr b' = buf_arr b \/
      exists a', buf_arr b' = Some a' /\ (length (arrays s) <= a')%nat
}.

(** Structural induction on nodes, through the callbacks and their lists. *)
Section Node_induction.
Variable P : Node -> Prop.
Hypothesis HNil : P Nil.
Hypothesis HTypedNil : P TypedNil.
Hypothesis HText : forall content dynamic, P (TextNodeV content dynamic).
Hypothesis HCond : forall c t f, P t -> P f -> P (ConditionalBuilderV c t f).
Hypothesis HFuncNone : P (FunctionComponentV None).
Hypothesis HFunc : forall fn, (forall u, P (fn u)) -> P (FunctionComponentV (Some fn)).
Hypothesis HFuncsNone : P (FunctionsComponentV None).
Hypothesis HFuncs : forall fn, (forall u, Forall P (fn u)) ->
                               P (FunctionsComponentV (Some fn)).
Hypothesis HForeign : forall k out, P (Foreign k out).

Fixpoint Node_ind (n : Node) : P n :=
  match n with
  | Nil => HNil
  | TypedNil => HTypedNil
  | TextNodeV content dynamic => HText content dynamic
  | ConditionalBuilderV c t f => HCond c t f (Node_ind t) (Node_ind f)
  | FunctionComponentV None => HFuncNone
  | FunctionComponentV (Some fn) => HFunc fn (fun u => Node_ind (fn u))
  | FunctionsComponentV None => HFuncsNone
  | FunctionsComponentV (Some fn) =>
      HFuncs fn (fun u =>
                   (fix all (l : list Node) : Forall P l :=
                      match l with
                      | [] => List.Forall_nil P
                      | x :: l' => List.Forall_cons P x l' (Node_ind x) (all l')
                      end) (fn u))
  | Foreign k out => HForeign k out
  end.
End Node_induction.

(** A tree built from ConditionalBuilder and TextNode alone: no callback,
    and branches as [True] and [False] store them. *)
Fixpoint static_tree (n : Node) : bool :=
  match n with
  | TextNodeV _ _ => true
  | ConditionalBuilderV _ t f =>
      (is_nil t || static_tree t) && (is_nil f || static_tree f)
  | _ => false
  end.

(** *** Sequences of builder calls *)

Inductive Call : Type :=
| CallTrue (node : Node)
| CallFalse (node : Node).

Definition call_arg (c : Call) : Node :=
  match c with CallTrue n => n | CallFalse n => n end.

Definition is_true_call (c : Call) : bool :=
  match c with CallTrue _ => true | CallFalse _ => false end.

(** [c.True(n1).False(n2)...], in the order of the list. *)
Fixpoint apply_calls (c : ConditionalBuilder) (calls : list Call) : Go ConditionalBuilder :=
  match calls with
  | [] => ret c
  | CallTrue n :: rest => let* c' := node.True c n in apply_calls c' rest
  | CallFalse n :: rest => let* c' := node.False c n in apply_calls c' rest
  end.

(** An argument that a builder call keeps: neither nil nor a typed nil. *)
Definition present (n : Node) : bool :=
  match n with Nil | TypedNil => false | _ => true end.

(** Following the words of the specification ("non-absent branches, in
    insertion order"): the branches in the order in which the calls that set
    them were made; a later call for the same branch takes the place of the
    earlier one at the end of the order. *)
Fixpoint branches_in_call_order_from (acc : list Call) (calls : list Call) : list Call :=
  match calls with
  | [] => acc
  | c :: rest =>
      if present (call_arg c) then
        branches_in_call_order_from
          (filter (fun c' => is_true_call c' <> is_true_call c) acc ++ [c]) rest
      else branches_in_call_order_from acc rest
  end.

Definition branches_in_call_order (calls : list Call) : list Node :=
  map call_arg (branches_in_call_order_from [] calls).

(** The same branches, the true branch before the false branch. *)
Definition branches_true_first (calls : list Call) : list Node :=
  let bs := branches_in_call_order_from [] calls in
  map call_arg (filter (fun c => is_true_call c = true) bs)
  ++ map call_arg (filter (fun c => is_true_call c = false) bs).

(** A call of [True] or [False] that returns. *)
Definition call_total (c : Call) : Prop :=
  is_nil (call_arg c) = true \/ nilable (kind_of (call_arg c)) = true.

Definition singleton_if (n : Node) : list Node :=
  if is_nil n then [] else [n].

(** The builder [c] holds the branches listed in [acc]. *)
Definition holds (c : ConditionalBuilder) (acc : list Call) : Prop :=
  map call_arg (filter (fun c => is_true_call c = true) acc) = singleton_if (trueNode c) /\
  map call_arg (filter (fun c => is_true_call c = false) acc) = singleton_if (falseNode c).

(** The two ways [grow] makes room in buffer [r]: re-slicing its array, or
    moving to a fresh array [cells']. *)
Definition reslice_state (r : nat) (b : Buffer) (n : nat) (s : State) : State :=
  set_buffers (fun bs => <[r := mkBuffer (buf_arr b) (buf_len b + n)]> bs) s.

Definition realloc_state (r : nat) (b : Buffer) (n : nat) (cells' : list byte)
    (s : State) : State :=
  set_buffers (fun bs => <[r := mkBuffer (Some (length (arrays s))) (buf_len b + n)]> bs)
              (set_arrays (fun a => a ++ [cells']) s).

(** The array [growSlice] returns. *)
Definition grown_cells (rt : Runtime) (b : Buffer) (cells : list byte) (n : nat) : list byte :=
  let l := buf_len b in
  let c := (l + n)%nat in
  let c := if (c <? 2 * length cells)%nat then (2 * length cells)%nat else c in
  take l cells ++ drop l (zero_cells (roundupsize rt c)).

(** The cells of an array after [copy(arr[m:], data)]. *)
Definition written_cells (m : nat) (data cells : list byte) : list byte :=
  take m cells ++ data ++ drop (m + length data) cells.

(** [written r data s s']: from [s] to [s'] the bytes [data] were appended
    to buffer [r], and nothing else happened. *)
Record written (r : nat) (data : list byte) (s s' : State) : Prop := mkWritten {
  wr_mutates : mutates r s s';
  wr_contents : contents s' r = contents s r ++ data;
  wr_ok : forall b', buffers s' !! r = Some b' -> buffer_ok s' b';
  wr_capacity : (capacity s r <= capacity s' r)%nat
}.

(** The configuration of the pool package, and the writers. *)
Definition settings (s : State) :=
  (writers s, poolThreshold s, maxPoolSize s, discardOversized s, enabled s).

(** The buffers that sit idle in either registry. *)
Definition pooled (s : State) : list nat :=
  idle (smallPool s) ++ idle (largePool s).

(** No cell of an array that exists in [s] differs in [s']. *)
Definition keeps_arrays (s s' : State) : Prop :=
  forall a cells, arrays s !! a = Some cells -> arrays s' !! a = Some cells.

(** [acquires r s s']: from [s] to [s'] buffer [r] left the pool, or was
    allocated, and is now held by the caller alone. *)
Record acquires (r : nat) (s s' : State) : Prop := mkAcquires {
  acq_settings : settings s' = settings s;
  acq_arrays : keeps_arrays s s';
  acq_others : forall r', r' <> r -> (r' < length (buffers s))%nat ->
                          buffers s' !! r' = buffers s !! r';
  acq_origin : r = length (buffers s) \/ r ∈ pooled s;
  acq_pools : forall x, x ∈ pooled s' -> x ∈ pooled s /\ x <> r;
  acq_wf : wf s';
  acq_valid : (r < length (buffers s'))%nat
}.

(** [routed_to t r s s']: from [s] to [s'] buffer [r] went into the registry
    of tier [t], and the other registry was left as it was. *)
Definition other_tier (t : Tier) : Tier :=
  match t with Small => Large | Large => Small end.

Definition routed_to (t : Tier) (r : nat) (s s' : State) : Prop :=
  idle (tier_pool t s') = r :: idle (tier_pool t s) /\
  idle (tier_pool (other_tier t) s') = idle (tier_pool (other_tier t) s).

(** [Render] was called with no writer: [len(w) > 0 && w[0] != nil] fails. *)
Definition no_writer (w : list Writer) : bool :=
  match w with
  | Some _ :: _ => false
  | _ => true
  end.

(** The registry that [Put] chooses for a buffer, and the buffers it keeps. *)
Definition tier_of_capacity (s : State) (r : nat) : Tier :=
  if Z.of_nat (capacity s r) <? poolThreshold s then Small else Large.

Definition not_oversized (s : State) (r : nat) : Prop :=
  Z.of_nat (capacity s r) <= maxPoolSize s \/ discardOversized s = false.

(** [pool.SetMaxPoolSize(8, false)], then
    [pool.Put(bytes.NewBuffer(make([]byte, 0, 16)))]. *)
Definition release_oversized_without_discard : Go BufPtr :=
  pool.SetMaxPoolSize 8 false ;;;
  let* a := make 16 in
  let* buf := bytes_NewBuffer a in
  pool.Put buf ;;;
  ret buf.

(** [pool.Disable()], then [pool.Get(-1)]. *)
Definition acquire_negative_when_disabled (rt : Runtime) : Go BufPtr :=
  pool.Disable ;;; pool.Get rt None (-1).

(** A state with one buffer of capacity 16 in use, threshold 8 and maximum
    pooled size 64. *)
Definition one_buffer_state : State :=
  mkState [zero_cells 16] [mkBuffer (Some 0%nat) 0] [] 8 64 true true
          (mkSyncPool []) (mkSyncPool []).

(** The tree of the end-to-end example: a conditional with both branches set,
    and a list callback whose second result is nil. *)
Definition example_calls : list Call :=
  [CallTrue (text.Text "A"); CallFalse (text.Text "B")].

Definition example_list : Node :=
  node.FuncNodes (Some (fun _ => [text.Text "1"; Nil; text.Text "2"])).

(** Reset buffer [r] and write [str] into it. *)
Definition reuse_buffer (rt : Runtime) (r : nat) (str : string) : Go unit :=
  Buffer_Reset (Some r) ;;; Buffer_WriteString rt (Some r) str.

(** The registry that [Get] draws from for a hint. *)
Definition tier_of_hint (s : State) (hint : Z) : Tier :=
  if hint <? poolThreshold s then Small else Large.

(** The hints that the runtime can serve in a state.  [Get(hint)] allocates
    through [make([]byte, 0, hint)], which wants [hint <= maxAlloc], or
    through [Grow(hint)] on an empty buffer of some capacity [c], whose
    [grow] panics with [ErrTooLarge] when [c > maxInt - c - hint] and whose
    [growSlice] asks for [max hint (2 * c)] bytes and panics with
    [ErrTooLarge] beyond [maxAlloc].  With the hint and twice the size of
    every array within [maxAlloc], and [2 * maxAlloc <= maxInt], none of the
    three is reached. *)
Definition within_limit (s : State) (hint : Z) : Prop :=
  hint <= maxAlloc /\
  Forall (fun cells => 2 * Z.of_nat (length cells) <= maxAlloc) (arrays s).

(** The two checks at which the real [Grow(n)] gives up on a buffer that
    [Reset] has emptied and whose capacity is [c], when [n] does not fit the
    capacity: [grow] panics with [ErrTooLarge] on [c > maxInt - c - n], and
    [growSlice] does when its [make([]byte, max n (2 * c))] is out of
    range. *)
Definition Grow_too_large (c n : Z) : bool :=
  negb (n <=? c) && ((maxInt - c - n <? c) || (maxAlloc <? Z.max n (2 * c))).


(** The state after [Put] has kept buffer [r]: reset, and at the head of the
    registry for its capacity. *)
Definition pooled_state (r : nat) (b : Buffer) (s : State) : State :=
  set_tier_pool (tier_of_capacity s r) (fun p => mkSyncPool (r :: idle p))
                (set_buffers (fun bs => <[r := mkBuffer (buf_arr b) 0]> bs) s).

(** The pool package's own part of the state. *)
Definition pool_part (s : State) :=
  (poolThreshold s, maxPoolSize s, discardOversized s, enabled s,
   smallPool s, largePool s).

(** [one_buffer_state] with one writer, which has received "<p>" so far. *)
Definition writer_state : State :=
  set_writers (fun _ => [bytes_of "<p>"]) one_buffer_state.

(** The last argument, among the calls of [True] ([tag = true]) or of
    [False] ([tag = false]), that is neither nil nor a typed nil; [init] when
    there is none. *)
Definition last_present (tag : bool) (calls : list Call) (init : Node) : Node :=
  fold_left (fun acc c =>
               if Bool.eqb (is_true_call c) tag && present (call_arg c)
               then call_arg c else acc)
            calls init.

(** The characters [html.EscapeString] replaces, and those among them that
    open or close markup or an attribute value. *)
Definition is_special (c : ascii) : bool :=
  Ascii.eqb c "&" || Ascii.eqb c "'" || Ascii.eqb c "<" || Ascii.eqb c ">"
  || Ascii.eqb c (ascii_of_nat 34).

Definition is_markup (c : ascii) : bool :=
  Ascii.eqb c "'" || Ascii.eqb c "<" || Ascii.eqb c ">"
  || Ascii.eqb c (ascii_of_nat 34).

Fixpoint string_forallb (p : ascii -> bool) (str : string) : bool :=
  match str with
  | EmptyString => true
  | String c rest => p c && string_forallb p rest
  end.

(** ** package security (security/security.go)

    The compiled regular expression [pattern] enters only through
    [pattern.Match] and [pattern.MatchString]; it is taken as the predicate
    on byte sequences that those two compute, and the expression itself is
    not modelled. *)

Definition Regexp : Type := list byte -> bool.

(** [SanitiseBuilder]; a nil [err] is [None], and [Error()] of an error is
    its message. *)
Record SanitiseBuilder : Type := mkSanitiseBuilder {
  component : Node;
  err : option string;
  content : Slice
}.

(** [w.Write(p)] on an interface value: the nil interface panics. *)
Definition Writer_call (w : Writer) (p : Slice) : Go unit :=
  match w with
  | None => panic NilInterfaceCall
  | Some i => let* s := get_state in Writer_Write i (read_slice s p)
  end.

(** The literal [[]byte{}]: a slice that is not nil and has no cells; the
    model gives it an array of its own with no cells. *)
Definition empty_bytes : Go Slice :=
  let* a := new_array [] in ret (mkSlice (Some a) 0 0).

Module security.

Definition error_nil : string := "component is nil".
Definition error_pattern : string := "content contains disallowed pattern".

(** [func Sanitise(comp node.Node) *SanitiseBuilder]. *)
Definition Sanitise (pattern : Regexp) (rt : Runtime) (pick : option nat)
    (comp : Node) : Go SanitiseBuilder :=
  if is_nil comp then ret (mkSanitiseBuilder comp (Some error_nil) nil_slice)
  else
    let* content := Render rt comp pick [] in
    let* s := get_state in
    if pattern (read_slice s content)
    then ret (mkSanitiseBuilder comp (Some error_pattern) content)
    else ret (mkSanitiseBuilder comp None content).

(** [func (sb *SanitiseBuilder) Error() node.Node]. *)
Definition Error (sb : SanitiseBuilder) : Node :=
  match err sb with
  | Some e => text.Text ("Validation Error: " ++ e)
  | None => component sb
  end.

(** [func (sb *SanitiseBuilder) Render(w ...io.Writer) []byte]. *)
Definition Render (sb : SanitiseBuilder) (w : list Writer) : Go Slice :=
  match err sb with
  | Some _ =>
      match w with
      | _ :: _ => ret nil_slice
      | [] => empty_bytes
      end
  | None =>
      match w with
      | w0 :: _ => Writer_call w0 (content sb) ;;; ret nil_slice
      | [] => ret (content sb)
      end
  end.

(** [func (sb *SanitiseBuilder) RenderBuilder(buf *bytes.Buffer)]. *)
Definition RenderBuilder (rt : Runtime) (sb : SanitiseBuilder) (buf : BufPtr) : Go unit :=
  match err sb with
  | Some _ => ret tt
  | None => let* s := get_state in Buffer_Write rt buf (read_slice s (content sb))
  end.

(** [func Validate(content string) error]. *)
Definition Validate (pattern : Regexp) (content : string) : option string :=
  if pattern (bytes_of content) then Some error_pattern else None.

(** [func Safe(content string) node.Node]. *)
Definition Safe (pattern : Regexp) (content : string) : Node :=
  match Validate pattern content with
  | Some e => text.Text ("Validation Error: " ++ e)
  | None => text.RawText content
  end.

(** [func SafeScript(js string) node.Node]. *)
Definition SafeScript (pattern : Regexp) (js : string) : Node :=
  match Validate pattern js with
  | Some e => text.Text ("<!-- Validation Error: " ++ e ++ " -->")
  | None => text.RawText ("<script>" ++ js ++ "</script>")
  end.

(** [func SafeStyle(css string) node.Node]. *)
Definition SafeStyle (pattern : Regexp) (css : string) : Node :=
  match Validate pattern css with
  | Some e => text.Text ("<!-- Validation Error: " ++ e ++ " -->")
  | None => text.RawText ("<style>" ++ css ++ "</style>")
  end.

End security.

(** A state whose small registry holds one idle buffer of capacity 16, with
    one writer that has received "<p>" so far. *)
Definition pooled_buffer_state : State :=
  mkState [zero_cells 16] [mkBuffer (Some 0%nat) 0] [bytes_of "<p>"] 64 256 true true
          (mkSyncPool [0%nat]) (mkSyncPool []).

(** * Properties *)

(** ** The reflection-based nil check of True and False *)

Lemma reflect_IsNil_nilable (n : Node) (s : State) :
  nilable (kind_of n) = true ->
  reflect_IsNil n s = Ok (negb (present n) && negb (is_nil n)) s.
Proof.
  intros Hk. unfold reflect_IsNil. rewrite Hk.
  destruct n; reflexivity.
Qed.

Lemma reflect_IsNil_panics (n : Node) (s : State) :
  nilable (kind_of n) = false ->
  reflect_IsNil n s = Panic IsNilOnNonNilableKind.
Proof. intros Hk. unfold reflect_IsNil. now rewrite Hk. Qed.

Lemma True_stores (c : ConditionalBuilder) (n : Node) (s : State) :
  is_nil n = true \/ nilable (kind_of n) = true ->
  node.True c n s =
    Ok (if present n then mkConditionalBuilder (condition c) n (falseNode c) else c) s.
Proof.
  intros [Hn | Hk]; unfold node.True.
  - rewrite Hn. destruct n; try discriminate Hn. reflexivity.
  - destruct (is_nil n) eqn:En; simpl.
    + destruct n; try discriminate En. reflexivity.
    + unfold bind. rewrite (reflect_IsNil_nilable n s Hk), En.
      destruct n; reflexivity.
Qed.

Lemma False_stores (c : ConditionalBuilder) (n : Node) (s : State) :
  is_nil n = true \/ nilable (kind_of n) = true ->
  node.False c n s =
    Ok (if present n then mkConditionalBuilder (condition c) (trueNode c) n else c) s.
Proof.
  intros [Hn | Hk]; unfold node.False.
  - rewrite Hn. destruct n; try discriminate Hn. reflexivity.
  - destruct (is_nil n) eqn:En; simpl.
    + destruct n; try discriminate En. reflexivity.
    + unfold bind. rewrite (reflect_IsNil_nilable n s Hk), En.
      destruct n; reflexivity.
Qed.

(** C10.  [True] and [False] return exactly for the nil interface value and
    for arguments whose dynamic type has a kind that can be nil; on every
    non-nil argument of any other kind, a struct value for one, the call of
    [reflect.ValueOf(node).IsNil()] panics and nothing is stored. *)
Theorem True_False_panic_on_non_nilable_kind
    (c : ConditionalBuilder) (n : Node) (s : State) :
  (is_nil n = false -> nilable (kind_of n) = false ->
     node.True c n s = Panic IsNilOnNonNilableKind /\
     node.False c n s = Panic IsNilOnNonNilableKind) /\
  (is_nil n = true \/ nilable (kind_of n) = true ->
     exists c1 c2, node.True c n s = Ok c1 s /\ node.False c n s = Ok c2 s).
Proof.
  split.
  - intros Hn Hk. unfold node.True, node.False, bind. rewrite Hn. simpl.
    now rewrite (reflect_IsNil_panics n s Hk).
  - intros H. eexists _, _. split.
    + apply True_stores, H.
    + apply False_stores, H.
Qed.

Lemma True_False_panic_on_struct_value :
  node.True (node.Condition true) (Foreign KStruct "<hr>") init_state
    = Panic IsNilOnNonNilableKind /\
  node.False (node.Condition true) (Foreign KStruct "<hr>") init_state
    = Panic IsNilOnNonNilableKind.
Proof.
  apply (proj1 (True_False_panic_on_non_nilable_kind
                  (node.Condition true) (Foreign KStruct "<hr>") init_state));
    reflexivity.
Defined.

(** ** The children of a ConditionalBuilder *)

Lemma Nodes_singletons (c : ConditionalBuilder) :
  node.Nodes c = singleton_if (trueNode c) ++ singleton_if (falseNode c).
Proof.
  unfold node.Nodes, singleton_if.
  destruct (is_nil (trueNode c)), (is_nil (falseNode c)); reflexivity.
Qed.

Lemma filter_tag_other (b : bool) (l : list Call) :
  filter (fun c => is_true_call c = b)
         (filter (fun c => is_true_call c <> b) l) = [].
Proof.
  induction l as [|x l IH]; [reflexivity|].
  rewrite (filter_cons (fun c => is_true_call c <> b)).
  destruct (decide (is_true_call x <> b)) as [Hne|_]; [|exact IH].
  rewrite filter_cons. destruct (decide (is_true_call x = b)); [contradiction|exact IH].
Qed.

Lemma filter_tag_same (b b' : bool) (l : list Call) :
  b' <> b ->
  filter (fun c => is_true_call c = b')
         (filter (fun c => is_true_call c <> b) l)
  = filter (fun c => is_true_call c = b') l.
Proof.
  intros Hb. induction l as [|x l IH]; [reflexivity|].
  rewrite (filter_cons (fun c => is_true_call c <> b)).
  rewrite (filter_cons (fun c => is_true_call c = b') x l).
  destruct (decide (is_true_call x <> b)) as [Hne|He].
  - rewrite filter_cons. destruct (decide (is_true_call x = b')); now rewrite IH.
  - destruct (decide (is_true_call x = b')) as [E|_]; [|exact IH].
    exfalso. apply He. intros E'. congruence.
Qed.

Lemma holds_call (c : ConditionalBuilder) (acc : list Call) (x : Call) :
  holds c acc -> present (call_arg x) = true ->
  holds (if is_true_call x
         then mkConditionalBuilder (condition c) (call_arg x) (falseNode c)
         else mkConditionalBuilder (condition c) (trueNode c) (call_arg x))
        (filter (fun c' => is_true_call c' <> is_true_call x) acc ++ [x]).
Proof.
  intros [HT HF] Hp.
  assert (Hs : singleton_if (call_arg x) = [call_arg x]).
  { unfold singleton_if. destruct (call_arg x); try reflexivity; discriminate Hp. }
  unfold holds. rewrite !filter_app, !map_app.
  destruct (is_true_call x) eqn:Ex; simpl.
  - rewrite (filter_tag_other true), (filter_tag_same true false acc) by discriminate.
    rewrite !filter_cons, !filter_nil, Ex. simpl.
    rewrite Hs, HF, app_nil_r. split; reflexivity.
  - rewrite (filter_tag_other false), (filter_tag_same false true acc) by discriminate.
    rewrite !filter_cons, !filter_nil, Ex. simpl.
    rewrite Hs, HT, app_nil_r. split; reflexivity.
Qed.

Lemma apply_calls_holds (calls : list Call) :
  forall (c : ConditionalBuilder) (acc : list Call) (s : State),
    Forall call_total calls -> holds c acc ->
    exists c', apply_calls c calls s = Ok c' s /\
               condition c' = condition c /\
               holds c' (branches_in_call_order_from acc calls).
Proof.
  induction calls as [|x calls IH]; intros c acc s Hall Hc.
  - exists c. repeat split; apply Hc.
  - apply Forall_cons in Hall as [Hx Hall].
    pose proof (holds_call c acc x Hc) as Hstep.
    destruct x as [n|n]; simpl in *; unfold bind.
    + rewrite (True_stores c n s Hx).
      destruct (present n).
      * destruct (IH _ _ s Hall (Hstep eq_refl)) as (c' & E & Hcond & H').
        exists c'. auto.
      * apply (IH c acc s Hall Hc).
    + rewrite (False_stores c n s Hx).
      destruct (present n).
      * destruct (IH _ _ s Hall (Hstep eq_refl)) as (c' & E & Hcond & H').
        exists c'. auto.
      * apply (IH c acc s Hall Hc).
Qed.

(** C8, as the code has it.  After any sequence of calls of [True] and
    [False] that return, [Nodes] yields exactly the branches that are set,
    the true branch first and the false branch second, whatever the order of
    the calls and whatever the condition. *)
Theorem Nodes_true_branch_first (b : bool) (calls : list Call) (s : State) :
  Forall call_total calls ->
  exists c', apply_calls (node.Condition b) calls s = Ok c' s /\
             node.Nodes c' = branches_true_first calls.
Proof.
  intros Hall.
  destruct (apply_calls_holds calls (node.Condition b) [] s Hall) as (c' & E & _ & HT & HF).
  { split; reflexivity. }
  exists c'. split; [exact E|].
  rewrite Nodes_singletons. unfold branches_true_first. now rewrite HT, HF.
Qed.

Lemma Nodes_true_branch_first_witness :
  exists c', apply_calls (node.Condition true)
               [CallFalse (text.Text "B"); CallTrue (text.Text "A")] init_state
             = Ok c' init_state /\
             node.Nodes c'
             = branches_true_first [CallFalse (text.Text "B"); CallTrue (text.Text "A")].
Proof.
  apply (Nodes_true_branch_first true
           [CallFalse (text.Text "B"); CallTrue (text.Text "A")] init_state).
  repeat constructor; right; reflexivity.
Defined.

(** C8 as stated fails: with [False] called before [True], [Nodes] does not
    list the branches in the order of the calls. *)
Lemma Nodes_not_in_call_order :
  exists c', apply_calls (node.Condition true)
               [CallFalse (text.Text "B"); CallTrue (text.Text "A")] init_state
             = Ok c' init_state /\
             node.Nodes c' = [text.Text "A"; text.Text "B"] /\
             branches_in_call_order [CallFalse (text.Text "B"); CallTrue (text.Text "A")]
             = [text.Text "B"; text.Text "A"] /\
             node.Nodes c'
             <> branches_in_call_order [CallFalse (text.Text "B"); CallTrue (text.Text "A")].
Proof.
  eexists. split; [reflexivity|]. split; [reflexivity|]. split; [reflexivity|].
  vm_compute. discriminate.
Qed.

(** ** bytes.Buffer on a well-formed store *)

Lemma deref_ok (r : nat) (b : Buffer) (s : State) :
  buffers s !! r = Some b -> deref (Some r) s = Ok (r, b) s.
Proof. intros H. unfold deref. now rewrite H. Qed.

Lemma read_array_ok (s : State) (b : Buffer) :
  buffer_ok s b -> read_array (buf_arr b) s = Ok (cells_of s (buf_arr b)) s.
Proof.
  intros [_ H]. unfold read_array, cells_of. destruct (buf_arr b) as [a|]; [|reflexivity].
  destruct (lookup_lt_is_Some_2 _ _ H) as [cells E]. now rewrite E.
Qed.

Lemma tryGrowByReslice_ok (r : nat) (b : Buffer) (n : nat) (s : State) :
  buffers s !! r = Some b -> buffer_ok s b ->
  Buffer_tryGrowByReslice (Some r) n s =
    if decide (buf_len b + n <= length (cells_of s (buf_arr b)))%nat
    then Ok (buf_len b, true) (reslice_state r b n s)
    else Ok (0%nat, false) s.
Proof.
  intros Hr Hb. unfold Buffer_tryGrowByReslice, bind.
  rewrite (deref_ok r b s Hr), (read_array_ok s b Hb).
  destruct Hb as [Hlen _].
  destruct (decide _) as [Hle|Hgt].
  - rewrite (proj2 (Z.leb_le _ _)) by lia. reflexivity.
  - rewrite (proj2 (Z.leb_gt _ _)) by lia. reflexivity.
Qed.

Lemma length_zero_cells (n : nat) : length (zero_cells n) = n.
Proof. apply length_replicate. Qed.

Lemma insert_snoc {A} (l : list A) (z x : A) :
  <[length l := x]> (l ++ [z]) = l ++ [x].
Proof.
  rewrite insert_app_r_alt by lia. now rewrite Nat.sub_diag.
Qed.

Lemma lookup_snoc {A} (l : list A) (z : A) : (l ++ [z]) !! length l = Some z.
Proof. rewrite lookup_app_r by lia. now rewrite Nat.sub_diag. Qed.

Lemma growSlice_ok (rt : Runtime) (b : Buffer) (cells : list byte) (n : nat) (s : State) :
  (buf_len b <= length cells)%nat ->
  growSlice rt b cells n s =
    Ok (length (arrays s)) (set_arrays (fun a => a ++ [grown_cells rt b cells n]) s).
Proof.
  intros Hlen. unfold growSlice, bind, new_array, copy_into, ret. simpl.
  f_equal. unfold set_arrays. simpl. f_equal.
  rewrite lookup_snoc, insert_snoc. unfold grown_cells.
  rewrite length_take, Nat.min_l by exact Hlen. reflexivity.
Qed.

Lemma grown_cells_length (rt : Runtime) (b : Buffer) (cells : list byte) (n : nat) :
  (buf_len b <= length cells)%nat ->
  (buf_len b + n <= length (grown_cells rt b cells n))%nat /\
  (length cells <= length (grown_cells rt b cells n))%nat /\
  take (buf_len b) (grown_cells rt b cells n) = take (buf_len b) cells.
Proof.
  intros Hlen. unfold grown_cells.
  set (c := if (_ <? _)%nat then _ else _).
  assert (Hc : (buf_len b + n <= c)%nat /\ (length cells <= c)%nat).
  { subst c. destruct (Nat.ltb_spec (buf_len b + n) (2 * length cells)); lia. }
  pose proof (roundupsize_ge rt c) as Hr.
  rewrite length_app, length_take, length_drop, length_zero_cells.
  repeat split; try lia.
  rewrite take_app_le by (rewrite length_take; lia).
  rewrite take_take. f_equal. lia.
Qed.

Lemma Buffer_grow_cases (rt : Runtime) (r : nat) (b : Buffer) (n : nat) (s : State) :
  buffers s !! r = Some b -> buffer_ok s b ->
  ((buf_len b + n <= length (cells_of s (buf_arr b)))%nat /\
   Buffer_grow rt (Some r) n s = Ok (buf_len b) (reslice_state r b n s)) \/
  (exists cells',
      Buffer_grow rt (Some r) n s = Ok (buf_len b) (realloc_state r b n cells' s) /\
      (buf_len b + n <= length cells')%nat /\
      take (buf_len b) cells' = take (buf_len b) (cells_of s (buf_arr b)) /\
      (length (cells_of s (buf_arr b)) <= length cells')%nat).
Proof.
  intros Hr Hb. unfold Buffer_grow, bind.
  rewrite (deref_ok r b s Hr), (tryGrowByReslice_ok r b n s Hr Hb).
  destruct (decide _) as [Hle|Hgt]; [left; split; [exact Hle|reflexivity]|].
  rewrite (read_array_ok s b Hb).
  pose proof Hb as [Hlen Harr].
  set (cells := cells_of s (buf_arr b)) in *.
  right.
  destruct (grown_cells_length rt b cells n Hlen) as (G1 & G2 & G3).
  destruct (buf_arr b) as [a0|] eqn:Ea.
  - destruct (Z.leb_spec (Z.of_nat n) (Z.of_nat (length cells) `div` 2 - Z.of_nat (buf_len b))) as [Hs|Hs].
    + exfalso. apply Hgt.
      assert (Z.of_nat (length cells) `div` 2 <= Z.of_nat (length cells)) by (apply Z.div_le_upper_bound; lia).
      lia.
    + exists (grown_cells rt b cells n). rewrite (growSlice_ok rt b cells n s Hlen).
      repeat split; auto.
  - assert (Hl0 : buf_len b = 0%nat) by (subst cells; simpl in Hlen; lia).
    destruct (Nat.leb_spec n smallBufferSize) as [Hs|Hs].
    + exists (zero_cells smallBufferSize). rewrite length_zero_cells, Hl0.
      repeat split; try lia.
      unfold realloc_state. rewrite Hl0. reflexivity.
    + exists (grown_cells rt b cells n). rewrite (growSlice_ok rt b cells n s Hlen).
      repeat split; auto.
Qed.


(** ** Writes to one buffer leave the rest of the store alone *)

Lemma mutates_refl (r : nat) (s : State) : mutates r s s.
Proof.
  constructor; auto.
  - intros a cells H. eauto.
  - intros b b' H1 H2. left. congruence.
Qed.

Lemma mutates_trans (r : nat) (s1 s2 s3 : State) :
  mutates r s1 s2 -> mutates r s2 s3 -> mutates r s1 s3.
Proof.
  intros A B. constructor.
  - rewrite (mut_rest _ _ _ B). apply A.
  - rewrite (mut_buffers _ _ _ B). apply A.
  - intros r' Hr. rewrite (mut_others _ _ _ B r' Hr). now apply A.
  - pose proof (mut_arrays _ _ _ A). pose proof (mut_arrays _ _ _ B). lia.
  - intros a cells H. destruct (mut_sizes _ _ _ A a cells H) as (c2 & H2 & L2).
    destruct (mut_sizes _ _ _ B a c2 H2) as (c3 & H3 & L3).
    exists c3. split; [exact H3|lia].
  - intros a Ha Hne.
    rewrite <- (mut_frame _ _ _ A a Ha Hne).
    apply (mut_frame _ _ _ B).
    + pose proof (mut_arrays _ _ _ A). lia.
    + intros b2 Hb2 Earr.
      destruct (buffers s1 !! r) as [b1|] eqn:Hb1.
      * destruct (mut_arr _ _ _ A b1 b2 Hb1 Hb2) as [Same|(a' & Ea' & Hfresh)].
        -- apply (Hne b1 eq_refl). congruence.
        -- rewrite Ea' in Earr. injection Earr as ->. lia.
      * apply lookup_ge_None in Hb1. apply lookup_lt_Some in Hb2.
        pose proof (mut_buffers _ _ _ A). lia.
  - intros b1 b3 Hb1 Hb3.
    assert (Hlt : (r < length (buffers s2))%nat).
    { rewrite (mut_buffers _ _ _ A). now apply lookup_lt_Some in Hb1. }
    destruct (lookup_lt_is_Some_2 _ _ Hlt) as [b2 Hb2].
    destruct (mut_arr _ _ _ A b1 b2 Hb1 Hb2) as [S12|(a2 & E2 & F2)];
      destruct (mut_arr _ _ _ B b2 b3 Hb2 Hb3) as [S23|(a3 & E3 & F3)].
    + left. congruence.
    + right. exists a3. split; [exact E3|]. pose proof (mut_arrays _ _ _ A). lia.
    + right. exists a2. split; [congruence|exact F2].
    + right. exists a3. split; [exact E3|]. pose proof (mut_arrays _ _ _ A). lia.
Qed.

Lemma mutates_store (r : nat) (b b' : Buffer) (s : State) :
  buffers s !! r = Some b -> buf_arr b' = buf_arr b ->
  mutates r s (set_buffers (fun bs => <[r := b']> bs) s).
Proof.
  intros Hr Ha. constructor; simpl; auto.
  - apply length_insert.
  - intros r' Hne. now apply list_lookup_insert_ne.
  - intros a cells H. eauto.
  - intros b0 b0' H0 H0'. left.
    rewrite list_lookup_insert_eq in H0' by (now apply lookup_lt_Some in Hr).
    congruence.
Qed.

Lemma mutates_copy (r a : nat) (b : Buffer) (cells cells' : list byte) (s : State) :
  buffers s !! r = Some b -> buf_arr b = Some a ->
  arrays s !! a = Some cells -> length cells' = length cells ->
  mutates r s (set_arrays (fun arrs => <[a := cells']> arrs) s).
Proof.
  intros Hr Ha Hc Hl. constructor; simpl; auto.
  - now rewrite length_insert.
  - intros a0 c0 H0. destruct (decide (a0 = a)) as [->|Hne].
    + exists cells'. rewrite list_lookup_insert_eq by (now apply lookup_lt_Some in Hc).
      split; [reflexivity|congruence].
    + exists c0. now rewrite list_lookup_insert_ne by congruence.
  - intros a0 _ Hne. apply list_lookup_insert_ne. intros ->. now apply (Hne b Hr).
  - intros b0 b0' H0 H0'. left. congruence.
Qed.

Lemma mutates_realloc (r : nat) (b : Buffer) (n : nat) (cells' : list byte) (s : State) :
  buffers s !! r = Some b ->
  mutates r s (realloc_state r b n cells' s).
Proof.
  intros Hr. constructor; simpl; auto.
  - apply length_insert.
  - intros r' Hne. now apply list_lookup_insert_ne.
  - rewrite length_app. lia.
  - intros a cells H. exists cells. split; [|reflexivity].
    rewrite lookup_app_l by (now apply lookup_lt_Some in H). exact H.
  - intros a Ha _. now apply lookup_app_l.
  - intros b0 b0' H0 H0'. right.
    rewrite list_lookup_insert_eq in H0' by (now apply lookup_lt_Some in Hr).
    injection H0' as <-. simpl. eauto.
Qed.

Lemma cells_of_Some (s : State) (a : nat) (cells : list byte) :
  arrays s !! a = Some cells -> cells_of s (Some a) = cells.
Proof. intros H. unfold cells_of. now rewrite H. Qed.

Lemma buffer_ok_mutates (r : nat) (s s' : State) (b : Buffer) :
  mutates r s s' -> buffer_ok s b -> buffer_ok s' b.
Proof.
  intros Hm [Hlen Harr]. unfold buffer_ok.
  destruct (buf_arr b) as [a|] eqn:Ea; [|split; [exact Hlen|exact I]].
  destruct (lookup_lt_is_Some_2 _ _ Harr) as [cells Hc].
  destruct (mut_sizes _ _ _ Hm a cells Hc) as (cells' & Hc' & Hl).
  rewrite (cells_of_Some s a cells Hc) in Hlen.
  rewrite (cells_of_Some s' a cells' Hc'). split; [lia|].
  now apply lookup_lt_Some in Hc'.
Qed.

Lemma heap_ok_mutates (r : nat) (s s' : State) :
  heap_ok s -> mutates r s s' ->
  (forall b', buffers s' !! r = Some b' -> buffer_ok s' b') ->
  heap_ok s'.
Proof.
  intros [Hok Hshare] Hm Hr. split.
  - intros r0 b0 H0. destruct (decide (r0 = r)) as [->|Hne]; [now apply Hr|].
    rewrite (mut_others _ _ _ Hm r0 Hne) in H0.
    apply (buffer_ok_mutates r s s' b0 Hm), (Hok r0 b0 H0).
  - assert (Hkey : forall r2 b1 b2 a, r2 <> r ->
                buffers s' !! r = Some b1 -> buffers s' !! r2 = Some b2 ->
                buf_arr b1 = Some a -> buf_arr b2 = Some a -> Logic.False).
    { intros r2 b1 b2 a Hne H1 H2 E1 E2.
      rewrite (mut_others _ _ _ Hm r2 Hne) in H2.
      assert (Hlt : (r < length (buffers s))%nat).
      { rewrite <- (mut_buffers _ _ _ Hm). now apply lookup_lt_Some in H1. }
      destruct (lookup_lt_is_Some_2 _ _ Hlt) as [b0 H0].
      destruct (mut_arr _ _ _ Hm b0 b1 H0 H1) as [Same|(a' & Ea' & Hfresh)].
      - apply Hne. symmetry. apply (Hshare r r2 b0 b2 a H0 H2); congruence.
      - destruct (Hok r2 b2 H2) as [_ Hb2]. rewrite E2 in Hb2.
        rewrite Ea' in E1. injection E1 as ->. lia. }
    intros r1 r2 b1 b2 a H1 H2 E1 E2.
    destruct (decide (r1 = r)) as [->|Hne1]; destruct (decide (r2 = r)) as [->|Hne2];
      try reflexivity.
    + exfalso. exact (Hkey r2 b1 b2 a Hne2 H1 H2 E1 E2).
    + exfalso. exact (Hkey r1 b2 b1 a Hne1 H2 H1 E2 E1).
    + rewrite (mut_others _ _ _ Hm r1 Hne1) in H1.
      rewrite (mut_others _ _ _ Hm r2 Hne2) in H2.
      exact (Hshare r1 r2 b1 b2 a H1 H2 E1 E2).
Qed.

Lemma pool_ok_mutates (r : nat) (s s' : State) :
  pool_ok s -> mutates r s s' -> pool_ok s'.
Proof.
  intros [Hin Hnd] Hm. pose proof (mut_rest _ _ _ Hm) as Hrest.
  unfold rest_of in Hrest. injection Hrest as _ _ _ _ _ Hs Hl.
  unfold pool_ok. rewrite Hs, Hl, (mut_buffers _ _ _ Hm). split; assumption.
Qed.

(** ** Write and WriteString append *)

Lemma copy_into_ok (a m : nat) (data cells : list byte) (s : State) :
  arrays s !! a = Some cells ->
  copy_into (Some a) m data s =
    Ok tt (set_arrays (fun arrs => <[a := written_cells m data cells]> arrs) s).
Proof.
  intros H. unfold copy_into, set_arrays. now rewrite H.
Qed.

Lemma written_cells_length (m : nat) (data cells : list byte) :
  (m + length data <= length cells)%nat ->
  length (written_cells m data cells) = length cells.
Proof.
  intros H. unfold written_cells.
  rewrite !length_app, length_take, length_drop. lia.
Qed.

Lemma written_cells_take (m : nat) (data cells : list byte) :
  (m + length data <= length cells)%nat ->
  take (m + length data) (written_cells m data cells) = take m cells ++ data.
Proof.
  intros H. unfold written_cells.
  rewrite app_assoc. apply take_app_length'.
  rewrite length_app, length_take. lia.
Qed.

Lemma contents_eq (s : State) (r : nat) (b : Buffer) :
  buffers s !! r = Some b ->
  contents s r = take (buf_len b) (cells_of s (buf_arr b)).
Proof. intros H. unfold contents. now rewrite H. Qed.

Lemma capacity_eq (s : State) (r : nat) (b : Buffer) :
  buffers s !! r = Some b ->
  capacity s r = length (cells_of s (buf_arr b)).
Proof. intros H. unfold capacity. now rewrite H. Qed.

(** The state after appending in place, and after appending in a fresh
    array. *)
Lemma written_in_place (r a : nat) (b : Buffer) (data cells : list byte) (s : State) :
  buffers s !! r = Some b -> buf_arr b = Some a -> arrays s !! a = Some cells ->
  (buf_len b + length data <= length cells)%nat ->
  written r data s
    (set_arrays (fun arrs => <[a := written_cells (buf_len b) data cells]> arrs)
                (reslice_state r b (length data) s)).
Proof.
  intros Hr Ha Hc Hfit.
  set (s1 := reslice_state r b (length data) s).
  set (B' := mkBuffer (buf_arr b) (buf_len b + length data)).
  assert (Hlt : (r < length (buffers s))%nat) by (now apply lookup_lt_Some in Hr).
  assert (Halt : (a < length (arrays s))%nat) by (now apply lookup_lt_Some in Hc).
  assert (Hr1 : buffers s1 !! r = Some B').
  { simpl. now apply list_lookup_insert_eq. }
  pose proof (written_cells_length (buf_len b) data cells Hfit) as HW.
  assert (Hfinal : forall b', buffers (set_arrays (fun arrs => <[a := written_cells (buf_len b) data cells]> arrs) s1) !! r = Some b' -> b' = B').
  { simpl. rewrite list_lookup_insert_eq by exact Hlt. intros b' E. now injection E. }
  constructor.
  - eapply mutates_trans.
    + apply (mutates_store r b B' s Hr). reflexivity.
    + apply (mutates_copy r a B' cells _ s1 Hr1); [exact Ha|exact Hc|exact HW].
  - rewrite (contents_eq s r b Hr), Ha, (cells_of_Some s a cells Hc).
    rewrite (contents_eq _ r B'); [|simpl; now apply list_lookup_insert_eq].
    simpl. rewrite Ha. unfold cells_of. simpl.
    rewrite list_lookup_insert_eq by exact Halt. simpl.
    apply written_cells_take, Hfit.
  - intros b' Hb'. rewrite (Hfinal b' Hb'). unfold buffer_ok. simpl. rewrite Ha.
    unfold cells_of. simpl. rewrite list_lookup_insert_eq by exact Halt. simpl.
    rewrite length_insert. split; [lia|exact Halt].
  - rewrite (capacity_eq s r b Hr), Ha, (cells_of_Some s a cells Hc).
    rewrite (capacity_eq _ r B'); [|simpl; now apply list_lookup_insert_eq].
    simpl. rewrite Ha. unfold cells_of. simpl.
    rewrite list_lookup_insert_eq by exact Halt. simpl. lia.
Qed.

Lemma written_realloc (r : nat) (b : Buffer) (data cells' : list byte) (s : State) :
  buffers s !! r = Some b -> buffer_ok s b ->
  (buf_len b + length data <= length cells')%nat ->
  take (buf_len b) cells' = take (buf_len b) (cells_of s (buf_arr b)) ->
  (length (cells_of s (buf_arr b)) <= length cells')%nat ->
  written r data s
    (set_arrays (fun arrs => <[length (arrays s)
                                := written_cells (buf_len b) data cells']> arrs)
                (realloc_state r b (length data) cells' s)).
Proof.
  intros Hr Hb Hfit Htake Hcap.
  set (s1 := realloc_state r b (length data) cells' s).
  set (B' := mkBuffer (Some (length (arrays s))) (buf_len b + length data)).
  assert (Hlt : (r < length (buffers s))%nat) by (now apply lookup_lt_Some in Hr).
  assert (Hr1 : buffers s1 !! r = Some B').
  { simpl. now apply list_lookup_insert_eq. }
  assert (Hc1 : arrays s1 !! length (arrays s) = Some cells') by apply lookup_snoc.
  pose proof (written_cells_length (buf_len b) data cells' Hfit) as HW.
  assert (Harrs : arrays (set_arrays (fun arrs => <[length (arrays s) := written_cells (buf_len b) data cells']> arrs) s1)
                  = arrays s ++ [written_cells (buf_len b) data cells']).
  { simpl. apply insert_snoc. }
  assert (Hbufs : buffers (set_arrays (fun arrs => <[length (arrays s) := written_cells (buf_len b) data cells']> arrs) s1) !! r = Some B').
  { simpl. now apply list_lookup_insert_eq. }
  constructor.
  - eapply mutates_trans.
    + apply (mutates_realloc r b (length data) cells' s Hr).
    + apply (mutates_copy r (length (arrays s)) B' cells' _ s1 Hr1); [reflexivity|exact Hc1|exact HW].
  - rewrite (contents_eq s r b Hr), (contents_eq _ r B' Hbufs).
    unfold cells_of at 1. simpl buf_arr. rewrite Harrs, lookup_snoc. simpl.
    rewrite written_cells_take by exact Hfit. now rewrite Htake.
  - intros b' Hb'. rewrite Hbufs in Hb'. injection Hb' as <-.
    unfold buffer_ok, cells_of. simpl buf_arr. rewrite Harrs, lookup_snoc. simpl.
    rewrite length_app. simpl. split; lia.
  - rewrite (capacity_eq s r b Hr), (capacity_eq _ r B' Hbufs).
    unfold cells_of at 2. simpl buf_arr. rewrite Harrs, lookup_snoc. simpl. lia.
Qed.

Lemma written_nothing (r : nat) (b : Buffer) (s : State) :
  buffers s !! r = Some b -> buf_arr b = None -> buf_len b = 0%nat ->
  written r [] s (reslice_state r b 0 s).
Proof.
  intros Hr Ha Hl.
  assert (Hlt : (r < length (buffers s))%nat) by (now apply lookup_lt_Some in Hr).
  assert (Hr1 : buffers (reslice_state r b 0 s) !! r
                = Some (mkBuffer (buf_arr b) (buf_len b + 0))).
  { simpl. now apply list_lookup_insert_eq. }
  constructor.
  - apply (mutates_store r b _ s Hr). reflexivity.
  - rewrite (contents_eq s r b Hr), (contents_eq _ r _ Hr1). simpl.
    rewrite Ha, Hl. reflexivity.
  - intros b' Hb'. rewrite Hr1 in Hb'. injection Hb' as <-.
    unfold buffer_ok. simpl. rewrite Ha, Hl. simpl. split; [lia|exact I].
  - rewrite (capacity_eq s r b Hr), (capacity_eq _ r _ Hr1). simpl. rewrite Ha.
    reflexivity.
Qed.

Lemma Buffer_Write_written (rt : Runtime) (r : nat) (b : Buffer) (data : list byte)
    (s : State) :
  buffers s !! r = Some b -> buffer_ok s b ->
  exists s', Buffer_Write rt (Some r) data s = Ok tt s' /\ written r data s s'.
Proof.
  intros Hr Hb.
  assert (Hlt : (r < length (buffers s))%nat) by (now apply lookup_lt_Some in Hr).
  unfold Buffer_Write, bind.
  rewrite (tryGrowByReslice_ok r b (length data) s Hr Hb).
  destruct (decide _) as [Hfit|Hnofit].
  - unfold ret at 1.
    rewrite (deref_ok r (mkBuffer (buf_arr b) (buf_len b + length data)))
      by (simpl; now apply list_lookup_insert_eq).
    simpl buf_arr. destruct (buf_arr b) as [a|] eqn:Ea.
    + destruct Hb as [_ Harr]. rewrite Ea in Harr.
      destruct (lookup_lt_is_Some_2 _ _ Harr) as [cells Hc].
      rewrite (cells_of_Some s a cells Hc) in Hfit.
      rewrite (copy_into_ok a (buf_len b) data cells) by exact Hc.
      eexists. split; [reflexivity|].
      now apply written_in_place.
    + simpl in Hfit.
      assert (Hl : buf_len b = 0%nat) by lia.
      assert (Hd : data = []) by (apply length_zero_iff_nil; lia).
      subst data. eexists. split; [reflexivity|].
      now apply written_nothing.
  - destruct (Buffer_grow_cases rt r b (length data) s Hr Hb)
      as [[Hfit _]|(cells' & E & Hfit & Htake & Hcap)]; [contradiction|].
    rewrite E.
    rewrite (deref_ok r (mkBuffer (Some (length (arrays s))) (buf_len b + length data)))
      by (simpl; now apply list_lookup_insert_eq).
    simpl buf_arr.
    rewrite (copy_into_ok (length (arrays s)) (buf_len b) data cells')
      by apply lookup_snoc.
    eexists. split; [reflexivity|].
    now apply written_realloc.
Qed.

Lemma Buffer_WriteString_written (rt : Runtime) (r : nat) (b : Buffer) (str : string)
    (s : State) :
  buffers s !! r = Some b -> buffer_ok s b ->
  exists s', Buffer_WriteString rt (Some r) str s = Ok tt s' /\
             written r (bytes_of str) s s'.
Proof. apply Buffer_Write_written. Qed.

Lemma written_refl (r : nat) (b : Buffer) (s : State) :
  buffers s !! r = Some b -> buffer_ok s b -> written r [] s s.
Proof.
  intros Hr Hb. constructor.
  - apply mutates_refl.
  - now rewrite app_nil_r.
  - intros b' Hb'. congruence.
  - reflexivity.
Qed.

Lemma written_trans (r : nat) (d1 d2 : list byte) (s1 s2 s3 : State) :
  written r d1 s1 s2 -> written r d2 s2 s3 -> written r (d1 ++ d2) s1 s3.
Proof.
  intros A B. constructor.
  - eapply mutates_trans; [apply A|apply B].
  - rewrite (wr_contents _ _ _ _ B), (wr_contents _ _ _ _ A). now rewrite app_assoc.
  - apply B.
  - pose proof (wr_capacity _ _ _ _ A). pose proof (wr_capacity _ _ _ _ B). lia.
Qed.

Lemma written_valid (r : nat) (d : list byte) (s s' : State) :
  (r < length (buffers s))%nat -> written r d s s' ->
  exists b', buffers s' !! r = Some b' /\ buffer_ok s' b'.
Proof.
  intros Hlt W.
  assert (Hlt' : (r < length (buffers s'))%nat).
  { now rewrite (mut_buffers _ _ _ (wr_mutates _ _ _ _ W)). }
  destruct (lookup_lt_is_Some_2 _ _ Hlt') as [b' Hb'].
  exists b'. split; [exact Hb'|]. now apply (wr_ok _ _ _ _ W).
Qed.

Lemma WriteStrings_written (rt : Runtime) (r : nat) (ws : list string) :
  forall (s : State) (b : Buffer),
    buffers s !! r = Some b -> buffer_ok s b ->
    exists s', WriteStrings rt (Some r) ws s = Ok tt s' /\
               written r (rendering ws) s s'.
Proof.
  induction ws as [|w ws IH]; intros s b Hr Hb.
  - exists s. split; [reflexivity|]. now apply (written_refl r b).
  - simpl. unfold bind.
    destruct (Buffer_WriteString_written rt r b w s Hr Hb) as (s1 & E1 & W1).
    rewrite E1.
    destruct (written_valid r _ s s1 (lookup_lt_Some _ _ _ Hr) W1) as (b1 & Hr1 & Hb1).
    destruct (IH s1 b1 Hr1 Hb1) as (s2 & E2 & W2).
    exists s2. split; [exact E2|].
    unfold rendering. simpl. now apply (written_trans r _ _ s s1 s2).
Qed.

(** ** RenderBuilder writes the chunks of the node, in order *)

Lemma bind_ret_unit {S} (m : M S unit) (s : S) : bind m (fun _ => ret tt) s = m s.
Proof. unfold bind, ret. destruct (m s) as [[] s'|]; reflexivity. Qed.

Lemma WriteStrings_app (rt : Runtime) (buf : BufPtr) (a b : list string) (s : State) :
  WriteStrings rt buf (a ++ b) s
  = bind (WriteStrings rt buf a) (fun _ => WriteStrings rt buf b) s.
Proof.
  revert s. induction a as [|x a IH]; intros s; [reflexivity|].
  simpl. unfold bind.
  destruct (Buffer_WriteString rt buf x s) as [[] s1|]; [|reflexivity].
  now rewrite IH.
Qed.

Lemma RenderBuilder_chunks (rt : Runtime) (n : Node) :
  forall (buf : BufPtr) (ws : list string) (s : State),
    chunks n = Some ws ->
    RenderBuilder rt n buf s = WriteStrings rt buf ws s.
Proof.
  induction n as [| |content dynamic|c t f IHt IHf| |fn IH| |fn IH|k out] using Node_ind;
    intros buf ws s H; simpl in H; try discriminate H.
  - injection H as <-. simpl. now rewrite bind_ret_unit.
  - simpl. destruct (c && negb (is_nil t)); [now apply IHt|].
    destruct (negb c && negb (is_nil f)); [now apply IHf|].
    injection H as <-. reflexivity.
  - injection H as <-. reflexivity.
  - simpl. destruct (negb (is_nil (fn tt))); [now apply IH|].
    injection H as <-. reflexivity.
  - injection H as <-. reflexivity.
  - simpl. specialize (IH tt). revert ws s H.
    induction (fn tt) as [|x l IHl]; intros ws s H.
    + injection H as <-. reflexivity.
    + apply Forall_cons in IH as [Hx Hl].
      destruct (if negb (is_nil x) then chunks x else Some []) as [a|] eqn:Ea;
        [|discriminate H].
      match type of H with
      | match ?e with _ => _ end = _ => destruct e as [b|] eqn:Eb; [|discriminate H]
      end.
      injection H as <-.
      rewrite WriteStrings_app. unfold bind.
      assert (Hhead : (if negb (is_nil x) then RenderBuilder rt x buf else ret tt) s
                      = WriteStrings rt buf a s).
      { destruct (negb (is_nil x)); [now apply Hx|]. injection Ea as <-. reflexivity. }
      rewrite Hhead.
      destruct (WriteStrings rt buf a s) as [[] s1|]; [|reflexivity].
      now apply IHl.
  - injection H as <-. simpl. now rewrite bind_ret_unit.
Qed.

(** ** Allocation keeps the store well formed *)

Lemma keeps_arrays_refl (s : State) : keeps_arrays s s.
Proof. intros a cells H. exact H. Qed.

Lemma keeps_arrays_trans (s1 s2 s3 : State) :
  keeps_arrays s1 s2 -> keeps_arrays s2 s3 -> keeps_arrays s1 s3.
Proof. intros A B a cells H. apply B, A, H. Qed.

Lemma keeps_arrays_app (s : State) (cells : list byte) :
  keeps_arrays s (set_arrays (fun a => a ++ [cells]) s).
Proof.
  intros a c H. simpl. rewrite lookup_app_l by (now apply lookup_lt_Some in H). exact H.
Qed.

Lemma buffer_ok_keeps (s s' : State) (b : Buffer) :
  keeps_arrays s s' -> buffer_ok s b -> buffer_ok s' b.
Proof.
  intros Hk [Hlen Harr]. unfold buffer_ok.
  destruct (buf_arr b) as [a|] eqn:Ea; [|split; [exact Hlen|exact I]].
  destruct (lookup_lt_is_Some_2 _ _ Harr) as [cells Hc].
  rewrite (cells_of_Some s a cells Hc) in Hlen.
  rewrite (cells_of_Some s' a cells (Hk a cells Hc)).
  split; [exact Hlen|]. apply (lookup_lt_Some _ _ _ (Hk a cells Hc)).
Qed.

Lemma heap_ok_new_array (s : State) (cells : list byte) :
  heap_ok s -> heap_ok (set_arrays (fun a => a ++ [cells]) s).
Proof.
  intros [Hok Hshare]. split.
  - intros r b Hr. simpl in Hr.
    apply (buffer_ok_keeps s _ b (keeps_arrays_app s cells)), (Hok r b Hr).
  - exact Hshare.
Qed.

Lemma heap_ok_new_buffer (s : State) (b : Buffer) :
  heap_ok s -> buffer_ok s b ->
  (forall r' b' a, buffers s !! r' = Some b' -> buf_arr b' = Some a ->
                   buf_arr b <> Some a) ->
  heap_ok (set_buffers (fun bs => bs ++ [b]) s).
Proof.
  intros [Hok Hshare] Hb Hfresh.
  assert (Hcase : forall r0 b0, (buffers s ++ [b]) !! r0 = Some b0 ->
            buffers s !! r0 = Some b0 \/ (r0 = length (buffers s) /\ b0 = b)).
  { intros r0 b0 H0. apply lookup_app_Some in H0 as [H0|[Hge H0]]; [now left|right].
    apply list_lookup_singleton_Some in H0 as [Hz ->]. split; [lia|reflexivity]. }
  split.
  - intros r0 b0 H0. simpl in H0.
    destruct (Hcase r0 b0 H0) as [H|[_ ->]]; [exact (Hok r0 b0 H)|exact Hb].
  - intros r1 r2 b1 b2 a H1 H2 E1 E2. simpl in H1, H2.
    destruct (Hcase r1 b1 H1) as [H1'|[-> ->]];
      destruct (Hcase r2 b2 H2) as [H2'|[-> ->]].
    + exact (Hshare r1 r2 b1 b2 a H1' H2' E1 E2).
    + exfalso. exact (Hfresh r1 b1 a H1' E1 E2).
    + exfalso. exact (Hfresh r2 b2 a H2' E2 E1).
    + reflexivity.
Qed.

Lemma pool_ok_new_buffer (s : State) (b : Buffer) :
  pool_ok s -> pool_ok (set_buffers (fun bs => bs ++ [b]) s).
Proof.
  intros [Hin Hnd]. split; [|exact Hnd].
  intros r Hr. simpl. rewrite length_app. simpl.
  specialize (Hin r Hr). lia.
Qed.

Lemma wf_init_state : wf init_state.
Proof.
  split; split.
  - intros r b H. discriminate H.
  - intros r1 r2 b1 b2 a H. discriminate H.
  - intros r H. simpl in H. inversion H.
  - simpl. constructor.
Qed.

(** ** sync.Pool and pool.Get *)

Lemma delete_NoDup {A} (l : list A) (i : nat) (r : A) :
  NoDup l -> l !! i = Some r ->
  NoDup (delete i l) /\ (forall x, x ∈ delete i l -> x ∈ l /\ x <> r).
Proof.
  intros Hnd Hi.
  pose proof (take_drop_middle l i r Hi) as Hsplit.
  rewrite delete_take_drop.
  rewrite <- Hsplit in Hnd.
  apply NoDup_app in Hnd as (N1 & N2 & N3).
  apply NoDup_cons in N3 as [N3 N4].
  split.
  - apply NoDup_app. repeat split; [exact N1| |exact N4].
    intros x Hx Hx'. apply (N2 x Hx). now right.
  - intros x Hx. split.
    + rewrite <- Hsplit. apply elem_of_app in Hx as [Hx|Hx].
      * apply elem_of_app. now left.
      * apply elem_of_app. right. now right.
    + intros ->. apply elem_of_app in Hx as [Hx|Hx].
      * apply (N2 r Hx). now left.
      * exact (N3 Hx).
Qed.

Lemma SyncPool_Get_cases (t : Tier) (pick : option nat) (s : State) :
  (exists i r, idle (tier_pool t s) !! i = Some r /\
               SyncPool_Get t pick s =
                 Ok (Some r) (set_tier_pool t (fun p => mkSyncPool (delete i (idle p))) s)) \/
  SyncPool_Get t pick s =
    Ok (Some (length (buffers s))) (set_buffers (fun bs => bs ++ [mkBuffer None 0]) s).
Proof.
  unfold SyncPool_Get. destruct pick as [i|]; simpl; [|now right].
  destruct (idle (tier_pool t s) !! i) as [r|] eqn:E; simpl; [|now right].
  left. exists i, r. split; [exact E|reflexivity].
Qed.

Lemma pooled_take (t : Tier) (i r : nat) (s : State) :
  NoDup (pooled s) -> idle (tier_pool t s) !! i = Some r ->
  r ∈ pooled s /\
  NoDup (pooled (set_tier_pool t (fun p => mkSyncPool (delete i (idle p))) s)) /\
  (forall x, x ∈ pooled (set_tier_pool t (fun p => mkSyncPool (delete i (idle p))) s) ->
             x ∈ pooled s /\ x <> r).
Proof.
  unfold pooled. intros Hnd Hi.
  apply NoDup_app in Hnd as (N1 & N2 & N3).
  destruct t; simpl in *.
  - destruct (delete_NoDup _ i r N1 Hi) as [D1 D2].
    assert (Hr : r ∈ idle (smallPool s)) by (apply list_elem_of_lookup; eauto).
    split; [apply elem_of_app; now left|]. split.
    + apply NoDup_app. repeat split; [exact D1| |exact N3].
      intros x Hx. apply N2. now apply D2.
    + intros x Hx. apply elem_of_app in Hx as [Hx|Hx].
      * destruct (D2 x Hx). split; [apply elem_of_app; now left|assumption].
      * split; [apply elem_of_app; now right|]. intros ->. exact (N2 r Hr Hx).
  - destruct (delete_NoDup _ i r N3 Hi) as [D1 D2].
    assert (Hr : r ∈ idle (largePool s)) by (apply list_elem_of_lookup; eauto).
    split; [apply elem_of_app; now right|]. split.
    + apply NoDup_app. repeat split; [exact N1| |exact D1].
      intros x Hx Hx'. apply (N2 x Hx). now apply D2.
    + intros x Hx. apply elem_of_app in Hx as [Hx|Hx].
      * split; [apply elem_of_app; now left|]. intros ->. exact (N2 r Hx Hr).
      * destruct (D2 x Hx). split; [apply elem_of_app; now right|assumption].
Qed.

Lemma set_tier_pool_frame (t : Tier) (f : SyncPool -> SyncPool) (s : State) :
  arrays (set_tier_pool t f s) = arrays s /\
  buffers (set_tier_pool t f s) = buffers s /\
  settings (set_tier_pool t f s) = settings s.
Proof. destruct t; repeat split. Qed.

Lemma SyncPool_Get_acquires (t : Tier) (pick : option nat) (s : State) :
  wf s ->
  exists r s', SyncPool_Get t pick s = Ok (Some r) s' /\ acquires r s s'.
Proof.
  intros [Hheap [Hin Hnd]].
  destruct (SyncPool_Get_cases t pick s) as [(i & r & Hi & E)|E].
  - exists r. eexists. split; [exact E|].
    destruct (pooled_take t i r s Hnd Hi) as (Hr & Hnd' & Hsub).
    destruct (set_tier_pool_frame t (fun p => mkSyncPool (delete i (idle p))) s)
      as (Ea & Eb & Es).
    constructor.
    + exact Es.
    + intros a cells H. now rewrite Ea.
    + intros r' _ _. now rewrite Eb.
    + now right.
    + exact Hsub.
    + split.
      * destruct Hheap as [Hok Hshare]. unfold heap_ok, buffer_ok, cells_of.
        rewrite Ea, Eb. split; assumption.
      * split; [|exact Hnd'].
        intros x Hx. rewrite Eb. apply Hin. now apply Hsub.
    + rewrite Eb. now apply Hin.
  - exists (length (buffers s)),
      (set_buffers (fun bs => bs ++ [mkBuffer None 0]) s). split; [exact E|].
    constructor.
    + reflexivity.
    + intros a cells H. exact H.
    + intros r' _ Hlt. simpl. now apply lookup_app_l.
    + now left.
    + intros x Hx. split; [exact Hx|]. intros ->.
      specialize (Hin _ Hx). lia.
    + split.
      * apply heap_ok_new_buffer; [exact Hheap| |].
        -- split; [simpl; lia|exact I].
        -- intros r' b' a _ _. discriminate.
      * apply pool_ok_new_buffer. split; assumption.
    + simpl. rewrite length_app. simpl. lia.
Qed.

Lemma acquires_mutates (r : nat) (s s1 s2 : State) :
  acquires r s s1 -> mutates r s1 s2 -> keeps_arrays s1 s2 ->
  (forall b', buffers s2 !! r = Some b' -> buffer_ok s2 b') ->
  acquires r s s2.
Proof.
  intros A Hm Hk Hb.
  pose proof (mut_rest _ _ _ Hm) as Hrest. unfold rest_of in Hrest.
  injection Hrest as E1 E2 E3 E4 E5 E6 E7.
  constructor.
  - rewrite <- (acq_settings _ _ _ A). unfold settings. congruence.
  - apply (keeps_arrays_trans s s1 s2 (acq_arrays _ _ _ A) Hk).
  - intros r' Hne Hlt. rewrite (mut_others _ _ _ Hm r' Hne).
    now apply (acq_others _ _ _ A).
  - exact (acq_origin _ _ _ A).
  - intros x Hx. apply (acq_pools _ _ _ A). unfold pooled in *. now rewrite <- E6, <- E7.
  - destruct (acq_wf _ _ _ A) as [Hheap Hpool]. split.
    + now apply (heap_ok_mutates r s1 s2).
    + now apply (pool_ok_mutates r s1 s2).
  - rewrite (mut_buffers _ _ _ Hm). exact (acq_valid _ _ _ A).
Qed.

Lemma Buffer_Reset_ok (r : nat) (b : Buffer) (s : State) :
  buffers s !! r = Some b ->
  Buffer_Reset (Some r) s =
    Ok tt (set_buffers (fun bs => <[r := mkBuffer (buf_arr b) 0]> bs) s).
Proof.
  intros Hr. unfold Buffer_Reset, bind. now rewrite (deref_ok r b s Hr).
Qed.

Lemma Buffer_Grow_ok (rt : Runtime) (r : nat) (b : Buffer) (n : Z) (s : State) :
  buffers s !! r = Some b -> buffer_ok s b -> 0 <= n ->
  exists s' b',
    Buffer_Grow rt (Some r) n s = Ok tt s' /\
    mutates r s s' /\ keeps_arrays s s' /\
    buffers s' !! r = Some b' /\ buf_len b' = buf_len b /\ buffer_ok s' b' /\
    (buf_len b + Z.to_nat n <= length (cells_of s' (buf_arr b')))%nat.
Proof.
  intros Hr Hb Hn.
  assert (Hlt : (r < length (buffers s))%nat) by (now apply lookup_lt_Some in Hr).
  unfold Buffer_Grow. rewrite (proj2 (Z.ltb_ge n 0)) by exact Hn. unfold bind.
  destruct (Buffer_grow_cases rt r b (Z.to_nat n) s Hr Hb)
    as [[Hfit E]|(cells' & E & Hfit & Htake & Hcap)]; rewrite E.
  - set (s1 := reslice_state r b (Z.to_nat n) s).
    assert (Hr1 : buffers s1 !! r = Some (mkBuffer (buf_arr b) (buf_len b + Z.to_nat n))).
    { simpl. now apply list_lookup_insert_eq. }
    rewrite (deref_ok r _ s1 Hr1). simpl buf_arr.
    eexists. exists (mkBuffer (buf_arr b) (buf_len b)).
    split; [reflexivity|]. split; [|split; [|split; [|split; [|split]]]].
    + apply (mutates_trans r s s1).
      * apply (mutates_store r b (mkBuffer (buf_arr b) (buf_len b + Z.to_nat n)) s Hr).
        reflexivity.
      * eapply (mutates_store r _ _ s1 Hr1). reflexivity.
    + intros a cells H. exact H.
    + simpl. rewrite list_lookup_insert_eq; [reflexivity|].
      rewrite length_insert. exact Hlt.
    + reflexivity.
    + exact Hb.
    + exact Hfit.
  - set (s1 := realloc_state r b (Z.to_nat n) cells' s).
    assert (Hr1 : buffers s1 !! r
                  = Some (mkBuffer (Some (length (arrays s))) (buf_len b + Z.to_nat n))).
    { simpl. now apply list_lookup_insert_eq. }
    rewrite (deref_ok r _ s1 Hr1). simpl buf_arr.
    eexists. exists (mkBuffer (Some (length (arrays s))) (buf_len b)).
    assert (Hcells : forall s2, arrays s2 = arrays s ++ [cells'] ->
                                cells_of s2 (Some (length (arrays s))) = cells').
    { intros s2 E2. unfold cells_of. now rewrite E2, lookup_snoc. }
    split; [reflexivity|]. split; [|split; [|split; [|split; [|split]]]].
    + apply (mutates_trans r s s1).
      * apply (mutates_realloc r b (Z.to_nat n) cells' s Hr).
      * eapply (mutates_store r _ _ s1 Hr1). reflexivity.
    + apply keeps_arrays_app.
    + simpl. rewrite list_lookup_insert_eq; [reflexivity|].
      rewrite length_insert. exact Hlt.
    + reflexivity.
    + split.
      * simpl buf_arr. simpl buf_len. rewrite Hcells by reflexivity. lia.
      * simpl. rewrite length_app. simpl. lia.
    + simpl buf_arr. rewrite Hcells by reflexivity. exact Hfit.
Qed.

Lemma length_of_eq (s : State) (r : nat) (b : Buffer) :
  buffers s !! r = Some b -> length_of s r = buf_len b.
Proof. intros H. unfold length_of. now rewrite H. Qed.

Lemma acquires_lookup (r : nat) (s s' : State) :
  acquires r s s' ->
  exists b, buffers s' !! r = Some b /\ buffer_ok s' b.
Proof.
  intros A. destruct (lookup_lt_is_Some_2 _ _ (acq_valid _ _ _ A)) as [b Hb].
  exists b. split; [exact Hb|].
  destruct (acq_wf _ _ _ A) as [[Hok _] _]. exact (Hok r b Hb).
Qed.

Lemma maxAlloc_range : 0 <= maxAlloc /\ 2 * maxAlloc <= maxInt.
Proof. split; discriminate. Qed.

Lemma hint_zero : 0 <= 0 <= maxAlloc.
Proof. split; discriminate. Qed.

(** Within the limit the real [Grow] reaches neither of its two panics,
    whether [Get] drew a buffer on one of the arrays of the store or a new
    one, of capacity zero; and the hint is an [int]. *)
Lemma within_limit_Grow (s : State) (hint : Z) :
  within_limit s hint ->
  hint <= maxInt /\
  Grow_too_large 0 hint = false /\
  forall cells, cells ∈ arrays s ->
    Grow_too_large (Z.of_nat (length cells)) hint = false.
Proof.
  intros [Hmax Harr]. destruct maxAlloc_range as [Hpos Hint].
  assert (Hgen : forall c, 0 <= c -> 2 * c <= maxAlloc -> Grow_too_large c hint = false).
  { intros c Hc Hc2. unfold Grow_too_large.
    destruct (hint <=? c); [reflexivity|]. simpl.
    apply orb_false_iff. split; apply Z.ltb_ge; lia. }
  split; [lia|]. split; [apply Hgen; lia|].
  intros cells Hin. apply Hgen; [lia|].
  rewrite Forall_forall in Harr. exact (Harr cells Hin).
Qed.

Lemma make_ok (cap : Z) (s : State) :
  0 <= cap <= maxAlloc ->
  make cap s = Ok (length (arrays s))
                  (set_arrays (fun a => a ++ [zero_cells (Z.to_nat cap)]) s).
Proof.
  intros [Hlo Hhi]. unfold make.
  rewrite (proj2 (Z.ltb_ge cap 0)) by exact Hlo.
  rewrite (proj2 (Z.ltb_ge maxAlloc cap)) by exact Hhi. reflexivity.
Qed.

Lemma make_panics (cap : Z) (s : State) :
  cap < 0 \/ maxAlloc < cap -> make cap s = Panic MakesliceCapOutOfRange.
Proof.
  intros H. unfold make.
  assert (E : (cap <? 0) || (maxAlloc <? cap) = true).
  { apply orb_true_iff. destruct H as [H|H]; [left|right]; now apply Z.ltb_lt. }
  now rewrite E.
Qed.

Lemma make_cases (cap : Z) (s : State) :
  make cap s = Panic MakesliceCapOutOfRange \/
  make cap s = Ok (length (arrays s))
                  (set_arrays (fun a => a ++ [zero_cells (Z.to_nat cap)]) s).
Proof.
  destruct (Z.lt_ge_cases cap 0) as [H|H]; [left; apply make_panics; now left|].
  destruct (Z.lt_ge_cases maxAlloc cap) as [H'|H'];
    [left; apply make_panics; now right|right; now apply make_ok].
Qed.

Lemma Get_disabled (rt : Runtime) (pick : option nat) (hint : Z) (s : State) :
  enabled s = false -> 0 <= hint <= maxAlloc ->
  pool.Get rt pick hint s =
    Ok (Some (length (buffers s)))
       (set_buffers (fun bs => bs ++ [mkBuffer (Some (length (arrays s))) 0])
                    (set_arrays (fun a => a ++ [zero_cells (Z.to_nat hint)]) s)).
Proof.
  intros En Hh. unfold pool.Get, bind, pool.Enabled. rewrite En. cbn [negb].
  cbv beta iota. now rewrite (make_ok hint s Hh).
Qed.

Lemma Get_acquires (rt : Runtime) (pick : option nat) (hint : Z) (s : State) :
  wf s -> 0 <= hint <= maxAlloc \/ enabled s = true ->
  exists r s',
    pool.Get rt pick hint s = Ok (Some r) s' /\
    acquires r s s' /\
    length_of s' r = 0%nat /\
    (0 <= hint -> hint <= Z.of_nat (capacity s' r)).
Proof.
  intros Hwf Hdom. destruct (enabled s) eqn:En.
  - unfold pool.Get, bind, pool.Enabled, pool.PoolThreshold. rewrite En. cbn [negb]. cbv beta iota.
    set (t := if hint <? poolThreshold s then Small else Large).
    assert (Et : (if hint <? poolThreshold s then SyncPool_Get Small pick
                  else SyncPool_Get Large pick) s = SyncPool_Get t pick s).
    { subst t. now destruct (hint <? poolThreshold s). }
    rewrite Et.
    destruct (SyncPool_Get_acquires t pick s Hwf) as (r & s1 & E1 & A1).
    rewrite E1.
    destruct (acquires_lookup r s s1 A1) as (b1 & Hr1 & Hb1).
    rewrite (Buffer_Reset_ok r b1 s1 Hr1).
    set (s2 := set_buffers (fun bs => <[r := mkBuffer (buf_arr b1) 0]> bs) s1).
    assert (Hr2 : buffers s2 !! r = Some (mkBuffer (buf_arr b1) 0)).
    { simpl. apply list_lookup_insert_eq. now apply lookup_lt_Some in Hr1. }
    assert (Hb2 : buffer_ok s2 (mkBuffer (buf_arr b1) 0)).
    { destruct Hb1 as [_ Harr]. split; [simpl; lia|exact Harr]. }
    assert (A2 : acquires r s s2).
    { apply (acquires_mutates r s s1 s2 A1).
      - apply (mutates_store r b1 _ s1 Hr1). reflexivity.
      - intros a cells H. exact H.
      - intros b' Hb'. rewrite Hr2 in Hb'. now injection Hb' as <-. }
    destruct (Z.ltb_spec 0 hint) as [Hpos|Hnpos].
    + destruct (Buffer_Grow_ok rt r _ hint s2 Hr2 Hb2 ltac:(lia))
        as (s3 & b3 & E3 & Hm3 & Hk3 & Hr3 & Hl3 & Hb3 & Hcap3).
      rewrite E3. exists r, s3. split; [reflexivity|]. split; [|split].
      * apply (acquires_mutates r s s2 s3 A2 Hm3 Hk3).
        intros b' Hb'. rewrite Hr3 in Hb'. now injection Hb' as <-.
      * rewrite (length_of_eq s3 r b3 Hr3). exact Hl3.
      * intros _. rewrite (capacity_eq s3 r b3 Hr3). simpl in Hcap3. lia.
    + exists r, s2. split; [reflexivity|]. split; [exact A2|split].
      * now rewrite (length_of_eq s2 r _ Hr2).
      * intros H0. lia.
  - destruct Hdom as [Hh|Habs]; [|discriminate Habs].
    rewrite (Get_disabled rt pick hint s En Hh).
    destruct Hwf as [Hheap [Hin Hnd]].
    eexists _, _. split; [reflexivity|].
    assert (Hlast : forall s0 : State, (buffers s ++ [mkBuffer (Some (length (arrays s))) 0])
                      !! length (buffers s)
                    = Some (mkBuffer (Some (length (arrays s))) 0)).
    { intros _. apply lookup_snoc. }
    split; [|split].
    + constructor.
      * reflexivity.
      * intros a cells H. simpl.
        rewrite lookup_app_l by (now apply lookup_lt_Some in H). exact H.
      * intros r' _ Hlt. simpl. now apply lookup_app_l.
      * now left.
      * intros x Hx. split; [exact Hx|]. intros ->. specialize (Hin _ Hx). lia.
      * split.
        -- apply heap_ok_new_buffer.
           ++ now apply heap_ok_new_array.
           ++ split.
              ** simpl. lia.
              ** simpl. rewrite length_app. simpl. lia.
           ++ intros r' b' a Hr' Ea. simpl in Hr'.
              destruct Hheap as [Hok _]. destruct (Hok r' b' Hr') as [_ Harr].
              rewrite Ea in Harr. simpl. intros E. injection E as <-. lia.
        -- apply pool_ok_new_buffer. split; assumption.
      * simpl. rewrite length_app. simpl. lia.
    + unfold length_of. simpl. now rewrite lookup_snoc.
    + intros _. unfold capacity, cells_of. simpl. rewrite !lookup_snoc. simpl.
      rewrite lookup_snoc. simpl. rewrite length_zero_cells. lia.
Qed.


Lemma Buffer_Cap_ok (r : nat) (b : Buffer) (s : State) :
  buffers s !! r = Some b -> buffer_ok s b ->
  Buffer_Cap (Some r) s = Ok (Z.of_nat (capacity s r)) s.
Proof.
  intros Hr Hb. unfold Buffer_Cap, bind.
  rewrite (deref_ok r b s Hr), (read_array_ok s b Hb).
  now rewrite (capacity_eq s r b Hr).
Qed.

Lemma Buffer_Bytes_ok (r : nat) (b : Buffer) (s : State) :
  buffers s !! r = Some b ->
  Buffer_Bytes (Some r) s = Ok (mkSlice (buf_arr b) 0 (buf_len b)) s /\
  read_slice s (mkSlice (buf_arr b) 0 (buf_len b)) = contents s r.
Proof.
  intros Hr. unfold Buffer_Bytes, bind. rewrite (deref_ok r b s Hr).
  split; [reflexivity|].
  rewrite (contents_eq s r b Hr). unfold read_slice, cells_of. simpl.
  destruct (buf_arr b); [reflexivity|]. now rewrite take_nil.
Qed.

Lemma contents_empty (s : State) (r : nat) :
  length_of s r = 0%nat -> contents s r = [].
Proof.
  unfold length_of, contents. destruct (buffers s !! r) as [b|]; [|reflexivity].
  intros ->. reflexivity.
Qed.




(** ** pool.Put *)

Lemma Put_nil (s : State) : pool.Put None s = Ok tt s.
Proof. reflexivity. Qed.

Lemma Put_disabled (buf : BufPtr) (s : State) :
  enabled s = false -> pool.Put buf s = Ok tt s.
Proof.
  intros En. unfold pool.Put, bind, pool.Enabled. rewrite En.
  destruct buf; reflexivity.
Qed.

Lemma Put_enabled (r : nat) (b : Buffer) (s : State) :
  enabled s = true -> buffers s !! r = Some b -> buffer_ok s b ->
  pool.Put (Some r) s =
    Ok tt
       (if (maxPoolSize s <? Z.of_nat (capacity s r)) && discardOversized s then s
        else set_tier_pool
               (if Z.of_nat (capacity s r) <? poolThreshold s then Small else Large)
               (fun p => mkSyncPool (r :: idle p))
               (set_buffers (fun bs => <[r := mkBuffer (buf_arr b) 0]> bs) s)).
Proof.
  intros En Hr Hb.
  unfold pool.Put, bind, pool.Enabled, pool.MaxPoolSize, pool.DiscardOversized,
    pool.PoolThreshold.
  rewrite En. cbn [negb]. cbv beta iota.
  rewrite (Buffer_Cap_ok r b s Hr Hb).
  destruct ((maxPoolSize s <? Z.of_nat (capacity s r)) && discardOversized s);
    [reflexivity|].
  rewrite (Buffer_Reset_ok r b s Hr). simpl.
  destruct (Z.of_nat (capacity s r) <? poolThreshold s); reflexivity.
Qed.

(** With [discardOversized] set, an oversized buffer is dropped: [Put]
    changes nothing, so the buffer is in neither registry. *)
Lemma Put_discards_oversized (r : nat) (b : Buffer) (s : State) :
  enabled s = true -> buffers s !! r = Some b -> buffer_ok s b ->
  maxPoolSize s < Z.of_nat (capacity s r) -> discardOversized s = true ->
  pool.Put (Some r) s = Ok tt s.
Proof.
  intros En Hr Hb Hover Hd. rewrite (Put_enabled r b s En Hr Hb).
  rewrite (proj2 (Z.ltb_lt _ _) Hover), Hd. reflexivity.
Qed.

Lemma capacity_reset_pooled (t : Tier) (r : nat) (b : Buffer) (s : State) :
  buffers s !! r = Some b ->
  capacity (set_tier_pool t (fun p => mkSyncPool (r :: idle p))
              (set_buffers (fun bs => <[r := mkBuffer (buf_arr b) 0]> bs) s)) r
  = capacity s r.
Proof.
  intros Hr. rewrite (capacity_eq s r b Hr).
  unfold capacity, cells_of. destruct t; simpl;
    rewrite list_lookup_insert_eq by (now apply lookup_lt_Some in Hr); reflexivity.
Qed.

(** Without it, the oversized buffer is pooled at the capacity it has. *)
Lemma Put_keeps_oversized (r : nat) (b : Buffer) (s : State) :
  enabled s = true -> buffers s !! r = Some b -> buffer_ok s b ->
  maxPoolSize s < Z.of_nat (capacity s r) -> discardOversized s = false ->
  exists s' t, pool.Put (Some r) s = Ok tt s' /\ routed_to t r s s' /\
               capacity s' r = capacity s r.
Proof.
  intros En Hr Hb Hover Hd. rewrite (Put_enabled r b s En Hr Hb).
  rewrite Hd, andb_false_r.
  eexists. exists (if Z.of_nat (capacity s r) <? poolThreshold s then Small else Large).
  split; [reflexivity|]. split.
  - destruct (Z.of_nat (capacity s r) <? poolThreshold s); split; reflexivity.
  - apply (capacity_reset_pooled _ r b s Hr).
Qed.

(** C2, at the input where the code departs from it.  After
    [SetMaxPoolSize(8, false)] a buffer of capacity 16 is put into the small
    registry with its capacity still 16: nothing resizes it to 8. *)
Theorem Put_oversized_not_truncated :
  exists buf s',
    release_oversized_without_discard init_state = Ok buf s' /\
    buf = Some 0%nat /\
    idle (smallPool s') = [0%nat] /\
    Buffer_Cap buf s' = Ok 16 s' /\
    pool.MaxPoolSize s' = Ok 8 s' /\
    pool.DiscardOversized s' = Ok false s'.
Proof.
  eexists _, _. split; [reflexivity|]. repeat split.
Qed.

Lemma Get_origin (rt : Runtime) (pick : option nat) (hint : Z) (s s' : State) (r : nat) :
  pool.Get rt pick hint s = Ok (Some r) s' ->
  r = length (buffers s) \/
  (enabled s = true /\ r ∈ idle (tier_pool (tier_of_hint s hint) s)).
Proof.
  unfold pool.Get, bind, pool.Enabled, pool.PoolThreshold.
  destruct (enabled s) eqn:En; cbn [negb]; cbv beta iota.
  - assert (Et : (if hint <? poolThreshold s then SyncPool_Get Small pick
                  else SyncPool_Get Large pick) s
                 = SyncPool_Get (tier_of_hint s hint) pick s).
    { unfold tier_of_hint. now destruct (hint <? poolThreshold s). }
    rewrite Et.
    destruct (SyncPool_Get_cases (tier_of_hint s hint) pick s) as [(i & r0 & Hi & E)|E];
      rewrite E; intros H.
    + right. split; [reflexivity|].
      destruct (Buffer_Reset _ _) as [[] s2|]; [|discriminate H].
      destruct (0 <? hint);
        [destruct (Buffer_Grow rt (Some r0) hint s2) as [[] s3|]; [|discriminate H]|];
        injection H as <- _; apply list_elem_of_lookup; eauto.
    + left.
      destruct (Buffer_Reset _ _) as [[] s2|]; [|discriminate H].
      destruct (0 <? hint);
        [destruct (Buffer_Grow rt _ hint s2) as [[] s3|]; [|discriminate H]|];
        now injection H as <- _.
  - destruct (make_cases hint s) as [E|E]; rewrite E; [discriminate|].
    intros H. left. now injection H as <- _.
Qed.

(** C3.  With pooling enabled, a buffer that [Put] keeps goes into the small
    registry when its capacity is below the threshold and into the large one
    otherwise; nothing else decides.  In particular a buffer acquired with
    hint [threshold - 1], so new or drawn from the small registry, that then
    received at least [threshold] bytes has a capacity of at least the
    threshold and goes into the large registry. *)
Theorem Put_routes_by_capacity (rt : Runtime) (s : State) :
  wf s -> enabled s = true ->
  (forall r, (r < length (buffers s))%nat -> not_oversized s r ->
     exists s', pool.Put (Some r) s = Ok tt s' /\
                routed_to (tier_of_capacity s r) r s s') /\
  (forall pick data, poolThreshold s <= Z.of_nat (length data) ->
     exists r s1 s2,
       pool.Get rt pick (poolThreshold s - 1) s = Ok (Some r) s1 /\
       (r = length (buffers s) \/ r ∈ idle (smallPool s)) /\
       Buffer_Write rt (Some r) data s1 = Ok tt s2 /\
       poolThreshold s2 <= Z.of_nat (capacity s2 r) /\
       (not_oversized s2 r ->
        exists s3, pool.Put (Some r) s2 = Ok tt s3 /\ routed_to Large r s2 s3)).
Proof.
  intros Hwf En.
  assert (Hgen : forall s0 r b, enabled s0 = true -> buffers s0 !! r = Some b ->
            buffer_ok s0 b -> not_oversized s0 r ->
            exists s', pool.Put (Some r) s0 = Ok tt s' /\
                       routed_to (tier_of_capacity s0 r) r s0 s').
  { intros s0 r b En0 Hr Hb Hno. rewrite (Put_enabled r b s0 En0 Hr Hb).
    assert (Hkeep : (maxPoolSize s0 <? Z.of_nat (capacity s0 r)) && discardOversized s0
                    = false).
    { destruct Hno as [Hle|Hd].
      - now rewrite (proj2 (Z.ltb_ge _ _) Hle).
      - rewrite Hd. apply andb_false_r. }
    rewrite Hkeep. eexists. split; [reflexivity|].
    unfold tier_of_capacity.
    destruct (Z.of_nat (capacity s0 r) <? poolThreshold s0); split; reflexivity. }
  split.
  - intros r Hlt Hno. destruct (lookup_lt_is_Some_2 _ _ Hlt) as [b Hr].
    destruct Hwf as [[Hok _] _]. exact (Hgen s r b En Hr (Hok r b Hr) Hno).
  - intros pick data Hdata.
    destruct (Get_acquires rt pick (poolThreshold s - 1) s Hwf (or_intror En))
      as (r & s1 & E1 & A1 & Hl1 & _).
    destruct (acquires_lookup r s s1 A1) as (b1 & Hr1 & Hb1).
    destruct (Buffer_Write_written rt r b1 data s1 Hr1 Hb1) as (s2 & E2 & W2).
    destruct (written_valid r data s1 s2 (lookup_lt_Some _ _ _ Hr1) W2) as (b2 & Hr2 & Hb2).
    pose proof (acq_settings _ _ _ A1) as Hset. unfold settings in Hset.
    injection Hset as _ Hth1 _ _ Hen1.
    pose proof (mut_rest _ _ _ (wr_mutates _ _ _ _ W2)) as Hrest. unfold rest_of in Hrest.
    injection Hrest as _ Hth2 _ _ Hen2 _ _.
    assert (Hcap : poolThreshold s2 <= Z.of_nat (capacity s2 r)).
    { pose proof (wr_contents _ _ _ _ W2) as Hc.
      rewrite (contents_empty s1 r Hl1) in Hc. simpl in Hc.
      rewrite (contents_eq s2 r b2 Hr2) in Hc.
      apply (f_equal length) in Hc. rewrite length_take in Hc.
      destruct Hb2 as [Hlen _]. rewrite (capacity_eq s2 r b2 Hr2). lia. }
    exists r, s1, s2. split; [exact E1|]. split.
    { destruct (Get_origin rt pick _ s s1 r E1) as [Hfresh|[_ Hin]]; [now left|right].
      unfold tier_of_hint in Hin.
      now rewrite (proj2 (Z.ltb_lt (poolThreshold s - 1) (poolThreshold s))) in Hin by lia. }
    split; [exact E2|]. split; [exact Hcap|].
    intros Hno.
    destruct (Hgen s2 r b2 ltac:(congruence) Hr2 Hb2 Hno) as (s3 & E3 & R3).
    exists s3. split; [exact E3|].
    unfold tier_of_capacity in R3.
    now rewrite (proj2 (Z.ltb_ge _ _) Hcap) in R3.
Qed.

Lemma wf_one_buffer_state : wf one_buffer_state.
Proof.
  split; split.
  - intros [|r] b H; [|discriminate H]. injection H as <-.
    split; [simpl; lia|simpl; lia].
  - intros [|r1] [|r2] b1 b2 a H1 H2; try discriminate H1; try discriminate H2.
    reflexivity.
  - intros r H. simpl in H. inversion H.
  - simpl. constructor.
Qed.

Lemma Put_routes_by_capacity_witness :
  (exists s', pool.Put (Some 0%nat) one_buffer_state = Ok tt s' /\
              routed_to Large 0 one_buffer_state s') /\
  (exists r s1 s2,
     pool.Get exact_runtime (Some 0%nat) 7 one_buffer_state = Ok (Some r) s1 /\
     (r = length (buffers one_buffer_state) \/ r ∈ idle (smallPool one_buffer_state)) /\
     Buffer_Write exact_runtime (Some r) (bytes_of "12345678") s1 = Ok tt s2 /\
     poolThreshold s2 <= Z.of_nat (capacity s2 r) /\
     (not_oversized s2 r ->
      exists s3, pool.Put (Some r) s2 = Ok tt s3 /\ routed_to Large r s2 s3)).
Proof.
  destruct (Put_routes_by_capacity exact_runtime one_buffer_state
              wf_one_buffer_state eq_refl) as [H1 H2].
  split.
  - apply (H1 0%nat); [simpl; lia|left; vm_compute; discriminate].
  - apply (H2 (Some 0%nat) (bytes_of "12345678")). vm_compute. discriminate.
Defined.

(** C5, as the code has it.  Within what the runtime can serve
    ([within_limit]: the hint, and twice the size of every array, within
    [maxAlloc]), [Get] returns a buffer for every hint that is not negative,
    in every state of the pool, and for a negative hint as well while
    pooling is enabled; the buffer is freshly allocated when pooling is
    disabled or the registry for the hint is empty.  [Put] returns for every
    buffer, and on the nil buffer or with pooling disabled it leaves the
    state as it was. *)
Theorem Get_Put_never_fail (rt : Runtime) (pick : option nat) (hint : Z) (s : State) :
  wf s ->
  (0 <= hint \/ enabled s = true -> within_limit s hint ->
     exists r s', pool.Get rt pick hint s = Ok (Some r) s' /\
                  (enabled s = false \/ idle (tier_pool (tier_of_hint s hint) s) = [] ->
                   r = length (buffers s))) /\
  pool.Put None s = Ok tt s /\
  (enabled s = false -> forall buf, pool.Put buf s = Ok tt s) /\
  (forall r, (r < length (buffers s))%nat -> exists s', pool.Put (Some r) s = Ok tt s').
Proof.
  intros Hwf. split; [|split; [|split]].
  - intros Hdom [Hmax _].
    assert (Hdom' : 0 <= hint <= maxAlloc \/ enabled s = true).
    { destruct Hdom as [Hh|En]; [left; now split|now right]. }
    destruct (Get_acquires rt pick hint s Hwf Hdom') as (r & s' & E & _).
    exists r, s'. split; [exact E|].
    intros Hfresh. destruct (Get_origin rt pick hint s s' r E) as [Hr|[En Hin]];
      [exact Hr|].
    destruct Hfresh as [Hdis|Hempty]; [congruence|].
    rewrite Hempty in Hin. inversion Hin.
  - apply Put_nil.
  - intros En buf. now apply Put_disabled.
  - intros r Hlt. destruct (enabled s) eqn:En.
    + destruct (lookup_lt_is_Some_2 _ _ Hlt) as [b Hr].
      destruct Hwf as [[Hok _] _].
      rewrite (Put_enabled r b s En Hr (Hok r b Hr)). eauto.
    + rewrite (Put_disabled (Some r) s En). eauto.
Qed.

Lemma Get_Put_never_fail_witness :
  (exists r s', pool.Get exact_runtime None 0 one_buffer_state = Ok (Some r) s' /\
                r = length (buffers one_buffer_state)) /\
  pool.Put None one_buffer_state = Ok tt one_buffer_state /\
  (exists s', pool.Put (Some 0%nat) one_buffer_state = Ok tt s').
Proof.
  destruct (Get_Put_never_fail exact_runtime None 0 one_buffer_state
              wf_one_buffer_state) as (HG & HN & _ & HP).
  split; [|split].
  - destruct (HG (or_introl (Z.le_refl 0))) as (r & s' & E & Hfresh).
    { split; [discriminate|]. repeat constructor. discriminate. }
    exists r, s'. split; [exact E|]. apply Hfresh. right. reflexivity.
  - exact HN.
  - apply (HP 0%nat). simpl. lia.
Defined.

(** C5 as stated fails: with pooling disabled, [Get(-1)] panics in [make]. *)
Lemma Get_negative_hint_panics_when_disabled :
  acquire_negative_when_disabled exact_runtime init_state = Panic MakesliceCapOutOfRange.
Proof. reflexivity. Qed.

(** ** Render *)

Lemma Render_no_writer (rt : Runtime) (n : Node) (pick : option nat) (w : list Writer)
    (s : State) (ws : list string) :
  wf s -> no_writer w = true -> chunks n = Some ws ->
  exists r s1 s' b,
    pool.Get rt pick 0 s = Ok (Some r) s1 /\ acquires r s s1 /\
    written r (rendering ws) s1 s' /\
    buffers s' !! r = Some b /\
    Render rt n pick w s = Ok (mkSlice (buf_arr b) 0 (buf_len b)) s' /\
    read_slice s' (mkSlice (buf_arr b) 0 (buf_len b)) = rendering ws.
Proof.
  intros Hwf Hw Hch.
  destruct (Get_acquires rt pick 0 s Hwf (or_introl hint_zero))
    as (r & s1 & E1 & A1 & Hl1 & _).
  destruct (acquires_lookup r s s1 A1) as (b1 & Hr1 & Hb1).
  destruct (WriteStrings_written rt r ws s1 b1 Hr1 Hb1) as (s' & E2 & W2).
  destruct (written_valid r _ s1 s' (lookup_lt_Some _ _ _ Hr1) W2) as (b & Hr & Hb).
  destruct (Buffer_Bytes_ok r b s' Hr) as [EB ER].
  exists r, s1, s', b.
  split; [exact E1|]. split; [exact A1|]. split; [exact W2|]. split; [exact Hr|].
  split.
  - assert (Hbody : Render rt n pick w s
                    = bind (NewBuffer rt pick [])
                        (fun buf => bind (RenderBuilder rt n buf)
                                      (fun _ => Buffer_Bytes buf)) s).
    { destruct n; try discriminate Hch;
        destruct w as [|[w0|] w']; try discriminate Hw; reflexivity. }
    rewrite Hbody. unfold bind, NewBuffer. rewrite E1.
    rewrite (RenderBuilder_chunks rt n (Some r) ws s1 Hch), E2. exact EB.
  - rewrite ER, (wr_contents _ _ _ _ W2), (contents_empty s1 r Hl1). reflexivity.
Qed.

Lemma Get_panics (rt : Runtime) (pick : option nat) (hint : Z) (s : State) :
  hint < 0 \/ maxAlloc < hint -> enabled s = false ->
  pool.Get rt pick hint s = Panic MakesliceCapOutOfRange.
Proof.
  intros Hh En. unfold pool.Get, bind, pool.Enabled. rewrite En. cbn [negb].
  cbv beta iota. now rewrite (make_panics hint s Hh).
Qed.

Lemma Get_Ok_acquires (rt : Runtime) (pick : option nat) (hint : Z) (s s' : State)
    (p : BufPtr) :
  wf s -> pool.Get rt pick hint s = Ok p s' ->
  exists r, p = Some r /\ acquires r s s'.
Proof.
  intros Hwf E.
  destruct (enabled s) eqn:En.
  - destruct (Get_acquires rt pick hint s Hwf (or_intror En)) as (r & s0 & E0 & A & _).
    rewrite E0 in E. injection E as <- <-. eauto.
  - destruct (Z.lt_ge_cases hint 0) as [Hlo|Hlo];
      [rewrite (Get_panics rt pick hint s (or_introl Hlo) En) in E; discriminate E|].
    destruct (Z.lt_ge_cases maxAlloc hint) as [Hhi|Hhi];
      [rewrite (Get_panics rt pick hint s (or_intror Hhi) En) in E; discriminate E|].
    destruct (Get_acquires rt pick hint s Hwf (or_introl (conj Hlo Hhi)))
      as (r & s0 & E0 & A & _).
    rewrite E0 in E. injection E as <- <-. eauto.
Qed.

Lemma read_slice_keeps (s s' : State) (sl : Slice) :
  keeps_arrays s s' ->
  (forall a, s_arr sl = Some a -> (a < length (arrays s))%nat) ->
  read_slice s' sl = read_slice s sl.
Proof.
  intros Hk Hin. unfold read_slice. destruct (s_arr sl) as [a|]; [|reflexivity].
  destruct (lookup_lt_is_Some_2 _ _ (Hin a eq_refl)) as [cells Hc].
  now rewrite Hc, (Hk a cells Hc).
Qed.

Lemma read_slice_frame (r : nat) (s s' : State) (sl : Slice) :
  mutates r s s' ->
  (forall a, s_arr sl = Some a ->
             (a < length (arrays s))%nat /\
             forall b, buffers s !! r = Some b -> buf_arr b <> Some a) ->
  read_slice s' sl = read_slice s sl.
Proof.
  intros Hm Hin. unfold read_slice. destruct (s_arr sl) as [a|]; [|reflexivity].
  destruct (Hin a eq_refl) as [Hlt Hne].
  now rewrite (mut_frame _ _ _ Hm a Hlt Hne).
Qed.

Lemma written_wf (r : nat) (d : list byte) (s s1 s' : State) :
  acquires r s s1 -> written r d s1 s' ->
  wf s' /\ pooled s' = pooled s1.
Proof.
  intros A W. pose proof (wr_mutates _ _ _ _ W) as Hm.
  destruct (acq_wf _ _ _ A) as [Hheap Hpool]. split.
  - split.
    + apply (heap_ok_mutates r s1 s' Hheap Hm (wr_ok _ _ _ _ W)).
    + apply (pool_ok_mutates r s1 s' Hpool Hm).
  - pose proof (mut_rest _ _ _ Hm) as Hrest. unfold rest_of in Hrest.
    injection Hrest as _ _ _ _ _ Hsmall Hlarge. unfold pooled. congruence.
Qed.

(** C1, as the code has it.  [Render] without a writer returns [buf.Bytes()]:
    a slice of the acquired buffer's own array that reads as the rendering of
    the node.  The buffer is not released: it is in neither registry when
    [Render] returns, so no later [Get] hands it out, and the bytes of the
    slice stay what they were after any later [Get] and after any write to
    the buffer that [Get] returned. *)
Theorem Render_returns_view_of_unreleased_buffer
    (rt : Runtime) (n : Node) (pick : option nat) (w : list Writer)
    (s : State) (ws : list string) :
  wf s -> no_writer w = true -> chunks n = Some ws ->
  exists r b sl s',
    Render rt n pick w s = Ok sl s' /\
    read_slice s' sl = rendering ws /\
    buffers s' !! r = Some b /\ sl = mkSlice (buf_arr b) 0 (buf_len b) /\
    (r ∉ pooled s') /\ (forall x, x ∈ pooled s' -> x ∈ pooled s) /\ wf s' /\
    forall pick' hint p s2,
      pool.Get rt pick' hint s' = Ok p s2 ->
      p <> Some r /\ read_slice s2 sl = rendering ws /\
      forall data s3, Buffer_Write rt p data s2 = Ok tt s3 ->
                      read_slice s3 sl = rendering ws.
Proof.
  intros Hwf Hw Hch.
  destruct (Render_no_writer rt n pick w s ws Hwf Hw Hch)
    as (r & s1 & s' & b & E1 & A1 & W2 & Hr & ER & Eread).
  destruct (written_wf r _ s s1 s' A1 W2) as [Hwf' Hpooled].
  assert (Hnotin : r ∉ pooled s').
  { rewrite Hpooled. intros Hin. now destruct (acq_pools _ _ _ A1 r Hin). }
  assert (Hb : buffer_ok s' b) by (apply (wr_ok _ _ _ _ W2), Hr).
  exists r, b, (mkSlice (buf_arr b) 0 (buf_len b)), s'.
  split; [exact ER|]. split; [exact Eread|]. split; [exact Hr|].
  split; [reflexivity|]. split; [exact Hnotin|]. split.
  { intros x Hx. rewrite Hpooled in Hx. now destruct (acq_pools _ _ _ A1 x Hx). }
  split; [exact Hwf'|].
  intros pick' hint p s2 EG.
  destruct (Get_Ok_acquires rt pick' hint s' s2 p Hwf' EG) as (r' & -> & A').
  assert (Hne : r' <> r).
  { destruct (acq_origin _ _ _ A') as [->|Hin].
    - apply lookup_lt_Some in Hr. lia.
    - intros ->. exact (Hnotin Hin). }
  assert (Hslice : forall a, buf_arr b = Some a -> (a < length (arrays s'))%nat).
  { intros a Ea. destruct Hb as [_ Harr]. now rewrite Ea in Harr. }
  assert (Hread2 : read_slice s2 (mkSlice (buf_arr b) 0 (buf_len b)) = rendering ws).
  { rewrite <- Eread. apply (read_slice_keeps s' s2); [exact (acq_arrays _ _ _ A')|].
    exact Hslice. }
  split; [congruence|]. split; [exact Hread2|].
  intros data s3 EW.
  destruct (acquires_lookup r' s' s2 A') as (b2 & Hr2 & Hb2).
  destruct (Buffer_Write_written rt r' b2 data s2 Hr2 Hb2) as (s3' & EW' & W3).
  rewrite EW' in EW. injection EW as <-.
  rewrite <- Hread2.
  apply (read_slice_frame r' s2 s3' _ (wr_mutates _ _ _ _ W3)).
  intros a Ea. simpl in Ea.
  assert (Hrs2 : buffers s2 !! r = Some b).
  { rewrite (acq_others _ _ _ A' r); [exact Hr| congruence |].
    now apply lookup_lt_Some in Hr. }
  split.
  - destruct (lookup_lt_is_Some_2 _ _ (Hslice a Ea)) as [cells Hc].
    apply (lookup_lt_Some _ _ _ (acq_arrays _ _ _ A' a cells Hc)).
  - intros bx Hbx Eax. apply Hne.
    destruct (acq_wf _ _ _ A') as [[_ Hshare] _].
    assert (bx = b2) by congruence. subst bx.
    exact (Hshare r' r b2 b a Hr2 Hrs2 Eax Ea).
Qed.

Lemma Render_returns_view_of_unreleased_buffer_witness :
  exists r b sl s',
    Render exact_runtime (text.Text "A") None [] init_state = Ok sl s' /\
    read_slice s' sl = rendering ["A"%string] /\
    buffers s' !! r = Some b /\ sl = mkSlice (buf_arr b) 0 (buf_len b) /\
    (r ∉ pooled s') /\ (forall x, x ∈ pooled s' -> x ∈ pooled init_state) /\ wf s' /\
    forall pick' hint p s2,
      pool.Get exact_runtime pick' hint s' = Ok p s2 ->
      p <> Some r /\ read_slice s2 sl = rendering ["A"%string] /\
      forall data s3, Buffer_Write exact_runtime p data s2 = Ok tt s3 ->
                      read_slice s3 sl = rendering ["A"%string].
Proof.
  apply (Render_returns_view_of_unreleased_buffer
           exact_runtime (text.Text "A") None [] init_state ["A"%string]).
  - apply wf_init_state.
  - reflexivity.
  - reflexivity.
Defined.

(** C1 as stated fails: when [Render] returns, the buffer it acquired is in
    neither registry, and the slice returned is the buffer's own array, not a
    copy: writing to the buffer changes what the slice reads as. *)
Lemma Render_neither_releases_nor_copies :
  exists sl s' s2,
    Render exact_runtime (text.Text "A") None [] init_state = Ok sl s' /\
    buffers s' = [mkBuffer (Some 0%nat) 1] /\
    pooled s' = [] /\
    sl = mkSlice (Some 0%nat) 0 1 /\
    read_slice s' sl = bytes_of "A" /\
    reuse_buffer exact_runtime 0 "B" s' = Ok tt s2 /\
    read_slice s2 sl = bytes_of "B".
Proof.
  eexists _, _, _.
  split; [reflexivity|]. split; [reflexivity|]. split; [reflexivity|].
  split; [reflexivity|]. split; [reflexivity|]. split; reflexivity.
Qed.

(** C6.  The conditional built by [Condition(true).True(A).False(B)],
    followed by the list callback that returns [1, nil, 2], renders to the
    bytes of "A12": written one after the other into one acquired buffer,
    and as the two results of an enclosing list callback. *)
Theorem Render_example_A12
    (rt : Runtime) (pick : option nat) (w : list Writer) (s : State) :
  wf s -> no_writer w = true ->
  exists c,
    apply_calls (node.Condition true) example_calls s = Ok c s /\
    (exists r s1 s2 s3,
        NewBuffer rt pick [] s = Ok (Some r) s1 /\
        RenderBuilder rt (as_node c) (Some r) s1 = Ok tt s2 /\
        RenderBuilder rt example_list (Some r) s2 = Ok tt s3 /\
        contents s3 r = bytes_of "A12") /\
    (exists sl s',
        Render rt (node.FuncNodes (Some (fun _ => [as_node c; example_list]))) pick w s
          = Ok sl s' /\
        read_slice s' sl = bytes_of "A12").
Proof.
  intros Hwf Hw. eexists. split; [reflexivity|]. split.
  - destruct (Get_acquires rt pick 0 s Hwf (or_introl hint_zero))
      as (r & s1 & E1 & A1 & Hl1 & _).
    destruct (acquires_lookup r s s1 A1) as (b1 & Hr1 & Hb1).
    destruct (WriteStrings_written rt r ["A"%string] s1 b1 Hr1 Hb1) as (s2 & E2 & W2).
    destruct (written_valid r _ s1 s2 (lookup_lt_Some _ _ _ Hr1) W2) as (b2 & Hr2 & Hb2).
    destruct (WriteStrings_written rt r ["1"%string; "2"%string] s2 b2 Hr2 Hb2)
      as (s3 & E3 & W3).
    exists r, s1, s2, s3. split; [exact E1|]. split; [|split].
    + rewrite <- E2. now apply RenderBuilder_chunks.
    + rewrite <- E3. now apply RenderBuilder_chunks.
    + rewrite (wr_contents _ _ _ _ W3), (wr_contents _ _ _ _ W2),
        (contents_empty s1 r Hl1). reflexivity.
  - destruct (Render_no_writer rt
                (node.FuncNodes (Some (fun _ => [ConditionalBuilderV true (text.Text "A") (text.Text "B"); example_list])))
                pick w s ["A"%string; "1"%string; "2"%string] Hwf Hw eq_refl)
      as (r & s1 & s' & b & _ & _ & _ & _ & ER & Eread).
    eexists _, _. split; [exact ER|exact Eread].
Qed.

Lemma Render_example_A12_witness :
  exists c,
    apply_calls (node.Condition true) example_calls init_state = Ok c init_state /\
    (exists r s1 s2 s3,
        NewBuffer exact_runtime None [] init_state = Ok (Some r) s1 /\
        RenderBuilder exact_runtime (as_node c) (Some r) s1 = Ok tt s2 /\
        RenderBuilder exact_runtime example_list (Some r) s2 = Ok tt s3 /\
        contents s3 r = bytes_of "A12") /\
    (exists sl s',
        Render exact_runtime (node.FuncNodes (Some (fun _ => [as_node c; example_list])))
               None [] init_state = Ok sl s' /\
        read_slice s' sl = bytes_of "A12").
Proof.
  apply (Render_example_A12 exact_runtime None [] init_state).
  - apply wf_init_state.
  - reflexivity.
Defined.

(** C7.  An absent node writes nothing and raises nothing: for every buffer
    and state, [RenderBuilder] of a conditional whose condition is false and
    whose false branch is not set, and of a function component whose callback
    returns nil, returns with the state as it was; [Render] of either returns
    a slice that reads as the empty byte sequence. *)
Theorem absent_node_renders_nothing
    (rt : Runtime) (t : Node) (fn : unit -> Node) (buf : BufPtr)
    (pick : option nat) (w : list Writer) (s : State) :
  fn tt = Nil ->
  RenderBuilder rt (ConditionalBuilderV false t Nil) buf s = Ok tt s /\
  RenderBuilder rt (node.Func (Some fn)) buf s = Ok tt s /\
  (wf s -> no_writer w = true ->
   (exists sl s', Render rt (ConditionalBuilderV false t Nil) pick w s = Ok sl s' /\
                  read_slice s' sl = []) /\
   (exists sl s', Render rt (node.Func (Some fn)) pick w s = Ok sl s' /\
                  read_slice s' sl = [])).
Proof.
  intros Hfn. split; [reflexivity|]. split.
  - simpl. now rewrite Hfn.
  - intros Hwf Hw. split.
    + destruct (Render_no_writer rt (ConditionalBuilderV false t Nil) pick w s []
                  Hwf Hw eq_refl) as (r & s1 & s' & b & _ & _ & _ & _ & ER & Eread).
      eexists _, _. split; [exact ER|exact Eread].
    + assert (Hch : chunks (node.Func (Some fn)) = Some []).
      { simpl. now rewrite Hfn. }
      destruct (Render_no_writer rt (node.Func (Some fn)) pick w s [] Hwf Hw Hch)
        as (r & s1 & s' & b & _ & _ & _ & _ & ER & Eread).
      eexists _, _. split; [exact ER|exact Eread].
Qed.

Lemma absent_node_renders_nothing_witness :
  RenderBuilder exact_runtime (ConditionalBuilderV false (text.Text "A") Nil)
                (Some 0%nat) one_buffer_state = Ok tt one_buffer_state /\
  RenderBuilder exact_runtime (node.Func (Some (fun _ => Nil)))
                (Some 0%nat) one_buffer_state = Ok tt one_buffer_state /\
  (exists sl s', Render exact_runtime (ConditionalBuilderV false (text.Text "A") Nil)
                        None [] one_buffer_state = Ok sl s' /\
                 read_slice s' sl = []) /\
  (exists sl s', Render exact_runtime (node.Func (Some (fun _ => Nil)))
                        None [] one_buffer_state = Ok sl s' /\
                 read_slice s' sl = []).
Proof.
  destruct (absent_node_renders_nothing exact_runtime (text.Text "A") (fun _ => Nil)
              (Some 0%nat) None [] one_buffer_state eq_refl) as (H1 & H2 & H3).
  split; [exact H1|]. split; [exact H2|].
  apply H3; [apply wf_one_buffer_state|reflexivity].
Defined.

(** ** Determinism *)

Lemma static_tree_chunks (t : Node) :
  static_tree t = true -> exists ws, chunks t = Some ws.
Proof.
  induction t as [| |content dynamic|c t f IHt IHf| |fn IH| |fn IH|k out] using Node_ind;
    intros H; try discriminate H.
  - eexists. reflexivity.
  - simpl in H. apply andb_prop in H as [Ht Hf]. simpl.
    destruct c; simpl.
    + destruct (is_nil t) eqn:Et; simpl; [eauto|]. simpl in Ht. now apply IHt.
    + destruct (is_nil f) eqn:Ef; simpl; [eauto|]. simpl in Hf. now apply IHf.
Qed.

Lemma wf_set_enabled (v : bool) (s : State) : wf s -> wf (set_enabled v s).
Proof. intros H. exact H. Qed.

(** C9.  A tree built from ConditionalBuilder and TextNode renders to the
    same bytes in any two runs, whatever the state of the pool in each
    (enabled or disabled, registries empty or not) and whatever the registry
    yields; each run leaves the pool well formed for the next. *)
Theorem Render_deterministic
    (rt1 rt2 : Runtime) (t : Node) (pick1 pick2 : option nat)
    (w1 w2 : list Writer) (s1 s2 : State) :
  static_tree t = true -> wf s1 -> wf s2 ->
  no_writer w1 = true -> no_writer w2 = true ->
  exists sl1 s1' sl2 s2',
    Render rt1 t pick1 w1 s1 = Ok sl1 s1' /\
    Render rt2 t pick2 w2 s2 = Ok sl2 s2' /\
    read_slice s1' sl1 = read_slice s2' sl2 /\
    wf s1' /\ wf s2'.
Proof.
  intros Ht Hwf1 Hwf2 Hw1 Hw2.
  destruct (static_tree_chunks t Ht) as [ws Hch].
  destruct (Render_no_writer rt1 t pick1 w1 s1 ws Hwf1 Hw1 Hch)
    as (r1 & m1 & s1' & b1 & _ & A1 & W1 & _ & E1 & R1).
  destruct (Render_no_writer rt2 t pick2 w2 s2 ws Hwf2 Hw2 Hch)
    as (r2 & m2 & s2' & b2 & _ & A2 & W2 & _ & E2 & R2).
  eexists _, s1', _, s2'.
  split; [exact E1|]. split; [exact E2|]. split; [now rewrite R1, R2|].
  split.
  - apply (written_wf r1 _ s1 m1 s1' A1 W1).
  - apply (written_wf r2 _ s2 m2 s2' A2 W2).
Qed.

Lemma Render_deterministic_witness :
  exists sl1 s1' sl2 s2',
    Render exact_runtime (ConditionalBuilderV true (text.Text "A") (text.Text "B"))
           None [] init_state = Ok sl1 s1' /\
    Render exact_runtime (ConditionalBuilderV true (text.Text "A") (text.Text "B"))
           None [] (set_enabled false one_buffer_state) = Ok sl2 s2' /\
    read_slice s1' sl1 = read_slice s2' sl2 /\
    wf s1' /\ wf s2'.
Proof.
  apply (Render_deterministic exact_runtime exact_runtime
           (ConditionalBuilderV true (text.Text "A") (text.Text "B"))
           None None [] [] init_state (set_enabled false one_buffer_state)).
  - reflexivity.
  - apply wf_init_state.
  - apply wf_set_enabled, wf_one_buffer_state.
  - reflexivity.
  - reflexivity.
Defined.

(** * Further properties of the pool *)

Lemma Put_kept (r : nat) (b : Buffer) (s : State) :
  enabled s = true -> buffers s !! r = Some b -> buffer_ok s b ->
  not_oversized s r ->
  pool.Put (Some r) s = Ok tt (pooled_state r b s).
Proof.
  intros En Hr Hb Hno. rewrite (Put_enabled r b s En Hr Hb).
  assert (Hkeep : (maxPoolSize s <? Z.of_nat (capacity s r)) && discardOversized s
                  = false).
  { destruct Hno as [Hle|Hd].
    - now rewrite (proj2 (Z.ltb_ge _ _) Hle).
    - rewrite Hd. apply andb_false_r. }
  now rewrite Hkeep.
Qed.

Lemma pooled_state_frame (r : nat) (b : Buffer) (s : State) :
  arrays (pooled_state r b s) = arrays s /\
  buffers (pooled_state r b s) = <[r := mkBuffer (buf_arr b) 0]> (buffers s) /\
  settings (pooled_state r b s) = settings s.
Proof. unfold pooled_state. destruct (tier_of_capacity s r); repeat split. Qed.

Lemma pooled_state_pooled (r : nat) (b : Buffer) (s : State) (x : nat) :
  x ∈ pooled (pooled_state r b s) <-> x = r \/ x ∈ pooled s.
Proof.
  unfold pooled, pooled_state. destruct (tier_of_capacity s r); simpl.
  - rewrite elem_of_cons. reflexivity.
  - rewrite !elem_of_app, elem_of_cons. tauto.
Qed.

Lemma pooled_state_NoDup (r : nat) (b : Buffer) (s : State) :
  NoDup (pooled s) -> r ∉ pooled s -> NoDup (pooled (pooled_state r b s)).
Proof.
  unfold pooled, pooled_state. intros Hnd Hnot.
  destruct (tier_of_capacity s r); simpl.
  - apply NoDup_cons. split; assumption.
  - apply NoDup_app in Hnd as (N1 & N2 & N3). apply NoDup_app.
    split; [exact N1|]. split.
    + intros x Hx Hx'. apply elem_of_cons in Hx' as [->|Hx'].
      * apply Hnot, elem_of_app. now left.
      * exact (N2 x Hx Hx').
    + apply NoDup_cons. split; [|exact N3].
      intros Hin. apply Hnot, elem_of_app. now right.
Qed.

Lemma pooled_state_wf (r : nat) (b : Buffer) (s : State) :
  wf s -> buffers s !! r = Some b -> r ∉ pooled s -> wf (pooled_state r b s).
Proof.
  intros [Hheap [Hin Hnd]] Hr Hnot.
  destruct (pooled_state_frame r b s) as (Ea & Eb & _).
  assert (Hm : mutates r s (set_buffers (fun bs => <[r := mkBuffer (buf_arr b) 0]> bs) s)).
  { apply (mutates_store r b _ s Hr). reflexivity. }
  assert (Hheap' : heap_ok (set_buffers (fun bs => <[r := mkBuffer (buf_arr b) 0]> bs) s)).
  { apply (heap_ok_mutates r s _ Hheap Hm). intros b' Hb'. simpl in Hb'.
    rewrite list_lookup_insert_eq in Hb' by (now apply lookup_lt_Some in Hr).
    injection Hb' as <-. destruct Hheap as [Hok _]. destruct (Hok r b Hr) as [_ Harr].
    split; [simpl; lia|exact Harr]. }
  split.
  - destruct Hheap' as [Hok' Hshare']. unfold heap_ok, buffer_ok, cells_of.
    rewrite Ea, Eb. split; assumption.
  - split.
    + intros x Hx. rewrite Eb, length_insert.
      apply pooled_state_pooled in Hx as [->|Hx]; [now apply lookup_lt_Some in Hr|].
      now apply Hin.
    + now apply pooled_state_NoDup.
Qed.

Lemma pooled_state_buffer (r : nat) (b : Buffer) (s : State) :
  buffers s !! r = Some b ->
  buffers (pooled_state r b s) !! r = Some (mkBuffer (buf_arr b) 0) /\
  length_of (pooled_state r b s) r = 0%nat /\
  capacity (pooled_state r b s) r = capacity s r.
Proof.
  intros Hr. destruct (pooled_state_frame r b s) as (Ea & Eb & _).
  assert (E : buffers (pooled_state r b s) !! r = Some (mkBuffer (buf_arr b) 0)).
  { rewrite Eb. apply list_lookup_insert_eq. now apply lookup_lt_Some in Hr. }
  split; [exact E|]. split.
  - now rewrite (length_of_eq _ r _ E).
  - rewrite (capacity_eq _ r _ E), (capacity_eq s r b Hr).
    unfold cells_of. now rewrite Ea.
Qed.

Lemma Put_released (r : nat) (s : State) :
  wf s -> enabled s = true -> (r < length (buffers s))%nat -> r ∉ pooled s ->
  exists s',
    pool.Put (Some r) s = Ok tt s' /\
    wf s' /\
    (forall x, x ∈ pooled s' -> x = r \/ x ∈ pooled s) /\
    (forall x, x ∈ pooled s -> x ∈ pooled s') /\
    (r ∈ pooled s' <-> not_oversized s r) /\
    (r ∈ pooled s' -> length_of s' r = 0%nat /\ capacity s' r = capacity s r) /\
    arrays s' = arrays s /\ settings s' = settings s /\
    (forall r', r' <> r -> buffers s' !! r' = buffers s !! r').
Proof.
  intros Hwf En Hlt Hnot.
  destruct (lookup_lt_is_Some_2 _ _ Hlt) as [b Hr].
  assert (Hb : buffer_ok s b) by (destruct Hwf as [[Hok _] _]; exact (Hok r b Hr)).
  destruct (decide (Z.of_nat (capacity s r) <= maxPoolSize s)) as [Hle|Hover].
  - assert (Hno : not_oversized s r) by now left.
    exists (pooled_state r b s). split; [exact (Put_kept r b s En Hr Hb Hno)|].
    destruct (pooled_state_frame r b s) as (Ea & Eb & Es).
    destruct (pooled_state_buffer r b s Hr) as (_ & Hl & Hc).
    split; [now apply pooled_state_wf|].
    split; [intros x Hx; now apply pooled_state_pooled in Hx|].
    split; [intros x Hx; apply pooled_state_pooled; now right|].
    split; [split; [intros _; exact Hno|intros _; apply pooled_state_pooled; now left]|].
    split; [intros _; split; assumption|].
    split; [exact Ea|]. split; [exact Es|].
    intros r' Hne. rewrite Eb. now apply list_lookup_insert_ne.
  - destruct (discardOversized s) eqn:Hd.
    + exists s. split; [apply (Put_discards_oversized r b s En Hr Hb); [lia|exact Hd]|].
      split; [exact Hwf|]. split; [intros x Hx; now right|].
      split; [intros x Hx; exact Hx|].
      split; [split; [intros Hin; contradiction|]|].
      { intros [Hle|Hd']; [lia|congruence]. }
      split; [intros Hin; contradiction|].
      repeat split.
    + assert (Hno : not_oversized s r) by now right.
      exists (pooled_state r b s). split; [exact (Put_kept r b s En Hr Hb Hno)|].
      destruct (pooled_state_frame r b s) as (Ea & Eb & Es).
      destruct (pooled_state_buffer r b s Hr) as (_ & Hl & Hc).
      split; [now apply pooled_state_wf|].
      split; [intros x Hx; now apply pooled_state_pooled in Hx|].
      split; [intros x Hx; apply pooled_state_pooled; now right|].
      split; [split; [intros _; exact Hno|intros _; apply pooled_state_pooled; now left]|].
      split; [intros _; split; assumption|].
      split; [exact Ea|]. split; [exact Es|].
      intros r' Hne. rewrite Eb. now apply list_lookup_insert_ne.
Qed.

(** X1.  [Put] keeps the pool well formed.  For a buffer the caller holds
    (one that is in neither registry), with pooling enabled, [Put] returns;
    afterwards the store is well formed again, the registries hold what they
    held and at most the buffer released, no array cell and no other buffer
    has changed, the settings are what they were, and a buffer that was kept
    is empty and has the capacity it had. *)
Theorem Put_keeps_pool_well_formed (r : nat) (s : State) :
  wf s -> enabled s = true -> (r < length (buffers s))%nat -> r ∉ pooled s ->
  exists s',
    pool.Put (Some r) s = Ok tt s' /\
    wf s' /\
    (forall x, x ∈ pooled s' -> x = r \/ x ∈ pooled s) /\
    (forall x, x ∈ pooled s -> x ∈ pooled s') /\
    (r ∈ pooled s' <-> not_oversized s r) /\
    (r ∈ pooled s' -> length_of s' r = 0%nat /\ capacity s' r = capacity s r) /\
    arrays s' = arrays s /\ settings s' = settings s /\
    (forall r', r' <> r -> buffers s' !! r' = buffers s !! r').
Proof. exact (Put_released r s). Qed.

Lemma Put_keeps_pool_well_formed_witness :
  exists s',
    pool.Put (Some 0%nat) one_buffer_state = Ok tt s' /\
    wf s' /\
    (forall x, x ∈ pooled s' -> x = 0%nat \/ x ∈ pooled one_buffer_state) /\
    (forall x, x ∈ pooled one_buffer_state -> x ∈ pooled s') /\
    (0%nat ∈ pooled s' <-> not_oversized one_buffer_state 0) /\
    (0%nat ∈ pooled s' ->
     length_of s' 0 = 0%nat /\ capacity s' 0 = capacity one_buffer_state 0) /\
    arrays s' = arrays one_buffer_state /\ settings s' = settings one_buffer_state /\
    (forall r', r' <> 0%nat -> buffers s' !! r' = buffers one_buffer_state !! r').
Proof.
  apply (Put_keeps_pool_well_formed 0 one_buffer_state).
  - apply wf_one_buffer_state.
  - reflexivity.
  - simpl. lia.
  - intros H. inversion H.
Defined.

Lemma Buffer_grow_fits (rt : Runtime) (r : nat) (b : Buffer) (n : nat) (s : State) :
  buffers s !! r = Some b -> buffer_ok s b ->
  (buf_len b + n <= length (cells_of s (buf_arr b)))%nat ->
  Buffer_grow rt (Some r) n s = Ok (buf_len b) (reslice_state r b n s).
Proof.
  intros Hr Hb Hfit. unfold Buffer_grow, bind.
  rewrite (deref_ok r b s Hr), (tryGrowByReslice_ok r b n s Hr Hb).
  destruct (decide _) as [_|Hgt]; [reflexivity|contradiction].
Qed.

(** [Grow] on a buffer that has the room allocates nothing. *)
Lemma Buffer_Grow_fits (rt : Runtime) (r : nat) (b : Buffer) (n : Z) (s : State) :
  buffers s !! r = Some b -> buffer_ok s b -> 0 <= n ->
  (buf_len b + Z.to_nat n <= length (cells_of s (buf_arr b)))%nat ->
  exists s', Buffer_Grow rt (Some r) n s = Ok tt s' /\
             arrays s' = arrays s /\
             buffers s' = <[r := b]> (buffers s) /\
             rest_of s' = rest_of s.
Proof.
  intros Hr Hb Hn Hfit.
  assert (Hlt : (r < length (buffers s))%nat) by (now apply lookup_lt_Some in Hr).
  unfold Buffer_Grow. rewrite (proj2 (Z.ltb_ge n 0)) by exact Hn. unfold bind.
  rewrite (Buffer_grow_fits rt r b (Z.to_nat n) s Hr Hb Hfit).
  rewrite (deref_ok r (mkBuffer (buf_arr b) (buf_len b + Z.to_nat n)))
    by (simpl; now apply list_lookup_insert_eq).
  eexists. split; [reflexivity|]. simpl. split; [reflexivity|]. split; [|reflexivity].
  rewrite list_insert_insert_eq. destruct b; reflexivity.
Qed.

(** What [Get] does with the idle buffer it is handed. *)
Lemma Get_takes (rt : Runtime) (i : nat) (hint : Z) (s : State) (r : nat) (b : Buffer) :
  enabled s = true ->
  idle (tier_pool (tier_of_hint s hint) s) !! i = Some r ->
  buffers s !! r = Some b -> buffer_ok s b ->
  exists s' b',
    pool.Get rt (Some i) hint s = Ok (Some r) s' /\
    idle (tier_pool (tier_of_hint s hint) s')
      = delete i (idle (tier_pool (tier_of_hint s hint) s)) /\
    idle (tier_pool (other_tier (tier_of_hint s hint)) s')
      = idle (tier_pool (other_tier (tier_of_hint s hint)) s) /\
    settings s' = settings s /\
    keeps_arrays s s' /\
    length (buffers s') = length (buffers s) /\
    (forall r', r' <> r -> buffers s' !! r' = buffers s !! r') /\
    buffers s' !! r = Some b' /\ buf_len b' = 0%nat /\ buffer_ok s' b' /\
    (capacity s r <= capacity s' r)%nat /\
    (0 <= hint -> hint <= Z.of_nat (capacity s' r)) /\
    (hint <= Z.of_nat (capacity s r) ->
     arrays s' = arrays s /\ capacity s' r = capacity s r).
Proof.
  intros En Hi Hr Hb.
  set (t := tier_of_hint s hint) in *.
  unfold pool.Get, bind, pool.Enabled, pool.PoolThreshold.
  rewrite En. cbn [negb]. cbv beta iota.
  assert (Et : (if hint <? poolThreshold s then SyncPool_Get Small (Some i)
                else SyncPool_Get Large (Some i)) s = SyncPool_Get t (Some i) s).
  { subst t. unfold tier_of_hint. now destruct (hint <? poolThreshold s). }
  rewrite Et. clear Et. clearbody t.
  set (s1 := set_tier_pool t (fun p => mkSyncPool (delete i (idle p))) s).
  assert (E1 : SyncPool_Get t (Some i) s = Ok (Some r) s1).
  { unfold SyncPool_Get. simpl. rewrite Hi. reflexivity. }
  rewrite E1.
  destruct (set_tier_pool_frame t (fun p => mkSyncPool (delete i (idle p))) s)
    as (Ea1 & Eb1 & Es1).
  fold s1 in Ea1, Eb1, Es1.
  assert (Hr1 : buffers s1 !! r = Some b) by now rewrite Eb1.
  assert (Hb1 : buffer_ok s1 b).
  { unfold buffer_ok, cells_of. rewrite Ea1. exact Hb. }
  assert (Ht1 : idle (tier_pool t s1) = delete i (idle (tier_pool t s)) /\
                idle (tier_pool (other_tier t) s1) = idle (tier_pool (other_tier t) s)).
  { subst s1. destruct t; split; reflexivity. }
  rewrite (Buffer_Reset_ok r b s1 Hr1).
  set (s2 := set_buffers (fun bs => <[r := mkBuffer (buf_arr b) 0]> bs) s1).
  assert (Hlt : (r < length (buffers s1))%nat) by (now apply lookup_lt_Some in Hr1).
  assert (Hr2 : buffers s2 !! r = Some (mkBuffer (buf_arr b) 0)).
  { simpl. now apply list_lookup_insert_eq. }
  assert (Hb2 : buffer_ok s2 (mkBuffer (buf_arr b) 0)).
  { destruct Hb1 as [_ Harr]. split; [simpl; lia|exact Harr]. }
  assert (Hc2 : capacity s2 r = capacity s r).
  { rewrite (capacity_eq s2 r _ Hr2), (capacity_eq s r b Hr). unfold cells_of.
    simpl. now rewrite Ea1. }
  assert (Hpools2 : forall s3, rest_of s3 = rest_of s2 ->
            idle (tier_pool t s3) = delete i (idle (tier_pool t s)) /\
            idle (tier_pool (other_tier t) s3) = idle (tier_pool (other_tier t) s) /\
            settings s3 = settings s).
  { intros s3 H3. unfold rest_of in H3. simpl in H3.
    injection H3 as E1' E2' E3' E4' E5' E6' E7'.
    destruct Ht1 as [Ht1 Ht1']. unfold settings in *.
    injection Es1 as F1 F2 F3 F4 F5.
    split; [|split].
    - rewrite <- Ht1. destruct t; cbn [tier_pool]; [rewrite E6'|rewrite E7']; reflexivity.
    - rewrite <- Ht1'.
      destruct t; cbn [tier_pool other_tier]; [rewrite E7'|rewrite E6']; reflexivity.
    - congruence. }
  destruct (Z.ltb_spec 0 hint) as [Hpos|Hnpos].
  - destruct (Buffer_Grow_ok rt r _ hint s2 Hr2 Hb2 ltac:(lia))
      as (s3 & b3 & E3 & Hm3 & Hk3 & Hr3 & Hl3 & Hb3 & Hcap3).
    rewrite E3. exists s3, b3. split; [reflexivity|].
    destruct (Hpools2 s3 (mut_rest _ _ _ Hm3)) as (P1 & P2 & P3).
    split; [exact P1|]. split; [exact P2|]. split; [exact P3|].
    split.
    { intros a cells H. apply Hk3. simpl. now rewrite Ea1. }
    split; [rewrite (mut_buffers _ _ _ Hm3); simpl; now rewrite length_insert, Eb1|].
    split.
    { intros r' Hne. rewrite (mut_others _ _ _ Hm3 r' Hne). simpl.
      rewrite list_lookup_insert_ne by congruence. now rewrite Eb1. }
    split; [exact Hr3|]. split; [exact Hl3|]. split; [exact Hb3|].
    assert (Hfits : (Z.to_nat hint <= capacity s2 r)%nat ->
                    arrays s3 = arrays s2 /\ capacity s3 r = capacity s2 r).
    { intros Hfit.
      destruct (Buffer_Grow_fits rt r _ hint s2 Hr2 Hb2 ltac:(lia)) as (s3' & E3' & A3 & B3 & _).
      { rewrite <- (capacity_eq s2 r _ Hr2). cbn [buf_len]. lia. }
      rewrite E3' in E3. injection E3 as <-. split; [exact A3|].
      rewrite B3 in Hr3.
      rewrite list_lookup_insert_eq in Hr3 by (now apply lookup_lt_Some in Hr2).
      injection Hr3 as <-.
      unfold capacity. rewrite B3, Hr2.
      rewrite list_lookup_insert_eq by (now apply lookup_lt_Some in Hr2).
      unfold cells_of. now rewrite A3. }
    assert (Hcap : (Z.to_nat hint <= capacity s3 r)%nat).
    { rewrite (capacity_eq s3 r b3 Hr3). simpl in Hcap3. lia. }
    split.
    { destruct (decide (Z.to_nat hint <= capacity s2 r)%nat) as [Hfit|Hnofit].
      - destruct (Hfits Hfit) as [_ ->]. lia.
      - lia. }
    split; [intros _; lia|].
    intros Hfit. destruct (Hfits ltac:(lia)) as [A3 C3].
    split; [rewrite A3; simpl; exact Ea1|lia].
  - exists s2, (mkBuffer (buf_arr b) 0). split; [reflexivity|].
    destruct (Hpools2 s2 eq_refl) as (P1 & P2 & P3).
    split; [exact P1|]. split; [exact P2|]. split; [exact P3|].
    split; [intros a cells H; simpl; now rewrite Ea1|].
    split; [simpl; now rewrite length_insert, Eb1|].
    split.
    { intros r' Hne. simpl. rewrite list_lookup_insert_ne by congruence. now rewrite Eb1. }
    split; [exact Hr2|]. split; [reflexivity|]. split; [exact Hb2|].
    split; [lia|]. split; [intros H0; lia|].
    intros _. split; [simpl; exact Ea1|exact Hc2].
Qed.

Lemma pooled_state_head (r : nat) (b : Buffer) (s : State) :
  idle (tier_pool (tier_of_capacity s r) (pooled_state r b s))
    = r :: idle (tier_pool (tier_of_capacity s r) s) /\
  idle (tier_pool (other_tier (tier_of_capacity s r)) (pooled_state r b s))
    = idle (tier_pool (other_tier (tier_of_capacity s r)) s).
Proof. unfold pooled_state. destruct (tier_of_capacity s r); split; reflexivity. Qed.

Lemma pooled_state_tiers (r : nat) (b : Buffer) (s : State) (hint : Z) :
  buffers s !! r = Some b ->
  tier_of_hint (pooled_state r b s) hint = tier_of_hint s hint /\
  tier_of_capacity (pooled_state r b s) r = tier_of_capacity s r /\
  (not_oversized s r -> not_oversized (pooled_state r b s) r) /\
  enabled (pooled_state r b s) = enabled s.
Proof.
  intros Hr. destruct (pooled_state_frame r b s) as (_ & _ & Es).
  destruct (pooled_state_buffer r b s Hr) as (_ & _ & Hc).
  unfold settings in Es. injection Es as _ Hth Hmx Hd Hen.
  unfold tier_of_hint, tier_of_capacity, not_oversized.
  rewrite Hth, Hc, Hmx, Hd. repeat split; auto.
Qed.

Lemma pooled_state_buffer_ok (r : nat) (b : Buffer) (s : State) :
  buffers s !! r = Some b -> buffer_ok s b ->
  buffer_ok (pooled_state r b s) (mkBuffer (buf_arr b) 0).
Proof.
  intros Hr [_ Harr]. destruct (pooled_state_frame r b s) as (Ea & _ & _).
  unfold buffer_ok. rewrite Ea. split; [simpl; lia|exact Harr].
Qed.

(** X2.  A released buffer is reused.  With pooling enabled, after [Put]
    has kept a buffer, a [Get] whose hint the runtime can serve
    ([within_limit]) and selects the registry the buffer went to, and to
    which the registry yields its newest entry, returns that same buffer:
    empty, with at least the capacity it had, and both registries as they
    were before the [Put].  When the hint does not exceed that capacity the
    round trip allocates nothing: no array, no buffer object, and the
    capacity is unchanged. *)
Theorem Put_then_Get_reuses_buffer (rt : Runtime) (r : nat) (hint : Z) (s : State) :
  wf s -> enabled s = true -> (r < length (buffers s))%nat ->
  not_oversized s r -> tier_of_hint s hint = tier_of_capacity s r ->
  within_limit s hint ->
  exists s1 s2,
    pool.Put (Some r) s = Ok tt s1 /\
    pool.Get rt (Some 0%nat) hint s1 = Ok (Some r) s2 /\
    length_of s2 r = 0%nat /\
    (capacity s r <= capacity s2 r)%nat /\
    idle (smallPool s2) = idle (smallPool s) /\
    idle (largePool s2) = idle (largePool s) /\
    (hint <= Z.of_nat (capacity s r) ->
     arrays s2 = arrays s /\ length (buffers s2) = length (buffers s) /\
     capacity s2 r = capacity s r).
Proof.
  intros Hwf En Hlt Hno Htier _.
  destruct (lookup_lt_is_Some_2 _ _ Hlt) as [b Hr].
  assert (Hb : buffer_ok s b) by (destruct Hwf as [[Hok _] _]; exact (Hok r b Hr)).
  set (s1 := pooled_state r b s).
  destruct (pooled_state_frame r b s) as (Ea & Eb & Es).
  destruct (pooled_state_buffer r b s Hr) as (Hr1 & Hl1 & Hc1).
  destruct (pooled_state_tiers r b s hint Hr) as (Ht1 & _ & _ & En1).
  destruct (pooled_state_head r b s) as [Hhead Hother].
  fold s1 in Ea, Eb, Es, Hr1, Hl1, Hc1, Ht1, En1, Hhead, Hother.
  assert (Hi : idle (tier_pool (tier_of_hint s1 hint) s1) !! 0%nat = Some r).
  { rewrite Ht1, Htier, Hhead. reflexivity. }
  destruct (Get_takes rt 0 hint s1 r _ ltac:(congruence) Hi Hr1
              (pooled_state_buffer_ok r b s Hr Hb))
    as (s2 & b2 & E2 & P1 & P2 & _ & _ & Hlen2 & _ & Hr2 & Hl2 & _ & Hmono & _ & Hfit).
  exists s1, s2. split; [exact (Put_kept r b s En Hr Hb Hno)|].
  split; [exact E2|]. split; [now rewrite (length_of_eq s2 r b2 Hr2)|].
  split; [lia|].
  rewrite Ht1, Htier, Hhead in P1. rewrite Ht1, Htier, Hother in P2. simpl in P1.
  split; [|split].
  - destruct (tier_of_capacity s r); simpl in *; assumption.
  - destruct (tier_of_capacity s r); simpl in *; assumption.
  - intros Hle. destruct (Hfit ltac:(lia)) as [A2 C2].
    split; [congruence|]. split; [|lia].
    rewrite Hlen2, Eb. apply length_insert.
Qed.

Lemma Put_then_Get_reuses_buffer_witness :
  exists s1 s2,
    pool.Put (Some 0%nat) one_buffer_state = Ok tt s1 /\
    pool.Get exact_runtime (Some 0%nat) 10 s1 = Ok (Some 0%nat) s2 /\
    length_of s2 0 = 0%nat /\
    (capacity one_buffer_state 0 <= capacity s2 0)%nat /\
    idle (smallPool s2) = idle (smallPool one_buffer_state) /\
    idle (largePool s2) = idle (largePool one_buffer_state) /\
    (10 <= Z.of_nat (capacity one_buffer_state 0) ->
     arrays s2 = arrays one_buffer_state /\
     length (buffers s2) = length (buffers one_buffer_state) /\
     capacity s2 0 = capacity one_buffer_state 0).
Proof.
  apply (Put_then_Get_reuses_buffer exact_runtime 0 10 one_buffer_state).
  - apply wf_one_buffer_state.
  - reflexivity.
  - simpl. lia.
  - left. vm_compute. discriminate.
  - reflexivity.
  - split; [discriminate|]. repeat constructor. discriminate.
Defined.

(** X3.  [Put] does not look whether the buffer is already pooled.  A
    buffer released twice sits in its registry twice, and two later calls of
    [Get] that take the newest entry, each with a hint that the runtime can
    serve in the state it is called in ([within_limit]), both return it: two
    callers then hold the same buffer. *)
Theorem double_Put_hands_buffer_out_twice
    (rt : Runtime) (r : nat) (h1 h2 : Z) (s : State) :
  wf s -> enabled s = true -> (r < length (buffers s))%nat ->
  not_oversized s r ->
  tier_of_hint s h1 = tier_of_capacity s r ->
  tier_of_hint s h2 = tier_of_capacity s r ->
  within_limit s h1 ->
  exists s1 s2 s3,
    pool.Put (Some r) s = Ok tt s1 /\
    pool.Put (Some r) s1 = Ok tt s2 /\
    idle (tier_pool (tier_of_capacity s r) s2)
      = r :: r :: idle (tier_pool (tier_of_capacity s r) s) /\
    pool.Get rt (Some 0%nat) h1 s2 = Ok (Some r) s3 /\
    (within_limit s3 h2 ->
     exists s4, pool.Get rt (Some 0%nat) h2 s3 = Ok (Some r) s4).
Proof.
  intros Hwf En Hlt Hno Ht1 Ht2 _.
  destruct (lookup_lt_is_Some_2 _ _ Hlt) as [b Hr].
  assert (Hb : buffer_ok s b) by (destruct Hwf as [[Hok _] _]; exact (Hok r b Hr)).
  set (t := tier_of_capacity s r) in *.
  (* first Put *)
  set (s1 := pooled_state r b s).
  destruct (pooled_state_buffer r b s Hr) as (Hr1 & _ & _).
  destruct (pooled_state_tiers r b s h1 Hr) as (_ & Hc1 & Hno1 & En1).
  destruct (pooled_state_head r b s) as [Hhead1 _].
  pose proof (pooled_state_buffer_ok r b s Hr Hb) as Hb1.
  fold s1 t in Hr1, Hc1, Hno1, En1, Hhead1, Hb1.
  (* second Put *)
  set (b1 := mkBuffer (buf_arr b) 0) in *.
  set (s2 := pooled_state r b1 s1).
  destruct (pooled_state_buffer r b1 s1 Hr1) as (Hr2 & _ & _).
  destruct (pooled_state_tiers r b1 s1 h1 Hr1) as (Hth1 & _ & _ & En2).
  destruct (pooled_state_tiers r b1 s1 h2 Hr1) as (Hth2 & _ & _ & _).
  destruct (pooled_state_tiers r b s h1 Hr) as (Hth1' & _).
  destruct (pooled_state_tiers r b s h2 Hr) as (Hth2' & _).
  destruct (pooled_state_head r b1 s1) as [Hhead2 _].
  pose proof (pooled_state_buffer_ok r b1 s1 Hr1 Hb1) as Hb2.
  fold s1 s2 in Hr2, Hth1, Hth2, Hth1', Hth2', En2, Hhead2, Hb2.
  rewrite Hc1 in Hhead2. fold t in Hhead2. rewrite Hhead1 in Hhead2.
  (* first Get *)
  assert (Hi3 : idle (tier_pool (tier_of_hint s2 h1) s2) !! 0%nat = Some r).
  { rewrite Hth1, Hth1', Ht1, Hhead2. reflexivity. }
  destruct (Get_takes rt 0 h1 s2 r _ ltac:(congruence) Hi3 Hr2 Hb2)
    as (s3 & b3 & E3 & P3 & _ & Es3 & _ & _ & _ & Hr3 & _ & Hb3 & _).
  (* second Get *)
  assert (Hth3 : tier_of_hint s3 h2 = t).
  { unfold tier_of_hint. unfold settings in Es3. injection Es3 as _ -> _ _ _.
    fold (tier_of_hint s2 h2). now rewrite Hth2, Hth2'. }
  assert (Hi4 : idle (tier_pool (tier_of_hint s3 h2) s3) !! 0%nat = Some r).
  { rewrite Hth3. rewrite Hth1, Hth1', Ht1, Hhead2 in P3. rewrite P3. reflexivity. }
  assert (En3 : enabled s3 = true).
  { unfold settings in Es3. injection Es3 as _ _ _ _ ->. congruence. }
  destruct (Get_takes rt 0 h2 s3 r _ En3 Hi4 Hr3 Hb3) as (s4 & b4 & E4 & _).
  exists s1, s2, s3.
  split; [exact (Put_kept r b s En Hr Hb Hno)|].
  split; [exact (Put_kept r b1 s1 ltac:(congruence) Hr1 Hb1 (Hno1 Hno))|].
  split; [exact Hhead2|]. split; [exact E3|].
  intros _. exists s4. exact E4.
Qed.

Lemma double_Put_hands_buffer_out_twice_witness :
  exists s1 s2 s3 s4,
    pool.Put (Some 0%nat) one_buffer_state = Ok tt s1 /\
    pool.Put (Some 0%nat) s1 = Ok tt s2 /\
    idle (tier_pool (tier_of_capacity one_buffer_state 0) s2)
      = 0%nat :: 0%nat :: idle (tier_pool (tier_of_capacity one_buffer_state 0)
                                          one_buffer_state) /\
    pool.Get exact_runtime (Some 0%nat) 8 s2 = Ok (Some 0%nat) s3 /\
    pool.Get exact_runtime (Some 0%nat) 100 s3 = Ok (Some 0%nat) s4.
Proof.
  destruct (double_Put_hands_buffer_out_twice exact_runtime 0 8 100 one_buffer_state)
    as (s1 & s2 & s3 & E1 & E2 & Hidle & E3 & H4).
  - apply wf_one_buffer_state.
  - reflexivity.
  - simpl. lia.
  - left. vm_compute. discriminate.
  - reflexivity.
  - reflexivity.
  - split; [discriminate|]. repeat constructor. discriminate.
  - destruct H4 as [s4 E4].
    + vm_compute in E1. injection E1 as <-.
      vm_compute in E2. injection E2 as <-.
      vm_compute in E3. injection E3 as <-.
      split; [discriminate|]. repeat constructor; discriminate.
    + exists s1, s2, s3, s4. repeat split; assumption.
Defined.

(** X4.  With pooling disabled nothing is reused.  For hints that are not
    negative and not beyond [maxAlloc], [Get] returns a buffer that did not
    exist before, on an array that did not exist before, and leaves both
    registries as they were; [Put] of it is a no-op; the next [Get] returns
    yet another new buffer on another new array. *)
Theorem disabled_pool_never_reuses
    (rt : Runtime) (pick1 pick2 : option nat) (h1 h2 : Z) (s : State) :
  wf s -> enabled s = false -> 0 <= h1 <= maxAlloc -> 0 <= h2 <= maxAlloc ->
  exists r1 s1 r2 s2 b1 b2,
    pool.Get rt pick1 h1 s = Ok (Some r1) s1 /\
    r1 = length (buffers s) /\
    smallPool s1 = smallPool s /\ largePool s1 = largePool s /\
    pool.Put (Some r1) s1 = Ok tt s1 /\
    pool.Get rt pick2 h2 s1 = Ok (Some r2) s2 /\
    r2 <> r1 /\
    smallPool s2 = smallPool s /\ largePool s2 = largePool s /\
    buffers s2 !! r1 = Some b1 /\ buffers s2 !! r2 = Some b2 /\
    buf_arr b1 = Some (length (arrays s)) /\
    buf_arr b2 = Some (S (length (arrays s))) /\
    wf s2.
Proof.
  intros Hwf En Hh1 Hh2.
  pose proof (Get_disabled rt pick1 h1 s En Hh1) as E1.
  set (s1 := set_buffers (fun bs => bs ++ [mkBuffer (Some (length (arrays s))) 0])
               (set_arrays (fun a => a ++ [zero_cells (Z.to_nat h1)]) s)) in *.
  assert (En1 : enabled s1 = false) by exact En.
  pose proof (Get_disabled rt pick2 h2 s1 En1 Hh2) as E2.
  destruct (Get_acquires rt pick1 h1 s Hwf (or_introl Hh1)) as (r1' & s1' & E1' & A1 & _).
  rewrite E1 in E1'. injection E1' as <- <-.
  destruct (Get_acquires rt pick2 h2 s1 (acq_wf _ _ _ A1) (or_introl Hh2))
    as (r2' & s2' & E2' & A2 & _).
  rewrite E2 in E2'. injection E2' as <- <-.
  eexists _, s1, _, _, _, _.
  split; [exact E1|]. split; [reflexivity|]. split; [reflexivity|]. split; [reflexivity|].
  split; [exact (Put_disabled _ s1 En1)|]. split; [exact E2|].
  split; [simpl; rewrite length_app; simpl; lia|].
  split; [reflexivity|]. split; [reflexivity|].
  split.
  { simpl. rewrite lookup_app_l by (rewrite length_app; simpl; lia). apply lookup_snoc. }
  split.
  { simpl. apply (lookup_snoc (buffers s ++ _)). }
  split; [reflexivity|]. split.
  { simpl. rewrite length_app. simpl. f_equal. lia. }
  exact (acq_wf _ _ _ A2).
Qed.

Lemma disabled_pool_never_reuses_witness :
  exists r1 s1 r2 s2 b1 b2,
    pool.Get exact_runtime (Some 0%nat) 4 (set_enabled false one_buffer_state)
      = Ok (Some r1) s1 /\
    r1 = length (buffers (set_enabled false one_buffer_state)) /\
    smallPool s1 = smallPool (set_enabled false one_buffer_state) /\
    largePool s1 = largePool (set_enabled false one_buffer_state) /\
    pool.Put (Some r1) s1 = Ok tt s1 /\
    pool.Get exact_runtime (Some 0%nat) 4 s1 = Ok (Some r2) s2 /\
    r2 <> r1 /\
    smallPool s2 = smallPool (set_enabled false one_buffer_state) /\
    largePool s2 = largePool (set_enabled false one_buffer_state) /\
    buffers s2 !! r1 = Some b1 /\ buffers s2 !! r2 = Some b2 /\
    buf_arr b1 = Some (length (arrays (set_enabled false one_buffer_state))) /\
    buf_arr b2 = Some (S (length (arrays (set_enabled false one_buffer_state)))) /\
    wf s2.
Proof.
  apply (disabled_pool_never_reuses exact_runtime (Some 0%nat) (Some 0%nat) 4 4
           (set_enabled false one_buffer_state)).
  - apply wf_set_enabled, wf_one_buffer_state.
  - reflexivity.
  - split; discriminate.
  - split; discriminate.
Defined.

(** X5.  [Get] touches nothing but the buffer it returns.  In a well-formed
    state, for a hint that the runtime can serve ([within_limit]) and that
    is not negative or comes with pooling enabled, [Get] returns a buffer
    that is in neither registry afterwards; the registries hold only buffers
    they held before; every other buffer, every cell of every array that
    existed, and the settings are as they were; and the state is well formed
    again. *)
Theorem Get_frame (rt : Runtime) (pick : option nat) (hint : Z) (s : State) :
  wf s -> 0 <= hint \/ enabled s = true -> within_limit s hint ->
  exists r s',
    pool.Get rt pick hint s = Ok (Some r) s' /\
    wf s' /\
    (r ∉ pooled s') /\
    (forall x, x ∈ pooled s' -> x ∈ pooled s) /\
    (r = length (buffers s) \/ r ∈ pooled s) /\
    (forall r', r' <> r -> (r' < length (buffers s))%nat ->
                buffers s' !! r' = buffers s !! r') /\
    (forall a cells, arrays s !! a = Some cells -> arrays s' !! a = Some cells) /\
    settings s' = settings s.
Proof.
  intros Hwf Hdom [Hmax _].
  assert (Hdom' : 0 <= hint <= maxAlloc \/ enabled s = true).
  { destruct Hdom as [Hh|En]; [left; now split|now right]. }
  destruct (Get_acquires rt pick hint s Hwf Hdom') as (r & s' & E & A & _).
  exists r, s'. split; [exact E|]. split; [exact (acq_wf _ _ _ A)|].
  split; [intros Hin; now destruct (acq_pools _ _ _ A r Hin)|].
  split; [intros x Hx; now destruct (acq_pools _ _ _ A x Hx)|].
  split; [exact (acq_origin _ _ _ A)|].
  split; [exact (acq_others _ _ _ A)|].
  split; [exact (acq_arrays _ _ _ A)|exact (acq_settings _ _ _ A)].
Qed.

Lemma Get_frame_witness :
  exists r s',
    pool.Get exact_runtime None 100 one_buffer_state = Ok (Some r) s' /\
    wf s' /\
    (r ∉ pooled s') /\
    (forall x, x ∈ pooled s' -> x ∈ pooled one_buffer_state) /\
    (r = length (buffers one_buffer_state) \/ r ∈ pooled one_buffer_state) /\
    (forall r', r' <> r -> (r' < length (buffers one_buffer_state))%nat ->
                buffers s' !! r' = buffers one_buffer_state !! r') /\
    (forall a cells, arrays one_buffer_state !! a = Some cells ->
                     arrays s' !! a = Some cells) /\
    settings s' = settings one_buffer_state.
Proof.
  apply (Get_frame exact_runtime None 100 one_buffer_state).
  - apply wf_one_buffer_state.
  - left. lia.
  - split; [discriminate|]. repeat constructor. discriminate.
Defined.

(** * Further properties of rendering *)

Lemma contents_frame (r r' : nat) (s s' : State) :
  heap_ok s -> mutates r s s' -> r' <> r -> contents s' r' = contents s r'.
Proof.
  intros [Hok Hshare] Hm Hne. unfold contents.
  rewrite (mut_others _ _ _ Hm r' Hne).
  destruct (buffers s !! r') as [b'|] eqn:Hr'; [|reflexivity].
  unfold cells_of. destruct (buf_arr b') as [a|] eqn:Ea; [|reflexivity].
  destruct (Hok r' b' Hr') as [_ Harr]. rewrite Ea in Harr.
  rewrite (mut_frame _ _ _ Hm a Harr); [reflexivity|].
  intros b Hr Eb. apply Hne. exact (Hshare r' r b' b a Hr' Hr Ea Eb).
Qed.

Lemma written_heap (r : nat) (d : list byte) (s s' : State) :
  wf s -> written r d s s' -> wf s'.
Proof.
  intros [Hheap Hpool] W. pose proof (wr_mutates _ _ _ _ W) as Hm. split.
  - apply (heap_ok_mutates r s s' Hheap Hm (wr_ok _ _ _ _ W)).
  - apply (pool_ok_mutates r s s' Hpool Hm).
Qed.

(** X6.  [RenderBuilder] appends and touches nothing else.  For a node whose
    walk meets no typed nil pointer, and a buffer of a well-formed store,
    [RenderBuilder] returns; the buffer then holds what it held followed by
    the strings of the node in order, every other buffer holds what it held,
    no buffer was created, and the registries, the settings and the writers
    are as they were. *)
Theorem RenderBuilder_appends
    (rt : Runtime) (n : Node) (r : nat) (ws : list string) (s : State) :
  wf s -> (r < length (buffers s))%nat -> chunks n = Some ws ->
  exists s',
    RenderBuilder rt n (Some r) s = Ok tt s' /\
    contents s' r = contents s r ++ rendering ws /\
    (forall r', r' <> r -> contents s' r' = contents s r') /\
    length (buffers s') = length (buffers s) /\
    rest_of s' = rest_of s /\
    wf s'.
Proof.
  intros Hwf Hlt Hch.
  destruct (lookup_lt_is_Some_2 _ _ Hlt) as [b Hr].
  assert (Hb : buffer_ok s b) by (destruct Hwf as [[Hok _] _]; exact (Hok r b Hr)).
  destruct (WriteStrings_written rt r ws s b Hr Hb) as (s' & E & W).
  exists s'. split; [now rewrite (RenderBuilder_chunks rt n (Some r) ws s Hch)|].
  pose proof (wr_mutates _ _ _ _ W) as Hm.
  split; [exact (wr_contents _ _ _ _ W)|].
  split; [intros r' Hne; destruct Hwf as [Hheap _]; now apply (contents_frame r r' s s')|].
  split; [exact (mut_buffers _ _ _ Hm)|].
  split; [exact (mut_rest _ _ _ Hm)|].
  exact (written_heap r _ s s' Hwf W).
Qed.

Lemma RenderBuilder_appends_witness :
  exists s',
    RenderBuilder exact_runtime example_list (Some 0%nat) one_buffer_state = Ok tt s' /\
    contents s' 0 = contents one_buffer_state 0 ++ rendering ["1"%string; "2"%string] /\
    (forall r', r' <> 0%nat -> contents s' r' = contents one_buffer_state r') /\
    length (buffers s') = length (buffers one_buffer_state) /\
    rest_of s' = rest_of one_buffer_state /\
    wf s'.
Proof.
  apply (RenderBuilder_appends exact_runtime example_list 0
           ["1"%string; "2"%string] one_buffer_state).
  - apply wf_one_buffer_state.
  - simpl. lia.
  - reflexivity.
Defined.

Lemma RenderBuilder_panics (rt : Runtime) (r : nat) (n : Node) :
  forall (s : State) (b : Buffer),
    buffers s !! r = Some b -> buffer_ok s b -> chunks n = None ->
    exists why, RenderBuilder rt n (Some r) s = Panic why.
Proof.
  induction n as [| |content dynamic|c t f IHt IHf| |fn IH| |fn IH|k out] using Node_ind;
    intros s b Hr Hb H; simpl in H; try discriminate H.
  - eexists. reflexivity.
  - eexists. reflexivity.
  - simpl. destruct (c && negb (is_nil t)); [now apply (IHt s b)|].
    destruct (negb c && negb (is_nil f)); [now apply (IHf s b)|discriminate H].
  - simpl. destruct (negb (is_nil (fn tt))); [now apply (IH tt s b)|discriminate H].
  - simpl. specialize (IH tt). revert s b Hr Hb H.
    induction (fn tt) as [|x l IHl]; intros s b Hr Hb H; [discriminate H|].
    apply Forall_cons in IH as [Hx Hl].
    unfold bind.
    destruct (if negb (is_nil x) then chunks x else Some []) as [a|] eqn:Ea.
    + assert (Hhead : (if negb (is_nil x) then RenderBuilder rt x (Some r) else ret tt) s
                      = WriteStrings rt (Some r) a s).
      { destruct (negb (is_nil x)); [now apply RenderBuilder_chunks|].
        injection Ea as <-. reflexivity. }
      rewrite Hhead.
      destruct (WriteStrings_written rt r a s b Hr Hb) as (s1 & E1 & W1).
      rewrite E1.
      destruct (written_valid r _ s s1 (lookup_lt_Some _ _ _ Hr) W1) as (b1 & Hr1 & Hb1).
      apply (IHl Hl s1 b1 Hr1 Hb1).
      match type of H with
      | match ?e with _ => _ end = _ => destruct e; [discriminate H|reflexivity]
      end.
    + destruct (negb (is_nil x)); [|discriminate Ea].
      destruct (Hx s b Hr Hb Ea) as [why E]. rewrite E. eauto.
Qed.

(** X7.  [RenderBuilder] into a buffer of a well-formed store panics exactly
    when the walk of the node meets a nil pointer it dereferences: the
    receiver itself, a branch, or a non-nil result of a callback that holds
    a nil pointer.  The nil checks of the function components catch the nil
    interface value only. *)
Theorem RenderBuilder_returns_iff
    (rt : Runtime) (n : Node) (r : nat) (s : State) :
  wf s -> (r < length (buffers s))%nat ->
  ((exists s', RenderBuilder rt n (Some r) s = Ok tt s') <->
   (exists ws, chunks n = Some ws)) /\
  ((exists why, RenderBuilder rt n (Some r) s = Panic why) <-> chunks n = None).
Proof.
  intros Hwf Hlt.
  destruct (lookup_lt_is_Some_2 _ _ Hlt) as [b Hr].
  assert (Hb : buffer_ok s b) by (destruct Hwf as [[Hok _] _]; exact (Hok r b Hr)).
  assert (Hok : forall ws, chunks n = Some ws ->
                           exists s', RenderBuilder rt n (Some r) s = Ok tt s').
  { intros ws Hch. destruct (WriteStrings_written rt r ws s b Hr Hb) as (s' & E & _).
    exists s'. now rewrite (RenderBuilder_chunks rt n (Some r) ws s Hch). }
  split; split.
  - intros [s' E]. destruct (chunks n) as [ws|] eqn:Hch; [eauto|].
    destruct (RenderBuilder_panics rt r n s b Hr Hb Hch) as [why E'].
    rewrite E in E'. discriminate E'.
  - intros [ws Hch]. exact (Hok ws Hch).
  - intros [why E]. destruct (chunks n) as [ws|] eqn:Hch; [|reflexivity].
    destruct (Hok ws eq_refl) as [s' E']. rewrite E in E'. discriminate E'.
  - intros Hch. exact (RenderBuilder_panics rt r n s b Hr Hb Hch).
Qed.

Lemma RenderBuilder_returns_iff_witness :
  exists why,
    RenderBuilder exact_runtime
      (node.FuncNodes (Some (fun _ => [text.Text "1"; TypedNil])))
      (Some 0%nat) one_buffer_state = Panic why.
Proof.
  apply (proj2 (proj2 (RenderBuilder_returns_iff exact_runtime
                  (node.FuncNodes (Some (fun _ => [text.Text "1"; TypedNil])))
                  0 one_buffer_state wf_one_buffer_state ltac:(simpl; lia)))).
  reflexivity.
Defined.

Lemma wf_ext (s s' : State) :
  arrays s' = arrays s -> buffers s' = buffers s ->
  smallPool s' = smallPool s -> largePool s' = largePool s ->
  wf s -> wf s'.
Proof.
  intros Ea Eb Es El Hwf. unfold wf, heap_ok, pool_ok, buffer_ok, cells_of in *.
  now rewrite Ea, Eb, Es, El.
Qed.

Lemma Buffer_WriteTo_ok (r : nat) (b : Buffer) (w : nat) (old : list byte) (s : State) :
  buffers s !! r = Some b -> writers s !! w = Some old ->
  exists s',
    Buffer_WriteTo (Some r) w s = Ok tt s' /\
    writers s' = <[w := old ++ contents s r]> (writers s) /\
    arrays s' = arrays s /\
    buffers s' = <[r := mkBuffer (buf_arr b) 0]> (buffers s) /\
    pool_part s' = pool_part s.
Proof.
  intros Hr Hw. unfold Buffer_WriteTo, bind. rewrite (deref_ok r b s Hr).
  destruct (Buffer_Bytes_ok r b s Hr) as [EB ER].
  destruct (0 <? buf_len b)%nat eqn:Hpos.
  - rewrite EB. unfold get_state, Writer_Write.
    match goal with
    | |- context [Buffer_Reset (Some r) ?st] =>
        rewrite (Buffer_Reset_ok r b st) by exact Hr
    end.
    eexists. split; [reflexivity|]. simpl. rewrite Hw, ER. repeat split.
  - apply Nat.ltb_ge in Hpos. unfold ret.
    rewrite (Buffer_Reset_ok r b s Hr).
    eexists. split; [reflexivity|]. simpl.
    assert (Hc : contents s r = []).
    { rewrite (contents_eq s r b Hr). replace (buf_len b) with 0%nat by lia. reflexivity. }
    rewrite Hc, app_nil_r, list_insert_id by exact Hw. repeat split.
Qed.

(** X8.  [Render] with a writer.  For a node whose walk meets no typed nil
    pointer, [Render(w)] hands the writer exactly the strings of the node in
    order, returns nil, and leaves the store well formed.  The buffer it
    used ends empty; with pooling enabled it is back in a registry unless it
    is oversized and oversized buffers are discarded, and with pooling
    disabled the registries are as they were.  No other buffer enters a
    registry. *)
Theorem Render_to_writer
    (rt : Runtime) (n : Node) (pick : option nat) (w0 : nat) (more : list Writer)
    (s : State) (ws : list string) (old : list byte) :
  wf s -> chunks n = Some ws -> writers s !! w0 = Some old ->
  exists r s',
    Render rt n pick (Some w0 :: more) s = Ok nil_slice s' /\
    writers s' = <[w0 := old ++ rendering ws]> (writers s) /\
    wf s' /\
    length_of s' r = 0%nat /\
    (enabled s = true -> (r ∈ pooled s' <-> not_oversized s' r)) /\
    (enabled s = false -> pooled s' = pooled s) /\
    (forall x, x ∈ pooled s' -> x = r \/ x ∈ pooled s).
Proof.
  intros Hwf Hch Hw.
  destruct (Get_acquires rt pick 0 s Hwf (or_introl hint_zero))
    as (r & s1 & E1 & A1 & Hl1 & _).
  destruct (acquires_lookup r s s1 A1) as (b1 & Hr1 & Hb1).
  destruct (WriteStrings_written rt r ws s1 b1 Hr1 Hb1) as (s2 & E2 & W2).
  destruct (written_valid r _ s1 s2 (lookup_lt_Some _ _ _ Hr1) W2) as (b2 & Hr2 & Hb2).
  destruct (written_wf r _ s s1 s2 A1 W2) as [Hwf2 Hpooled2].
  pose proof (wr_mutates _ _ _ _ W2) as Hm2.
  pose proof (mut_rest _ _ _ Hm2) as Hrest2. unfold rest_of in Hrest2.
  injection Hrest2 as Hw2 Hth2 Hmx2 Hd2 Hen2 Hsm2 Hlg2.
  pose proof (acq_settings _ _ _ A1) as Hset1. unfold settings in Hset1.
  injection Hset1 as Hw1 Hth1 Hmx1 Hd1 Hen1.
  assert (Hw2' : writers s2 !! w0 = Some old) by congruence.
  destruct (Buffer_WriteTo_ok r b2 w0 old s2 Hr2 Hw2')
    as (s3 & E3 & Hw3 & Ea3 & Eb3 & Hp3).
  unfold pool_part in Hp3. injection Hp3 as Hth3 Hmx3 Hd3 Hen3 Hsm3 Hlg3.
  assert (Hc2 : contents s2 r = rendering ws).
  { rewrite (wr_contents _ _ _ _ W2), (contents_empty s1 r Hl1). reflexivity. }
  assert (Hlt2 : (r < length (buffers s2))%nat) by (now apply lookup_lt_Some in Hr2).
  assert (Hr3 : buffers s3 !! r = Some (mkBuffer (buf_arr b2) 0)).
  { rewrite Eb3. now apply list_lookup_insert_eq. }
  assert (Hwf3 : wf s3).
  { apply (wf_ext (set_buffers (fun bs => <[r := mkBuffer (buf_arr b2) 0]> bs) s2) s3);
      try assumption.
    destruct Hwf2 as [Hheap2 Hpool2].
    assert (Hm : mutates r s2 (set_buffers (fun bs => <[r := mkBuffer (buf_arr b2) 0]> bs) s2)).
    { apply (mutates_store r b2 _ s2 Hr2). reflexivity. }
    split.
    - apply (heap_ok_mutates r s2 _ Hheap2 Hm). intros b' Hb'. simpl in Hb'.
      rewrite list_lookup_insert_eq in Hb' by exact Hlt2. injection Hb' as <-.
      destruct Hb2 as [_ Harr]. split; [simpl; lia|exact Harr].
    - apply (pool_ok_mutates r s2 _ Hpool2 Hm). }
  assert (Hpooled3 : pooled s3 = pooled s1).
  { rewrite <- Hpooled2. unfold pooled. now rewrite Hsm3, Hlg3. }
  assert (Hnot3 : r ∉ pooled s3).
  { rewrite Hpooled3. intros Hin. now destruct (acq_pools _ _ _ A1 r Hin). }
  assert (Hsub3 : forall x, x ∈ pooled s3 -> x ∈ pooled s).
  { intros x Hx. rewrite Hpooled3 in Hx. now destruct (acq_pools _ _ _ A1 x Hx). }
  assert (Hbody : forall s', pool.Put (Some r) s3 = Ok tt s' ->
            Render rt n pick (Some w0 :: more) s = Ok nil_slice s').
  { intros s' EP.
    assert (Hb : Render rt n pick (Some w0 :: more) s
                 = bind (NewBuffer rt pick [])
                     (fun buf => bind (RenderBuilder rt n buf)
                        (fun _ => bind (Buffer_WriteTo buf w0)
                           (fun _ => bind (PutBuffer buf) (fun _ => ret nil_slice)))) s).
    { destruct n; try discriminate Hch; reflexivity. }
    rewrite Hb. unfold bind, NewBuffer, PutBuffer. rewrite E1.
    rewrite (RenderBuilder_chunks rt n (Some r) ws s1 Hch), E2, E3, EP. reflexivity. }
  assert (Hwr : writers s3 = <[w0 := old ++ rendering ws]> (writers s)).
  { rewrite Hw3, Hc2. congruence. }
  destruct (enabled s) eqn:En.
  - assert (En3 : enabled s3 = true) by congruence.
    destruct (Put_released r s3 Hwf3 En3 (lookup_lt_Some _ _ _ Hr3) Hnot3)
      as (s' & EP & Hwf' & Hsub & _ & Hiff & Hkept & Ea' & Es' & Hoth).
    pose proof Es' as Es''. unfold settings in Es''.
    injection Es'' as Hw' Hth' Hmx' Hd' Hen'.
    exists r, s'. split; [exact (Hbody s' EP)|].
    split; [congruence|]. split; [exact Hwf'|].
    assert (Hcap' : capacity s' r = capacity s3 r).
    { destruct (decide (r ∈ pooled s')) as [Hin|Hnin]; [now destruct (Hkept Hin)|].
      assert (Hover : ~ not_oversized s3 r) by (intros H; apply Hnin, Hiff, H).
      destruct (lookup_lt_is_Some_2 _ _ (lookup_lt_Some _ _ _ Hr3)) as [b3 Hb3].
      assert (s' = s3).
      { assert (Hd : discardOversized s3 = true).
        { destruct (discardOversized s3) eqn:D; [reflexivity|].
          exfalso. apply Hover. now right. }
        assert (Hgt : maxPoolSize s3 < Z.of_nat (capacity s3 r)).
        { destruct (Z.lt_ge_cases (maxPoolSize s3) (Z.of_nat (capacity s3 r)));
            [assumption|]. exfalso. apply Hover. left. lia. }
        destruct Hwf3 as [[Hok3 _] _].
        rewrite (Put_discards_oversized r _ s3 En3 Hr3 (Hok3 r _ Hr3) Hgt Hd) in EP.
        now injection EP. }
      now subst s'. }
    split.
    { destruct (decide (r ∈ pooled s')) as [Hin|Hnin]; [now destruct (Hkept Hin)|].
      assert (Hover : ~ not_oversized s3 r) by (intros H; apply Hnin, Hiff, H).
      assert (Hd : discardOversized s3 = true).
      { destruct (discardOversized s3) eqn:D; [reflexivity|].
        exfalso. apply Hover. now right. }
      assert (Hgt : maxPoolSize s3 < Z.of_nat (capacity s3 r)).
      { destruct (Z.lt_ge_cases (maxPoolSize s3) (Z.of_nat (capacity s3 r)));
          [assumption|]. exfalso. apply Hover. left. lia. }
      destruct Hwf3 as [[Hok3 _] _].
      rewrite (Put_discards_oversized r _ s3 En3 Hr3 (Hok3 r _ Hr3) Hgt Hd) in EP.
      injection EP as <-. now rewrite (length_of_eq s3 r _ Hr3). }
    split.
    { intros _. rewrite Hiff. unfold not_oversized. now rewrite Hcap', Hmx', Hd'. }
    split; [intros H; discriminate H|].
    intros x Hx. destruct (Hsub x Hx) as [->|Hx']; [now left|right; now apply Hsub3].
  - assert (En3 : enabled s3 = false) by congruence.
    exists r, s3. split; [exact (Hbody s3 (Put_disabled (Some r) s3 En3))|].
    split; [exact Hwr|]. split; [exact Hwf3|].
    split; [now rewrite (length_of_eq s3 r _ Hr3)|].
    split; [intros H; discriminate H|].
    assert (Hsame : pooled s1 = pooled s).
    { pose proof (Get_disabled rt pick 0 s En hint_zero) as E1'.
      rewrite E1 in E1'. injection E1' as _ ->. reflexivity. }
    split; [intros _; now rewrite Hpooled3, Hsame|].
    intros x Hx. right. now apply Hsub3.
Qed.

Lemma wf_writer_state : wf writer_state.
Proof.
  apply (wf_ext one_buffer_state writer_state); try reflexivity.
  apply wf_one_buffer_state.
Qed.

Lemma Render_to_writer_witness :
  exists r s',
    Render exact_runtime example_list None [Some 0%nat] writer_state = Ok nil_slice s' /\
    writers s' = <[0%nat := bytes_of "<p>" ++ rendering ["1"%string; "2"%string]]>
                   (writers writer_state) /\
    wf s' /\
    length_of s' r = 0%nat /\
    (enabled writer_state = true -> (r ∈ pooled s' <-> not_oversized s' r)) /\
    (enabled writer_state = false -> pooled s' = pooled writer_state) /\
    (forall x, x ∈ pooled s' -> x = r \/ x ∈ pooled writer_state).
Proof.
  apply (Render_to_writer exact_runtime example_list None 0 [] writer_state
           ["1"%string; "2"%string] (bytes_of "<p>")).
  - apply wf_writer_state.
  - reflexivity.
  - reflexivity.
Defined.

(** * Further properties of the conditional builder *)

Lemma present_not_nil (n : Node) : present n = true -> is_nil n = false.
Proof. destruct n; intros H; try reflexivity; discriminate H. Qed.

(** X9.  [When] and [Unless].  For an argument on which the nil check
    returns, [When(c, n)] renders as [n] when [c] holds and [n] is present,
    and as nothing otherwise; [Unless(c, n)] renders as [n] when [c] fails
    and [n] is present, and as nothing otherwise.  [Unless(c, n)] is built
    as [Condition(!c).True(n)], and renders as [Condition(c).False(n)]
    does. *)
Theorem When_Unless_render (cond : bool) (n : Node) (s : State) :
  is_nil n = true \/ nilable (kind_of n) = true ->
  exists cw cu cf,
    node.When cond n s = Ok cw s /\
    node.Unless cond n s = Ok cu s /\
    node.False (node.Condition cond) n s = Ok cf s /\
    forall (rt : Runtime) (buf : BufPtr) (s' : State),
      RenderBuilder rt (as_node cw) buf s'
        = (if cond && present n then RenderBuilder rt n buf s' else Ok tt s') /\
      RenderBuilder rt (as_node cu) buf s'
        = (if negb cond && present n then RenderBuilder rt n buf s' else Ok tt s') /\
      RenderBuilder rt (as_node cu) buf s' = RenderBuilder rt (as_node cf) buf s'.
Proof.
  intros Hn. unfold node.When, node.Unless.
  rewrite (True_stores (node.Condition cond) n s Hn),
    (True_stores (node.Condition (negb cond)) n s Hn),
    (False_stores (node.Condition cond) n s Hn).
  eexists _, _, _. split; [reflexivity|]. split; [reflexivity|]. split; [reflexivity|].
  intros rt buf s'. destruct (present n) eqn:Hp.
  - pose proof (present_not_nil n Hp) as Hnil.
    unfold as_node. simpl. rewrite Hnil. destruct cond; simpl; repeat split.
  - unfold as_node. simpl. destruct cond; simpl; repeat split.
Qed.

Lemma When_Unless_render_witness :
  exists cw cu cf,
    node.When true (text.Text "A") init_state = Ok cw init_state /\
    node.Unless true (text.Text "A") init_state = Ok cu init_state /\
    node.False (node.Condition true) (text.Text "A") init_state = Ok cf init_state /\
    forall (rt : Runtime) (buf : BufPtr) (s' : State),
      RenderBuilder rt (as_node cw) buf s'
        = (if true && present (text.Text "A")
           then RenderBuilder rt (text.Text "A") buf s' else Ok tt s') /\
      RenderBuilder rt (as_node cu) buf s'
        = (if negb true && present (text.Text "A")
           then RenderBuilder rt (text.Text "A") buf s' else Ok tt s') /\
      RenderBuilder rt (as_node cu) buf s' = RenderBuilder rt (as_node cf) buf s'.
Proof.
  apply (When_Unless_render true (text.Text "A") init_state). right. reflexivity.
Defined.

Lemma last_present_snoc (tag : bool) (calls : list Call) (x : Call) (init : Node) :
  last_present tag (x :: calls) init
  = last_present tag calls
      (if Bool.eqb (is_true_call x) tag && present (call_arg x) then call_arg x else init).
Proof. reflexivity. Qed.

(** X10.  What a sequence of builder calls leaves.  After any calls of
    [True] and [False] that return, the true branch is the last argument of
    [True] that was neither nil nor a typed nil pointer, the false branch the
    last such argument of [False]; where there was none the branch is what it
    was.  A nil argument never clears a branch, and no call changes the
    condition or the state. *)
Theorem builder_keeps_last_present_arguments
    (calls : list Call) (c : ConditionalBuilder) (s : State) :
  Forall call_total calls ->
  exists c',
    apply_calls c calls s = Ok c' s /\
    condition c' = condition c /\
    trueNode c' = last_present true calls (trueNode c) /\
    falseNode c' = last_present false calls (falseNode c).
Proof.
  revert c. induction calls as [|x calls IH]; intros c Hall.
  - exists c. repeat split.
  - apply Forall_cons in Hall as [Hx Hall]. rewrite !last_present_snoc.
    destruct x as [n|n]; simpl apply_calls; unfold bind; unfold call_total in Hx;
      simpl in Hx; simpl is_true_call; simpl call_arg.
    + rewrite (True_stores c n s Hx).
      destruct (IH (if present n then mkConditionalBuilder (condition c) n (falseNode c)
                    else c) Hall) as (c' & E & Hc & Ht & Hf).
      exists c'. split; [exact E|].
      destruct (present n); simpl in *; repeat split; assumption.
    + rewrite (False_stores c n s Hx).
      destruct (IH (if present n then mkConditionalBuilder (condition c) (trueNode c) n
                    else c) Hall) as (c' & E & Hc & Ht & Hf).
      exists c'. split; [exact E|].
      destruct (present n); simpl in *; repeat split; assumption.
Qed.

Lemma builder_keeps_last_present_arguments_witness :
  exists c',
    apply_calls (node.Condition true)
      [CallTrue (text.Text "A"); CallTrue Nil; CallFalse TypedNil;
       CallTrue (text.Text "B"); CallTrue TypedNil] init_state = Ok c' init_state /\
    condition c' = condition (node.Condition true) /\
    trueNode c'
    = last_present true
        [CallTrue (text.Text "A"); CallTrue Nil; CallFalse TypedNil;
         CallTrue (text.Text "B"); CallTrue TypedNil]
        (trueNode (node.Condition true)) /\
    falseNode c'
    = last_present false
        [CallTrue (text.Text "A"); CallTrue Nil; CallFalse TypedNil;
         CallTrue (text.Text "B"); CallTrue TypedNil]
        (falseNode (node.Condition true)).
Proof.
  apply (builder_keeps_last_present_arguments
           [CallTrue (text.Text "A"); CallTrue Nil; CallFalse TypedNil;
            CallTrue (text.Text "B"); CallTrue TypedNil]
           (node.Condition true) init_state).
  repeat constructor; (left; reflexivity) || (right; reflexivity).
Defined.

(** * Properties of the text constructors *)

Lemma string_forallb_app (p : ascii -> bool) (a b : string) :
  string_forallb p (a ++ b)%string = string_forallb p a && string_forallb p b.
Proof.
  induction a as [|c a IH]; [reflexivity|]. simpl. rewrite IH. now rewrite andb_assoc.
Qed.

Lemma html_EscapeString_cons (c : ascii) (rest : string) :
  html_EscapeString (String c rest)
  = ((if Ascii.eqb c "&" then "&amp;"
      else if Ascii.eqb c "'" then "&#39;"
      else if Ascii.eqb c "<" then "&lt;"
      else if Ascii.eqb c ">" then "&gt;"
      else if Ascii.eqb c (ascii_of_nat 34) then "&#34;"
      else String c EmptyString) ++ html_EscapeString rest)%string.
Proof.
  simpl.
  destruct (Ascii.eqb c "&"); [reflexivity|].
  destruct (Ascii.eqb c "'"); [reflexivity|].
  destruct (Ascii.eqb c "<"); [reflexivity|].
  destruct (Ascii.eqb c ">"); [reflexivity|].
  destruct (Ascii.eqb c (ascii_of_nat 34)); reflexivity.
Qed.

Lemma html_EscapeString_no_markup (str : string) :
  string_forallb (fun c => negb (is_markup c)) (html_EscapeString str) = true.
Proof.
  induction str as [|c rest IH]; [reflexivity|].
  rewrite html_EscapeString_cons, string_forallb_app, IH, andb_true_r.
  destruct (Ascii.eqb c "&") eqn:E1; [reflexivity|].
  destruct (Ascii.eqb c "'") eqn:E2; [reflexivity|].
  destruct (Ascii.eqb c "<") eqn:E3; [reflexivity|].
  destruct (Ascii.eqb c ">") eqn:E4; [reflexivity|].
  destruct (Ascii.eqb c (ascii_of_nat 34)) eqn:E5; [reflexivity|].
  simpl. unfold is_markup. now rewrite E2, E3, E4, E5.
Qed.

Lemma string_length_app (a b : string) :
  String.length (a ++ b)%string = (String.length a + String.length b)%nat.
Proof. induction a as [|c a IH]; [reflexivity|]. simpl. now rewrite IH. Qed.

Lemma html_EscapeString_length (str : string) :
  (String.length str <= String.length (html_EscapeString str))%nat /\
  (string_forallb (fun c => negb (is_special c)) str = false ->
   (String.length str < String.length (html_EscapeString str))%nat).
Proof.
  induction str as [|c rest [IH1 IH2]]; [split; [reflexivity|discriminate]|].
  rewrite html_EscapeString_cons, string_length_app.
  simpl string_forallb. unfold is_special.
  destruct (Ascii.eqb c "&") eqn:E1; [simpl; split; intros; lia|].
  destruct (Ascii.eqb c "'") eqn:E2; [simpl; split; intros; lia|].
  destruct (Ascii.eqb c "<") eqn:E3; [simpl; split; intros; lia|].
  destruct (Ascii.eqb c ">") eqn:E4; [simpl; split; intros; lia|].
  destruct (Ascii.eqb c (ascii_of_nat 34)) eqn:E5; [simpl; split; intros; lia|].
  simpl. split; [lia|]. intros H. specialize (IH2 H). lia.
Qed.

Lemma html_EscapeString_id (str : string) :
  string_forallb (fun c => negb (is_special c)) str = true ->
  html_EscapeString str = str.
Proof.
  induction str as [|c rest IH]; [reflexivity|].
  simpl string_forallb. intros H. apply andb_prop in H as [Hc Hrest].
  rewrite html_EscapeString_cons, (IH Hrest).
  unfold is_special in Hc. apply negb_true_iff in Hc.
  repeat (apply orb_false_iff in Hc as [Hc ?]).
  repeat match goal with E : Ascii.eqb _ _ = false |- _ => rewrite E; clear E end.
  reflexivity.
Qed.

(** X11.  What [Text] writes.  The content that [Text(str)] stores and
    renders holds no less-than sign, greater-than sign, double quote or
    apostrophe, whatever [str] is; and it is [str] itself exactly when [str]
    holds none of the five characters that are escaped.  [RawText] and
    [Static] store and render [str] as it is. *)
Theorem Text_renders_escaped (str : string) :
  exists out,
    text.Text str = TextNodeV out true /\
    (forall rt buf s, RenderBuilder rt (text.Text str) buf s
                      = Buffer_WriteString rt buf out s) /\
    string_forallb (fun c => negb (is_markup c)) out = true /\
    (out = str <-> string_forallb (fun c => negb (is_special c)) str = true) /\
    text.RawText str = TextNodeV str true /\
    text.Static str = TextNodeV str false.
Proof.
  exists (html_EscapeString str). split; [reflexivity|]. split; [reflexivity|].
  split; [apply html_EscapeString_no_markup|].
  split; [|split; reflexivity].
  split.
  - intros E. destruct (string_forallb _ str) eqn:H; [reflexivity|].
    destruct (html_EscapeString_length str) as [_ Hlt].
    specialize (Hlt H). rewrite E in Hlt. lia.
  - apply html_EscapeString_id.
Qed.

Lemma html_EscapeString_head (c1 c2 : ascii) (r1 r2 : string) :
  html_EscapeString (String c1 r1) = html_EscapeString (String c2 r2) ->
  c1 = c2 /\ html_EscapeString r1 = html_EscapeString r2.
Proof.
  rewrite !html_EscapeString_cons.
  destruct (Ascii.eqb c1 "&") eqn:A1; [apply Ascii.eqb_eq in A1|];
  [|destruct (Ascii.eqb c1 "'") eqn:A2; [apply Ascii.eqb_eq in A2|];
    [|destruct (Ascii.eqb c1 "<") eqn:A3; [apply Ascii.eqb_eq in A3|];
      [|destruct (Ascii.eqb c1 ">") eqn:A4; [apply Ascii.eqb_eq in A4|];
        [|destruct (Ascii.eqb c1 (ascii_of_nat 34)) eqn:A5;
          [apply Ascii.eqb_eq in A5|]]]]];
  (destruct (Ascii.eqb c2 "&") eqn:B1; [apply Ascii.eqb_eq in B1|];
   [|destruct (Ascii.eqb c2 "'") eqn:B2; [apply Ascii.eqb_eq in B2|];
     [|destruct (Ascii.eqb c2 "<") eqn:B3; [apply Ascii.eqb_eq in B3|];
       [|destruct (Ascii.eqb c2 ">") eqn:B4; [apply Ascii.eqb_eq in B4|];
         [|destruct (Ascii.eqb c2 (ascii_of_nat 34)) eqn:B5;
           [apply Ascii.eqb_eq in B5|]]]]]);
  simpl; intros H;
  try discriminate H;
  try (injection H as H; subst; split; [reflexivity|assumption]);
  try (injection H as Hc H; subst;
       repeat match goal with
              | E : Ascii.eqb ?x ?x = false |- _ => rewrite Ascii.eqb_refl in E; discriminate E
              end;
       try (split; [reflexivity|assumption])).
Qed.

(** X12.  [Text] loses nothing: two strings that [Text] renders alike are
    the same string. *)
Theorem Text_is_injective (str1 str2 : string) :
  text.Text str1 = text.Text str2 -> str1 = str2.
Proof.
  unfold text.Text. intros H. injection H as H. revert str2 H.
  induction str1 as [|c1 r1 IH]; intros [|c2 r2] H.
  - reflexivity.
  - exfalso. rewrite html_EscapeString_cons in H. simpl in H.
    destruct (Ascii.eqb c2 "&"); [discriminate H|].
    destruct (Ascii.eqb c2 "'"); [discriminate H|].
    destruct (Ascii.eqb c2 "<"); [discriminate H|].
    destruct (Ascii.eqb c2 ">"); [discriminate H|].
    destruct (Ascii.eqb c2 (ascii_of_nat 34)); discriminate H.
  - exfalso. rewrite html_EscapeString_cons in H. simpl in H.
    destruct (Ascii.eqb c1 "&"); [discriminate H|].
    destruct (Ascii.eqb c1 "'"); [discriminate H|].
    destruct (Ascii.eqb c1 "<"); [discriminate H|].
    destruct (Ascii.eqb c1 ">"); [discriminate H|].
    destruct (Ascii.eqb c1 (ascii_of_nat 34)); discriminate H.
  - destruct (html_EscapeString_head c1 c2 r1 r2 H) as [-> Hr].
    now rewrite (IH r2 Hr).
Qed.

Lemma Text_is_injective_witness :
  "<b>"%string = "<b>"%string.
Proof.
  apply (Text_is_injective "<b>" "<b>"). reflexivity.
Defined.

(** * Properties of the sanitiser *)

Lemma chunks_not_nil (n : Node) (ws : list string) :
  chunks n = Some ws -> is_nil n = false.
Proof. destruct n; intros H; try reflexivity; discriminate H. Qed.

Lemma Sanitise_renders (pattern : Regexp) (rt : Runtime) (comp : Node)
    (pick : option nat) (s : State) (ws : list string) :
  wf s -> chunks comp = Some ws ->
  exists r b s1,
    security.Sanitise pattern rt pick comp s
    = Ok (mkSanitiseBuilder comp
            (if pattern (rendering ws) then Some security.error_pattern else None)
            (mkSlice (buf_arr b) 0 (buf_len b))) s1 /\
    wf s1 /\ buffers s1 !! r = Some b /\
    read_slice s1 (mkSlice (buf_arr b) 0 (buf_len b)) = rendering ws /\
    (r ∉ pooled s1) /\
    (forall x, x ∈ pooled s1 -> x ∈ pooled s).
Proof.
  intros Hwf Hch.
  destruct (Render_no_writer rt comp pick [] s ws Hwf eq_refl Hch)
    as (r & s0 & s1 & b & _ & A & W & Hr & ER & Eread).
  destruct (written_wf r _ s s0 s1 A W) as [Hwf1 Hpooled].
  exists r, b, s1. split.
  - unfold security.Sanitise. rewrite (chunks_not_nil comp ws Hch).
    unfold bind, get_state. rewrite ER, Eread.
    destruct (pattern (rendering ws)); reflexivity.
  - split; [exact Hwf1|]. split; [exact Hr|]. split; [exact Eread|]. split.
    + rewrite Hpooled. intros Hin. now destruct (acq_pools _ _ _ A r Hin).
    + intros x Hx. rewrite Hpooled in Hx. now destruct (acq_pools _ _ _ A x Hx).
Qed.

Lemma view_survives_Get (rt : Runtime) (pick : option nat) (hint : Z)
    (s s' : State) (r r' : nat) (b : Buffer) :
  wf s -> buffers s !! r = Some b -> r ∉ pooled s ->
  pool.Get rt pick hint s = Ok (Some r') s' ->
  r' <> r /\ acquires r' s s' /\
  read_slice s' (mkSlice (buf_arr b) 0 (buf_len b))
  = read_slice s (mkSlice (buf_arr b) 0 (buf_len b)).
Proof.
  intros Hwf Hr Hnot EG.
  destruct (Get_Ok_acquires rt pick hint s s' (Some r') Hwf EG) as (r0 & E0 & A).
  injection E0 as <-.
  split; [|split; [exact A|]].
  - destruct (acq_origin _ _ _ A) as [->|Hin].
    + apply lookup_lt_Some in Hr. lia.
    + intros ->. exact (Hnot Hin).
  - apply (read_slice_keeps s s'); [exact (acq_arrays _ _ _ A)|].
    intros a Ea. simpl in Ea. destruct Hwf as [[Hok _] _].
    destruct (Hok r b Hr) as [_ Harr]. now rewrite Ea in Harr.
Qed.

(** X13.  An accepted component is rendered once and replayed.  For a
    component whose walk meets no typed nil pointer and whose rendering the
    pattern does not match, [Sanitise] renders it once and keeps the bytes,
    on a buffer that it does not release.  [Error()] is then the component,
    [Render()] returns the kept bytes, and [RenderBuilder] into any buffer
    that a later [Get] returns appends exactly those bytes: they are still
    intact.  [Render] tests the length of [w] only, so a nil writer
    panics. *)
Theorem Sanitise_accepted_replays_rendering
    (pattern : Regexp) (rt : Runtime) (comp : Node) (pick : option nat)
    (s : State) (ws : list string) :
  wf s -> chunks comp = Some ws -> pattern (rendering ws) = false ->
  exists sb s1,
    security.Sanitise pattern rt pick comp s = Ok sb s1 /\
    wf s1 /\
    err sb = None /\
    security.Error sb = comp /\
    (forall x, x ∈ pooled s1 -> x ∈ pooled s) /\
    security.Render sb [] s1 = Ok (content sb) s1 /\
    read_slice s1 (content sb) = rendering ws /\
    (forall more, security.Render sb (None :: more) s1 = Panic NilInterfaceCall) /\
    forall pick' hint r' s2,
      pool.Get rt pick' hint s1 = Ok (Some r') s2 ->
      exists s3,
        security.RenderBuilder rt sb (Some r') s2 = Ok tt s3 /\
        contents s3 r' = contents s2 r' ++ rendering ws.
Proof.
  intros Hwf Hch Hpat.
  destruct (Sanitise_renders pattern rt comp pick s ws Hwf Hch)
    as (r & b & s1 & E & Hwf1 & Hr & Eread & Hnot & Hsub).
  rewrite Hpat in E.
  eexists _, s1. split; [exact E|]. split; [exact Hwf1|].
  split; [reflexivity|]. split; [reflexivity|]. split; [exact Hsub|].
  split; [reflexivity|]. split; [exact Eread|]. split; [reflexivity|].
  intros pick' hint r' s2 EG.
  destruct (view_survives_Get rt pick' hint s1 s2 r r' b Hwf1 Hr Hnot EG)
    as (Hne & A & Hkeep).
  destruct (acquires_lookup r' s1 s2 A) as (b2 & Hr2 & Hb2).
  destruct (Buffer_Write_written rt r' b2 (rendering ws) s2 Hr2 Hb2) as (s3 & EW & W).
  exists s3. split.
  - unfold security.RenderBuilder, bind, get_state. simpl.
    rewrite Hkeep, Eread. exact EW.
  - exact (wr_contents _ _ _ _ W).
Qed.

Lemma Sanitise_accepted_replays_rendering_witness :
  exists sb s1,
    security.Sanitise (fun data => Nat.eqb (length data) 8)
      exact_runtime None (text.RawText "<div>") init_state = Ok sb s1 /\
    wf s1 /\
    err sb = None /\
    security.Error sb = text.RawText "<div>" /\
    (forall x, x ∈ pooled s1 -> x ∈ pooled init_state) /\
    security.Render sb [] s1 = Ok (content sb) s1 /\
    read_slice s1 (content sb) = rendering ["<div>"%string] /\
    (forall more, security.Render sb (None :: more) s1 = Panic NilInterfaceCall) /\
    forall pick' hint r' s2,
      pool.Get exact_runtime pick' hint s1 = Ok (Some r') s2 ->
      exists s3,
        security.RenderBuilder exact_runtime sb (Some r') s2 = Ok tt s3 /\
        contents s3 r' = contents s2 r' ++ rendering ["<div>"%string].
Proof.
  apply (Sanitise_accepted_replays_rendering
           (fun data => Nat.eqb (length data) 8)
           exact_runtime (text.RawText "<div>") None init_state ["<div>"%string]).
  - apply wf_init_state.
  - reflexivity.
  - reflexivity.
Defined.

(** X14.  A rejected or missing component renders nothing.  When the
    pattern matches the rendering of the component, or the component is nil,
    the builder carries an error: [RenderBuilder] leaves every buffer and
    the whole state as they are, [Render] with any writer at all returns nil
    without a call on the writer, [Render] without one returns a slice that
    is not nil and has no bytes, and [Error()] is the escaped text of the
    message.  A nil component is not rendered: [Sanitise] leaves the state
    as it was. *)
Theorem Sanitise_rejected_renders_nothing
    (pattern : Regexp) (rt : Runtime) (comp : Node) (pick : option nat)
    (s : State) (ws : list string) :
  wf s ->
  (is_nil comp = true \/ (chunks comp = Some ws /\ pattern (rendering ws) = true)) ->
  exists sb s1 msg,
    security.Sanitise pattern rt pick comp s = Ok sb s1 /\
    (is_nil comp = true -> s1 = s /\ msg = security.error_nil) /\
    (is_nil comp = false -> msg = security.error_pattern) /\
    err sb = Some msg /\
    security.Error sb = text.Text ("Validation Error: " ++ msg) /\
    (forall buf s', security.RenderBuilder rt sb buf s' = Ok tt s') /\
    (forall w more s', security.Render sb (w :: more) s' = Ok nil_slice s') /\
    (forall s', exists sl s'',
        security.Render sb [] s' = Ok sl s'' /\
        s_arr sl <> None /\ read_slice s'' sl = [] /\
        buffers s'' = buffers s' /\ rest_of s'' = rest_of s').
Proof.
  intros Hwf [Hnil|[Hch Hpat]].
  - exists (mkSanitiseBuilder comp (Some security.error_nil) nil_slice), s,
      security.error_nil.
    split; [unfold security.Sanitise; now rewrite Hnil|].
    split; [intros _; split; reflexivity|].
    split; [intros H; congruence|].
    split; [reflexivity|]. split; [reflexivity|]. split; [reflexivity|].
    split; [reflexivity|].
    intros s'. eexists _, _. split; [reflexivity|]. simpl.
    split; [discriminate|]. split; [|split; reflexivity].
    unfold read_slice. simpl. now rewrite lookup_snoc.
  - destruct (Sanitise_renders pattern rt comp pick s ws Hwf Hch)
      as (r & b & s1 & E & _).
    rewrite Hpat in E.
    eexists _, s1, security.error_pattern. split; [exact E|].
    split; [intros H; rewrite (chunks_not_nil comp ws Hch) in H; discriminate H|].
    split; [reflexivity|].
    split; [reflexivity|]. split; [reflexivity|]. split; [reflexivity|].
    split; [reflexivity|].
    intros s'. eexists _, _. split; [reflexivity|]. simpl.
    split; [discriminate|]. split; [|split; reflexivity].
    unfold read_slice. simpl. now rewrite lookup_snoc.
Qed.

Lemma Sanitise_rejected_renders_nothing_witness :
  exists sb s1 msg,
    security.Sanitise (fun data => Nat.eqb (length data) 8)
      exact_runtime None (text.RawText "<script>") init_state = Ok sb s1 /\
    (is_nil (text.RawText "<script>") = true ->
     s1 = init_state /\ msg = security.error_nil) /\
    (is_nil (text.RawText "<script>") = false -> msg = security.error_pattern) /\
    err sb = Some msg /\
    security.Error sb = text.Text ("Validation Error: " ++ msg) /\
    (forall buf s', security.RenderBuilder exact_runtime sb buf s' = Ok tt s') /\
    (forall w more s', security.Render sb (w :: more) s' = Ok nil_slice s') /\
    (forall s', exists sl s'',
        security.Render sb [] s' = Ok sl s'' /\
        s_arr sl <> None /\ read_slice s'' sl = [] /\
        buffers s'' = buffers s' /\ rest_of s'' = rest_of s').
Proof.
  apply (Sanitise_rejected_renders_nothing
           (fun data => Nat.eqb (length data) 8)
           exact_runtime (text.RawText "<script>") None init_state
           ["<script>"%string]).
  - apply wf_init_state.
  - right. split; reflexivity.
Defined.

(** X15.  What the Safe helpers return for rejected content.  When the
    pattern matches the content, [Safe], [SafeScript] and [SafeStyle] return
    a text node that does not depend on the content and holds no less-than
    sign, greater-than sign or quote: the comment markers that [SafeScript]
    and [SafeStyle] put around the message are escaped with it.  When it
    does not, they return the content as it is, bare or between the tags;
    the pattern is asked about the content alone. *)
Theorem Safe_helpers (pattern : Regexp) (content : string) :
  (pattern (bytes_of content) = true ->
   exists plain comment,
     security.Safe pattern content = TextNodeV plain true /\
     security.SafeScript pattern content = TextNodeV comment true /\
     security.SafeStyle pattern content = TextNodeV comment true /\
     plain = "Validation Error: content contains disallowed pattern"%string /\
     comment
     = "&lt;!-- Validation Error: content contains disallowed pattern --&gt;"%string /\
     string_forallb (fun c => negb (is_markup c)) plain = true /\
     string_forallb (fun c => negb (is_markup c)) comment = true) /\
  (pattern (bytes_of content) = false ->
   security.Safe pattern content = TextNodeV content true /\
   security.SafeScript pattern content
   = TextNodeV ("<script>" ++ content ++ "</script>") true /\
   security.SafeStyle pattern content
   = TextNodeV ("<style>" ++ content ++ "</style>") true).
Proof.
  unfold security.Safe, security.SafeScript, security.SafeStyle, security.Validate.
  split; intros ->.
  - eexists _, _. repeat split.
  - repeat split.
Qed.

Lemma Safe_helpers_witness :
  (exists plain comment,
     security.Safe (fun data => Nat.eqb (length data) 9) "</script>"
       = TextNodeV plain true /\
     security.SafeScript (fun data => Nat.eqb (length data) 9) "</script>"
       = TextNodeV comment true /\
     security.SafeStyle (fun data => Nat.eqb (length data) 9) "</script>"
       = TextNodeV comment true /\
     plain = "Validation Error: content contains disallowed pattern"%string /\
     comment
     = "&lt;!-- Validation Error: content contains disallowed pattern --&gt;"%string /\
     string_forallb (fun c => negb (is_markup c)) plain = true /\
     string_forallb (fun c => negb (is_markup c)) comment = true) /\
  security.SafeScript (fun data => Nat.eqb (length data) 9) "f()"
  = TextNodeV "<script>f()</script>" true.
Proof.
  split.
  - apply (proj1 (Safe_helpers (fun data => Nat.eqb (length data) 9) "</script>")).
    reflexivity.
  - apply (proj2 (Safe_helpers (fun data => Nat.eqb (length data) 9) "f()")).
    reflexivity.
Defined.

(** * Rendering out of a pooled buffer *)

Lemma Buffer_Write_fits (rt : Runtime) (r : nat) (b : Buffer) (data : list byte)
    (s : State) :
  buffers s !! r = Some b -> buffer_ok s b ->
  (buf_len b + length data <= length (cells_of s (buf_arr b)))%nat ->
  exists s' b',
    Buffer_Write rt (Some r) data s = Ok tt s' /\
    written r data s s' /\
    length (arrays s') = length (arrays s) /\
    buffers s' !! r = Some b' /\ buffer_ok s' b' /\
    buf_len b' = (buf_len b + length data)%nat /\
    length (cells_of s' (buf_arr b')) = length (cells_of s (buf_arr b)).
Proof.
  intros Hr Hb Hfit.
  assert (Hlt : (r < length (buffers s))%nat) by (now apply lookup_lt_Some in Hr).
  unfold Buffer_Write, bind.
  rewrite (tryGrowByReslice_ok r b (length data) s Hr Hb).
  destruct (decide _) as [_|Hno]; [|contradiction].
  unfold ret at 1.
  rewrite (deref_ok r (mkBuffer (buf_arr b) (buf_len b + length data)))
    by (simpl; now apply list_lookup_insert_eq).
  simpl buf_arr. destruct (buf_arr b) as [a|] eqn:Ea.
  - pose proof Hb as [_ Harr]. rewrite Ea in Harr.
    destruct (lookup_lt_is_Some_2 _ _ Harr) as [cells Hc].
    rewrite (cells_of_Some s a cells Hc) in Hfit.
    rewrite (copy_into_ok a (buf_len b) data cells) by exact Hc.
    pose proof (written_in_place r a b data cells s Hr Ea Hc Hfit) as W.
    eexists. exists (mkBuffer (Some a) (buf_len b + length data)).
    split; [reflexivity|]. split; [exact W|].
    split; [simpl; apply length_insert|].
    assert (Hr' : buffers (set_arrays (fun arrs => <[a := written_cells (buf_len b) data cells]> arrs)
                     (reslice_state r b (length data) s)) !! r
                  = Some (mkBuffer (Some a) (buf_len b + length data))).
    { simpl. rewrite Ea. now apply list_lookup_insert_eq. }
    split; [exact Hr'|]. split; [exact (wr_ok _ _ _ _ W _ Hr')|].
    split; [reflexivity|].
    unfold cells_of. simpl. rewrite list_lookup_insert_eq by exact Harr. simpl.
    rewrite Hc. simpl. now apply written_cells_length.
  - simpl in Hfit.
    assert (Hl : buf_len b = 0%nat) by lia.
    assert (Hd : data = []) by (apply length_zero_iff_nil; lia).
    subst data.
    pose proof (written_nothing r b s Hr Ea Hl) as W.
    eexists. exists (mkBuffer None (buf_len b + 0)).
    split; [reflexivity|]. split; [exact W|]. split; [reflexivity|].
    assert (Hr' : buffers (reslice_state r b 0 s) !! r = Some (mkBuffer None (buf_len b + 0))).
    { simpl. rewrite Ea. now apply list_lookup_insert_eq. }
    split; [exact Hr'|]. split; [exact (wr_ok _ _ _ _ W _ Hr')|].
    split; reflexivity.
Qed.

Lemma length_rendering_cons (w : string) (ws : list string) :
  length (rendering (w :: ws)) = (length (bytes_of w) + length (rendering ws))%nat.
Proof. unfold rendering. simpl. now rewrite length_app. Qed.

Lemma WriteStrings_fits (rt : Runtime) (r : nat) (ws : list string) :
  forall (s : State) (b : Buffer),
    buffers s !! r = Some b -> buffer_ok s b ->
    (buf_len b + length (rendering ws) <= length (cells_of s (buf_arr b)))%nat ->
    exists s' b',
      WriteStrings rt (Some r) ws s = Ok tt s' /\
      written r (rendering ws) s s' /\
      length (arrays s') = length (arrays s) /\
      buffers s' !! r = Some b' /\ buffer_ok s' b' /\
      length (cells_of s' (buf_arr b')) = length (cells_of s (buf_arr b)).
Proof.
  induction ws as [|w ws IH]; intros s b Hr Hb Hfit.
  - exists s, b. split; [reflexivity|]. split; [now apply (written_refl r b)|].
    split; [reflexivity|]. split; [exact Hr|]. split; [exact Hb|reflexivity].
  - rewrite length_rendering_cons in Hfit. simpl. unfold bind.
    destruct (Buffer_Write_fits rt r b (bytes_of w) s Hr Hb ltac:(lia))
      as (s1 & b1 & E1 & W1 & La1 & Hr1 & Hb1 & Hl1 & Hc1).
    change (Buffer_WriteString rt (Some r) w s) with (Buffer_Write rt (Some r) (bytes_of w) s).
    rewrite E1.
    destruct (IH s1 b1 Hr1 Hb1 ltac:(lia)) as (s2 & b2 & E2 & W2 & La2 & Hr2 & Hb2 & Hc2).
    exists s2, b2. split; [exact E2|]. split.
    { unfold rendering. simpl. now apply (written_trans r _ _ s s1 s2). }
    split; [lia|]. split; [exact Hr2|]. split; [exact Hb2|lia].
Qed.

Lemma Put_cases (r : nat) (b : Buffer) (s : State) :
  enabled s = true -> buffers s !! r = Some b -> buffer_ok s b ->
  (pool.Put (Some r) s = Ok tt s /\ ~ not_oversized s r) \/
  (pool.Put (Some r) s = Ok tt (pooled_state r b s) /\ not_oversized s r).
Proof.
  intros En Hr Hb.
  destruct (decide (Z.of_nat (capacity s r) <= maxPoolSize s)) as [Hle|Hover].
  - right. assert (Hno : not_oversized s r) by now left.
    split; [exact (Put_kept r b s En Hr Hb Hno)|exact Hno].
  - destruct (discardOversized s) eqn:Hd.
    + left. split; [apply (Put_discards_oversized r b s En Hr Hb); [lia|exact Hd]|].
      intros [Hle|Hd']; [lia|congruence].
    + right. assert (Hno : not_oversized s r) by now right.
      split; [exact (Put_kept r b s En Hr Hb Hno)|exact Hno].
Qed.

Lemma drain_and_release (r : nat) (b : Buffer) (w0 : nat) (old : list byte) (s : State) :
  wf s -> enabled s = true -> buffers s !! r = Some b -> r ∉ pooled s ->
  writers s !! w0 = Some old ->
  exists s',
    bind (Buffer_WriteTo (Some r) w0) (fun _ => PutBuffer (Some r)) s = Ok tt s' /\
    writers s' = <[w0 := old ++ contents s r]> (writers s) /\
    wf s' /\
    arrays s' = arrays s /\ length (buffers s') = length (buffers s) /\
    length_of s' r = 0%nat /\ capacity s' r = capacity s r /\
    (not_oversized s r -> r ∈ pooled s') /\
    (forall x, x ∈ pooled s' -> x = r \/ x ∈ pooled s).
Proof.
  intros Hwf En Hr Hnot Hw.
  assert (Hlt : (r < length (buffers s))%nat) by (now apply lookup_lt_Some in Hr).
  assert (Hb : buffer_ok s b) by (destruct Hwf as [[Hok _] _]; exact (Hok r b Hr)).
  destruct (Buffer_WriteTo_ok r b w0 old s Hr Hw) as (s3 & E3 & Hw3 & Ea3 & Eb3 & Hp3).
  unfold pool_part in Hp3. injection Hp3 as Hth3 Hmx3 Hd3 Hen3 Hsm3 Hlg3.
  set (b3 := mkBuffer (buf_arr b) 0) in *.
  assert (Hr3 : buffers s3 !! r = Some b3).
  { rewrite Eb3. now apply list_lookup_insert_eq. }
  assert (Hwf3 : wf s3).
  { apply (wf_ext (set_buffers (fun bs => <[r := b3]> bs) s) s3); try assumption.
    destruct Hwf as [Hheap Hpool].
    assert (Hm : mutates r s (set_buffers (fun bs => <[r := b3]> bs) s)).
    { apply (mutates_store r b _ s Hr). reflexivity. }
    split.
    - apply (heap_ok_mutates r s _ Hheap Hm). intros b' Hb'. simpl in Hb'.
      rewrite list_lookup_insert_eq in Hb' by exact Hlt. injection Hb' as <-.
      destruct Hb as [_ Harr]. split; [simpl; lia|exact Harr].
    - apply (pool_ok_mutates r s _ Hpool Hm). }
  assert (Hb3 : buffer_ok s3 b3) by (destruct Hwf3 as [[Hok _] _]; exact (Hok r b3 Hr3)).
  assert (Hpooled3 : pooled s3 = pooled s) by (unfold pooled; now rewrite Hsm3, Hlg3).
  assert (Hc3 : capacity s3 r = capacity s r).
  { rewrite (capacity_eq s3 r b3 Hr3), (capacity_eq s r b Hr). unfold cells_of.
    now rewrite Ea3. }
  assert (Hno3 : not_oversized s r -> not_oversized s3 r).
  { unfold not_oversized. now rewrite Hc3, Hmx3, Hd3. }
  assert (Hlen3 : length (buffers s3) = length (buffers s)).
  { rewrite Eb3. apply length_insert. }
  unfold bind, PutBuffer. rewrite E3.
  destruct (Put_cases r b3 s3 ltac:(congruence) Hr3 Hb3) as [[EP Hover]|[EP Hno]];
    rewrite EP.
  - exists s3. split; [reflexivity|]. split; [exact Hw3|]. split; [exact Hwf3|].
    split; [exact Ea3|]. split; [exact Hlen3|].
    split; [now rewrite (length_of_eq s3 r b3 Hr3)|]. split; [exact Hc3|].
    split; [intros H; exfalso; exact (Hover (Hno3 H))|].
    intros x Hx. right. now rewrite <- Hpooled3.
  - destruct (pooled_state_frame r b3 s3) as (Ea & Eb & Es).
    destruct (pooled_state_buffer r b3 s3 Hr3) as (_ & Hl & Hc).
    unfold settings in Es. injection Es as Hw' _ _ _ _.
    exists (pooled_state r b3 s3). split; [reflexivity|].
    split; [congruence|].
    split; [apply (pooled_state_wf r b3 s3 Hwf3 Hr3); now rewrite Hpooled3|].
    split; [congruence|].
    split; [rewrite Eb, length_insert; exact Hlen3|].
    split; [exact Hl|]. split; [congruence|].
    split; [intros _; apply pooled_state_pooled; now left|].
    intros x Hx. apply pooled_state_pooled in Hx as [->|Hx]; [now left|right].
    now rewrite <- Hpooled3.
Qed.

(** X16.  Rendering out of a pooled buffer allocates nothing.  With pooling
    enabled and a positive threshold, when the small registry yields a buffer
    whose capacity covers the rendering of the node, [Render] with a writer
    hands the writer the rendering and creates no array and no buffer: the
    buffer is written in place, keeps its capacity, ends empty, and goes
    back to the pool unless it is oversized and such buffers are
    discarded. *)
Theorem Render_out_of_pooled_buffer_allocates_nothing
    (rt : Runtime) (n : Node) (i r w0 : nat) (more : list Writer)
    (s : State) (ws : list string) (old : list byte) :
  wf s -> enabled s = true -> 0 < poolThreshold s ->
  idle (smallPool s) !! i = Some r ->
  (length (rendering ws) <= capacity s r)%nat ->
  chunks n = Some ws -> writers s !! w0 = Some old ->
  exists s',
    Render rt n (Some i) (Some w0 :: more) s = Ok nil_slice s' /\
    writers s' = <[w0 := old ++ rendering ws]> (writers s) /\
    length (arrays s') = length (arrays s) /\
    length (buffers s') = length (buffers s) /\
    capacity s' r = capacity s r /\ length_of s' r = 0%nat /\
    (not_oversized s r -> r ∈ pooled s') /\
    (forall x, x ∈ pooled s' -> x ∈ pooled s) /\
    wf s'.
Proof.
  intros Hwf En Hth Hi Hcap Hch Hw.
  assert (Htier : tier_of_hint s 0 = Small).
  { unfold tier_of_hint. now rewrite (proj2 (Z.ltb_lt 0 (poolThreshold s)) Hth). }
  assert (Hin : r ∈ pooled s).
  { apply elem_of_app. left. apply list_elem_of_lookup. eauto. }
  assert (Hlt : (r < length (buffers s))%nat).
  { destruct Hwf as [_ [Hpin _]]. now apply Hpin. }
  destruct (lookup_lt_is_Some_2 _ _ Hlt) as [b Hr].
  assert (Hb : buffer_ok s b) by (destruct Hwf as [[Hok _] _]; exact (Hok r b Hr)).
  destruct (Get_takes rt i 0 s r b En ltac:(now rewrite Htier) Hr Hb)
    as (s1 & b1 & E1 & _ & _ & Hset1 & _ & Hlen1 & _ & Hr1 & Hl1 & Hb1 & _ & _ & Hfit1).
  destruct (Hfit1 ltac:(lia)) as [Ea1 Hc1].
  destruct (Get_acquires rt (Some i) 0 s Hwf (or_intror En)) as (r0 & s1' & E1' & A1 & _).
  rewrite E1 in E1'. injection E1' as <- <-.
  unfold settings in Hset1. injection Hset1 as Hw1 Hth1 Hmx1 Hd1 Hen1.
  destruct (WriteStrings_fits rt r ws s1 b1 Hr1 Hb1) as (s2 & b2 & E2 & W2 & La2 & Hr2 & Hb2 & Hc2).
  { rewrite Hl1, <- (capacity_eq s1 r b1 Hr1), Hc1. simpl. exact Hcap. }
  destruct (written_wf r _ s s1 s2 A1 W2) as [Hwf2 Hpooled2].
  pose proof (mut_rest _ _ _ (wr_mutates _ _ _ _ W2)) as Hrest2. unfold rest_of in Hrest2.
  injection Hrest2 as Hw2 Hth2 Hmx2 Hd2 Hen2 _ _.
  assert (Hnot2 : r ∉ pooled s2).
  { rewrite Hpooled2. intros H. now destruct (acq_pools _ _ _ A1 r H). }
  assert (Hcont2 : contents s2 r = rendering ws).
  { rewrite (wr_contents _ _ _ _ W2), (contents_empty s1 r); [reflexivity|].
    now rewrite (length_of_eq s1 r b1 Hr1). }
  assert (Hcap2 : capacity s2 r = capacity s r).
  { rewrite (capacity_eq s2 r b2 Hr2), Hc2, <- (capacity_eq s1 r b1 Hr1). exact Hc1. }
  destruct (drain_and_release r b2 w0 old s2 Hwf2 ltac:(congruence) Hr2 Hnot2
              ltac:(congruence))
    as (s' & E3 & Hw' & Hwf' & Ea' & Hlen' & Hl' & Hc' & Hkept & Hsub).
  exists s'. split.
  - assert (Hbody : Render rt n (Some i) (Some w0 :: more) s
                 = bind (NewBuffer rt (Some i) [])
                     (fun buf => bind (RenderBuilder rt n buf)
                        (fun _ => bind (Buffer_WriteTo buf w0)
                           (fun _ => bind (PutBuffer buf) (fun _ => ret nil_slice)))) s).
    { destruct n; try discriminate Hch; reflexivity. }
    rewrite Hbody. unfold bind at 1 2. unfold NewBuffer. rewrite E1.
    rewrite (RenderBuilder_chunks rt n (Some r) ws s1 Hch), E2.
    unfold bind in E3 |- *. destruct (Buffer_WriteTo (Some r) w0 s2) as [[] s3|];
      [|discriminate E3].
    now rewrite E3.
  - split; [rewrite Hw', Hcont2; congruence|].
    split; [rewrite Ea', La2, Ea1; reflexivity|].
    split; [rewrite Hlen', (mut_buffers _ _ _ (wr_mutates _ _ _ _ W2)); exact Hlen1|].
    split; [congruence|]. split; [exact Hl'|].
    split.
    { intros Hno. apply Hkept. unfold not_oversized in *.
      now rewrite Hcap2, Hmx2, Hmx1, Hd2, Hd1. }
    split; [|exact Hwf'].
    intros x Hx. destruct (Hsub x Hx) as [->|Hx']; [exact Hin|].
    rewrite Hpooled2 in Hx'. now destruct (acq_pools _ _ _ A1 x Hx').
Qed.

Lemma wf_pooled_buffer_state : wf pooled_buffer_state.
Proof.
  split; split.
  - intros [|r] b H; [|discriminate H]. injection H as <-.
    split; [simpl; lia|simpl; lia].
  - intros [|r1] [|r2] b1 b2 a H1 H2; try discriminate H1; try discriminate H2.
    reflexivity.
  - intros r H. simpl in H. apply list_elem_of_singleton in H as ->. simpl. lia.
  - simpl. apply NoDup_singleton.
Qed.

Lemma Render_out_of_pooled_buffer_allocates_nothing_witness :
  exists s',
    Render exact_runtime example_list (Some 0%nat) [Some 0%nat] pooled_buffer_state
      = Ok nil_slice s' /\
    writers s' = <[0%nat := bytes_of "<p>" ++ rendering ["1"%string; "2"%string]]>
                   (writers pooled_buffer_state) /\
    length (arrays s') = length (arrays pooled_buffer_state) /\
    length (buffers s') = length (buffers pooled_buffer_state) /\
    capacity s' 0 = capacity pooled_buffer_state 0 /\ length_of s' 0 = 0%nat /\
    (not_oversized pooled_buffer_state 0 -> 0%nat ∈ pooled s') /\
    (forall x, x ∈ pooled s' -> x ∈ pooled pooled_buffer_state) /\
    wf s'.
Proof.
  apply (Render_out_of_pooled_buffer_allocates_nothing exact_runtime example_list
           0 0 0 [] pooled_buffer_state ["1"%string; "2"%string] (bytes_of "<p>")).
  - apply wf_pooled_buffer_state.
  - reflexivity.
  - reflexivity.
  - reflexivity.
  - vm_compute. lia.
  - reflexivity.
  - reflexivity.
Defined.
